(** * dotenv-vault-diff-action: version-range reconciliation

    A shallow embedding of the comment-body computation of the action
    (the richer entry point with [getAllVersions],
    [getChangedStageVersions] and [generateCommentBody], and the stage
    detection of [src/main.ts]), and the properties of it that the
    specification states.  After them come the entry point [run] with
    the calls it makes, the comment body of [src/main.ts], and what the
    code itself shows about them.

    Conventions of the embedding.
    - A JavaScript string is a [string]: a sequence of code units, here
      restricted to the code units below 256.
    - A JavaScript number is a [num]: a double that is an integer, one
      of the two infinities, or NaN.  The program only ever builds
      numbers from decimal digit runs by [parseInt], subtraction and
      addition; each of them rounds its exact result to the nearest
      double ([roundDouble]: ties to the even significand, [Infinity]
      past the greatest double).  Zero has no sign here: the program
      never tells [-0] from [0].
    - [Array.from] throws a RangeError when asked for more than
      [2 ^ 32 - 1] elements; a throw is the result [Err] with the
      message of the error.  Memory and the number of arguments of a
      call are not bounded.
    - The two places where the program talks to the outside, the
      [git diff] command and the [dotenv-vault versions] command, are
      the field [execAsync] of a [World]: a command either resolves to
      its standard output or rejects.  Console output is not modelled.
    - The two regular expressions of the program are embedded as the
      scanners they denote: a literal followed by a greedy digit run for
      the version markers, a greedy run of two or more white-space
      characters for the column separator.
    - [Promise.all] keeps the order of the array it is given and the
      callbacks share no state, so the concurrent listing of the stages
      is a [map] over the enumeration. *)

From Stdlib Require Import List String Ascii ZArith Lia Bool Arith Sorted.
Import ListNotations.
Open Scope list_scope.
Open Scope string_scope.

(** ** JavaScript strings *)

Module JSString.

Definition LF : ascii := "010"%char.
Definition nl : string := String LF EmptyString.

Definition code (c : ascii) : nat := nat_of_ascii c.

(** [\d] *)
Definition isDigit (c : ascii) : bool :=
  (48 <=? code c)%nat && (code c <=? 57)%nat.

(** [\s], and the characters [trim] removes: TAB, LF, VT, FF, CR,
    SPACE and NBSP are the ones below 256. *)
Definition isSpace (c : ascii) : bool :=
  ((9 <=? code c)%nat && (code c <=? 13)%nat)
  || (code c =? 32)%nat || (code c =? 160)%nat.

Fixpoint takeWhile (p : ascii -> bool) (s : string) : string :=
  match s with
  | EmptyString => EmptyString
  | String c s' => if p c then String c (takeWhile p s') else EmptyString
  end.

Fixpoint dropWhile (p : ascii -> bool) (s : string) : string :=
  match s with
  | EmptyString => EmptyString
  | String c s' => if p c then dropWhile p s' else s
  end.

Fixpoint drop (n : nat) (s : string) : string :=
  match n, s with
  | O, _ => s
  | S _, EmptyString => EmptyString
  | S k, String _ s' => drop k s'
  end.

Definition isEmpty (s : string) : bool :=
  match s with EmptyString => true | String _ _ => false end.

(** Every character of [s] satisfies [p]. *)
Fixpoint allb (p : ascii -> bool) (s : string) : bool :=
  match s with
  | EmptyString => true
  | String c s' => p c && allb p s'
  end.

(** [s.startsWith(p)] *)
Fixpoint startsWith (p s : string) : bool :=
  match p, s with
  | EmptyString, _ => true
  | String _ _, EmptyString => false
  | String a p', String b s' => Ascii.eqb a b && startsWith p' s'
  end.

(** [s.includes(sub)] *)
Fixpoint includes (sub s : string) : bool :=
  startsWith sub s ||
  match s with
  | EmptyString => false
  | String _ s' => includes sub s'
  end.

Definition trimStart (s : string) : string := dropWhile isSpace s.

Fixpoint trimEnd (s : string) : string :=
  match s with
  | EmptyString => EmptyString
  | String c s' =>
      match trimEnd s' with
      | EmptyString => if isSpace c then EmptyString else String c EmptyString
      | t => String c t
      end
  end.

(** [s.trim()] *)
Definition trim (s : string) : string := trimEnd (trimStart s).

Definition consHead (c : ascii) (l : list string) : list string :=
  match l with
  | [] => [String c EmptyString]
  | h :: t => String c h :: t
  end.

(** [s.split(sep)] for a separator of one character. *)
Fixpoint split (sep : ascii) (s : string) : list string :=
  match s with
  | EmptyString => [EmptyString]
  | String c s' =>
      if Ascii.eqb c sep then EmptyString :: split sep s'
      else consHead c (split sep s')
  end.

(** [s.split(/\s{2,}/)]: [skip] counts the characters of the current
    separator that are still to be passed over. *)
Fixpoint splitSpaces2From (s : string) (skip : nat) : list string :=
  match s with
  | EmptyString => [EmptyString]
  | String c s' =>
      match skip with
      | S k => splitSpaces2From s' k
      | O =>
          let run := String.length (takeWhile isSpace s) in
          if (2 <=? run)%nat then EmptyString :: splitSpaces2From s' (run - 1)
          else consHead c (splitSpaces2From s' 0)
      end
  end.

Definition splitSpaces2 (s : string) : list string := splitSpaces2From s 0.

(** [l.join(sep)] *)
Fixpoint join (sep : string) (l : list string) : string :=
  match l with
  | [] => EmptyString
  | [x] => x
  | x :: t => x ++ sep ++ join sep t
  end.

(** [s.replace(c, "")] for a pattern of one character: the first
    occurrence goes. *)
Fixpoint removeFirst (c : ascii) (s : string) : string :=
  match s with
  | EmptyString => EmptyString
  | String a s' => if Ascii.eqb a c then s' else String a (removeFirst c s')
  end.

(** The loop [while ((match = re.exec(s)) !== null) push(match[1])] for
    the global expression [lit(\d+)], [lit] a literal: the captured
    digit runs, leftmost first, the search resuming where the previous
    match ended. *)
Definition matchAt (lit s : string) : option string :=
  if startsWith lit s then
    let d := takeWhile isDigit (drop (String.length lit) s) in
    if isEmpty d then None else Some d
  else None.

Fixpoint execAllFrom (lit s : string) (skip : nat) : list string :=
  match s with
  | EmptyString => []
  | String _ s' =>
      match skip with
      | S k => execAllFrom lit s' k
      | O =>
          match matchAt lit s with
          | Some d => d :: execAllFrom lit s' (String.length lit + String.length d - 1)
          | None => execAllFrom lit s' 0
          end
      end
  end.

Definition execAll (lit s : string) : list string := execAllFrom lit s 0.

(** Template literals print [undefined] as the word. *)
Definition toStr (v : option string) : string :=
  match v with Some s => s | None => "undefined" end.

(** Truthiness of a string or [undefined]. *)
Definition truthy (v : option string) : bool :=
  match v with Some s => negb (isEmpty s) | None => false end.

(** A double quote. *)
Definition DQ : string := String "034"%char EmptyString.

(** [s.toLowerCase()] on the code units below 256: the letters A to Z
    and the capital letters of Latin-1 (all of 192 to 222 but the
    multiplication sign) move up by 32. *)
Definition lowerChar (c : ascii) : ascii :=
  let n := code c in
  if ((65 <=? n)%nat && (n <=? 90)%nat)
     || ((192 <=? n)%nat && (n <=? 214)%nat)
     || ((216 <=? n)%nat && (n <=? 222)%nat)
  then ascii_of_nat (n + 32)
  else c.

Fixpoint toLowerCase (s : string) : string :=
  match s with
  | EmptyString => EmptyString
  | String c s' => String (lowerChar c) (toLowerCase s')
  end.

End JSString.

(** ** JavaScript numbers *)

Module JSNum.
Import JSString.

Inductive num : Type :=
| NaN
| NegInf
| Fin (z : Z)
| PosInf.

Definition isNaN (x : num) : bool :=
  match x with NaN => true | _ => false end.

(** The double nearest to an integer, ties to the even significand:
    an integer below [2 ^ 53] in size is a double; a larger one keeps 53
    significant bits; from [2 ^ 1024 - 2 ^ 970] on it is an infinity.
    Every number of the program is an integer, an infinity or NaN, so
    [Fin z] always holds such a double. *)
Definition roundDouble (z : Z) : num :=
  let a := Z.abs z in
  if (a <? 2 ^ 53)%Z then Fin z
  else
    let ulp := (2 ^ (Z.log2 a - 52))%Z in
    let q := (a / ulp)%Z in
    let r := (a mod ulp)%Z in
    let q' := if (2 * r <? ulp)%Z then q
              else if (ulp <? 2 * r)%Z then (q + 1)%Z
              else if Z.even q then q else (q + 1)%Z in
    let m := (q' * ulp)%Z in
    if (2 ^ 1024 <=? m)%Z then (if (z <? 0)%Z then NegInf else PosInf)
    else Fin (Z.sgn z * m).

(** The greatest double. *)
Definition MAX_VALUE : Z := 2 ^ 1024 - 2 ^ 971.

(** [x < y] *)
Definition ltb (x y : num) : bool :=
  match x, y with
  | NaN, _ | _, NaN => false
  | NegInf, NegInf => false
  | NegInf, _ => true
  | _, NegInf => false
  | PosInf, _ => false
  | Fin _, PosInf => true
  | Fin a, Fin b => (a <? b)%Z
  end.

(** [x + y] *)
Definition add (x y : num) : num :=
  match x, y with
  | NaN, _ | _, NaN => NaN
  | PosInf, NegInf | NegInf, PosInf => NaN
  | PosInf, _ | _, PosInf => PosInf
  | NegInf, _ | _, NegInf => NegInf
  | Fin a, Fin b => roundDouble (a + b)
  end.

(** [x - y] *)
Definition sub (x y : num) : num :=
  match x, y with
  | NaN, _ | _, NaN => NaN
  | PosInf, PosInf | NegInf, NegInf => NaN
  | PosInf, _ | _, NegInf => PosInf
  | NegInf, _ | _, PosInf => NegInf
  | Fin a, Fin b => roundDouble (a - b)
  end.

(** [Math.min(...xs)]: [Infinity] for no argument, NaN as soon as one
    argument is NaN. *)
Definition Math_min (xs : list num) : num :=
  fold_left
    (fun lowest x =>
       if isNaN lowest || isNaN x then NaN
       else if ltb x lowest then x else lowest)
    xs PosInf.

(** [Math.max(...xs)]: [-Infinity] for no argument. *)
Definition Math_max (xs : list num) : num :=
  fold_left
    (fun highest x =>
       if isNaN highest || isNaN x then NaN
       else if ltb highest x then x else highest)
    xs NegInf.

Definition MAX_SAFE_INTEGER : Z := 2 ^ 53 - 1.

(** The length of the array-like [{ length: n }]: nothing for NaN and
    for whatever is not positive, and [2 ^ 53 - 1] at most. *)
Definition ToLength (n : num) : Z :=
  match n with
  | NaN | NegInf => 0
  | Fin z => Z.max 0 (Z.min z MAX_SAFE_INTEGER)
  | PosInf => MAX_SAFE_INTEGER
  end.

(** The longest array there is. *)
Definition MAX_ARRAY_LENGTH : Z := 2 ^ 32 - 1.

(** [Array.from({ length: n }, (_, i) => f(i))]: [None] when the length
    is more than an array can have, where the call throws the
    RangeError [Invalid array length]. *)
Definition Array_from {A : Type} (n : num) (f : Z -> A) : option (list A) :=
  let len := ToLength n in
  if (MAX_ARRAY_LENGTH <? len)%Z then None
  else Some (map (fun i => f (Z.of_nat i)) (seq 0 (Z.to_nat len))).

(** SameValueZero, the equality of [Array.prototype.includes]. *)
Definition sameValueZero (x y : num) : bool :=
  match x, y with
  | NaN, NaN => true
  | NegInf, NegInf => true
  | PosInf, PosInf => true
  | Fin a, Fin b => (a =? b)%Z
  | _, _ => false
  end.

(** [l.includes(x)] *)
Definition Array_includes (l : list num) (x : num) : bool :=
  existsb (sameValueZero x) l.

(** The value of a character as a digit in some radix up to 36. *)
Definition digitValue (c : ascii) : option Z :=
  let n := code c in
  if (48 <=? n)%nat && (n <=? 57)%nat then Some (Z.of_nat (n - 48))
  else if (97 <=? n)%nat && (n <=? 122)%nat then Some (Z.of_nat (n - 87))
  else if (65 <=? n)%nat && (n <=? 90)%nat then Some (Z.of_nat (n - 55))
  else None.

(** The longest prefix of digits of the radix, read as a number;
    [None] when it is empty. *)
Fixpoint parseDigits (radix : Z) (s : string) (acc : option Z) : option Z :=
  match s with
  | EmptyString => acc
  | String c s' =>
      match digitValue c with
      | Some d =>
          if (d <? radix)%Z
          then parseDigits radix s'
                 (Some (radix * match acc with Some a => a | None => 0 end + d)%Z)
          else acc
      | None => acc
      end
  end.

Definition hexPrefix (s : string) : bool :=
  startsWith "0x" s || startsWith "0X" s.

(** [parseInt(s, radix)]; [None] is a call without radix.  The result
    is the double nearest to the integer the digits write. *)
Definition parseInt (s : string) (radix : option Z) : num :=
  let s1 := trimStart s in
  let '(sign, s2) :=
    match s1 with
    | String c r =>
        if Ascii.eqb c "-" then ((-1)%Z, r)
        else if Ascii.eqb c "+" then (1%Z, r)
        else (1%Z, s1)
    | EmptyString => (1%Z, s1)
    end in
  let R := match radix with Some r => r | None => 0%Z end in
  if negb (R =? 0)%Z && ((R <? 2)%Z || (36 <? R)%Z) then NaN
  else
    let strip := (R =? 0)%Z || (R =? 16)%Z in
    let '(R', s3) :=
      if strip && hexPrefix s2 then (16%Z, drop 2 s2)
      else ((if (R =? 0)%Z then 10%Z else R), s2) in
    match parseDigits R' s3 None with
    | Some v => roundDouble (sign * v)
    | None => NaN
    end.

End JSNum.

(** ** The action *)

Module Action.
Import JSString JSNum.

(** The interface [VaultEnvVersion].  At run time [version] and [user]
    can be [undefined]. *)
Record VaultEnvVersion : Type := mkVersion {
  version : option string;
  fields : string;
  user : option string;
  time : string
}.

(** An element of the array [getChangedStageVersions] returns. *)
Record StageVersions : Type := mkStageVersions {
  stage : string;
  versions : list num
}.

Definition STAGES : list string :=
  ["CI"; "DEVELOPMENT"; "STAGING"; "PRODUCTION"].

(** A promise, once settled, or a call that returns or throws: the
    value, or the message of the error. *)
Inductive result (A : Type) : Type :=
| Ok (a : A)
| Err (e : string).
Arguments Ok {A} a.
Arguments Err {A} e.

Record World : Type := mkWorld {
  GITHUB_BASE_REF : option string;
  execAsync : string -> result string
}.

Definition versionsCommand (stage : string) : string :=
  "npx dotenv-vault versions " ++ stage.

Definition gitDiffCommand (w : World) : string :=
  "git diff origin/" ++ toStr (GITHUB_BASE_REF w) ++ " -- .env.vault".

(** [l.pop()]: the last element, and what is left of [l]. *)
Fixpoint Array_pop {A : Type} (l : list A) : option A * list A :=
  match l with
  | [] => (None, [])
  | [x] => (Some x, [])
  | x :: t => let '(o, r) := Array_pop t in (o, x :: r)
  end.

(** The callback of [versionLines.map]: one line of the listing. *)
Definition parseLine (line : string) : VaultEnvVersion :=
  let parts := splitSpaces2 (trim line) in
  let '(userTime, parts) := Array_pop parts in
  let '(user, timeParts) :=
    match userTime with
    | Some ut =>
        match split " " ut with
        | u :: t => (Some u, t)
        | [] => (None, [])
        end
    | None => (None, [])
    end in
  let time := join " " timeParts in
  let version :=
    match parts with
    | p :: _ => Some (removeFirst "v" p)
    | [] => None
    end in
  let parts := List.tl parts in
  let fields :=
    match parts with
    | f :: _ => f
    | [] => "N/A"
    end in
  mkVersion version fields user time.

(** The body of the [try] of [getAllVersions], from [stdout] on. *)
Definition parseListing (stdout : string) : list VaultEnvVersion :=
  let versionLines := skipn 2 (split LF stdout) in
  let allVersions :=
    filter (fun v => truthy (version v))
      (map parseLine
         (filter (fun line => negb (isEmpty (trim line))) versionLines)) in
  allVersions.

Definition getAllVersions (w : World) (stage : string)
  : list VaultEnvVersion :=
  match execAsync w (versionsCommand stage) with
  | Ok stdout => parseListing stdout
  | Err _ => []
  end.

Definition addedMarker (stage : string) : string :=
  "+DOTENV_VAULT_" ++ stage ++ "_VERSION=".

Definition removedMarker (stage : string) : string :=
  "-DOTENV_VAULT_" ++ stage ++ "_VERSION=".

(** The predicate of [STAGES.filter]. *)
Definition stageChanged (diffOutput stage : string) : bool :=
  includes ("+DOTENV_VAULT_" ++ stage) diffOutput
  || includes ("-DOTENV_VAULT_" ++ stage) diffOutput.

Definition addedVersions (diffOutput stage : string) : list num :=
  map (fun m => parseInt m None) (execAll (addedMarker stage) diffOutput).

Definition removedVersions (diffOutput stage : string) : list num :=
  map (fun m => parseInt m None) (execAll (removedMarker stage) diffOutput).

(** The callback of [changedStages.map]; it throws when [Array.from]
    does. *)
Definition stageVersionsOf (diffOutput stage : string) : result StageVersions :=
  let addedVersions := addedVersions diffOutput stage in
  let removedVersions := removedVersions diffOutput stage in
  let minRemovedVersion := Math_min removedVersions in
  let maxAddedVersion := Math_max addedVersions in
  match Array_from (sub maxAddedVersion minRemovedVersion)
          (fun i => add (add minRemovedVersion (Fin i)) (Fin 1)) with
  | Some versions => Ok (mkStageVersions stage versions)
  | None => Err "Invalid array length"
  end.

(** [l.map(f)] for a callback that can throw: the first throw ends
    it. *)
Fixpoint Array_map {A B : Type} (f : A -> result B) (l : list A)
  : result (list B) :=
  match l with
  | [] => Ok []
  | x :: t =>
      match f x with
      | Err e => Err e
      | Ok y =>
          match Array_map f t with
          | Ok ys => Ok (y :: ys)
          | Err e => Err e
          end
      end
  end.

Definition changedStages (diffOutput : string) : list string :=
  filter (stageChanged diffOutput) STAGES.

(** [getChangedStageVersions], from [diffOutput] on. *)
Definition changedStageVersions (diffOutput : string)
  : result (list StageVersions) :=
  let changedStages := changedStages diffOutput in
  if (List.length changedStages =? 0)%nat then Ok []
  else Array_map (stageVersionsOf diffOutput) changedStages.

Definition getChangedStageVersions (w : World)
  : result (list StageVersions) :=
  match execAsync w (gitDiffCommand w) with
  | Ok diffOutput => changedStageVersions diffOutput
  | Err e => Err e
  end.

(** The line of one record. *)
Definition versionLine (stage : string) (cv : VaultEnvVersion) : string :=
  stage ++ " (" ++ toStr (version cv) ++ "): `" ++ fields cv ++ "`".

(** The filter of [generateCommentBody]: the records of the listing
    whose version is one of [range]. *)
Definition changedVersionsOf (range : list num)
  (versions : list VaultEnvVersion) : list VaultEnvVersion :=
  filter
    (fun v => Array_includes range (parseInt (toStr (version v)) (Some 10%Z)))
    versions.

(** The callback of [STAGES.map] in [generateCommentBody]. *)
Definition stageOutput (w : World) (changedStageVersions : list StageVersions)
  (stage : string) : string :=
  match find (fun changedStage => String.eqb (Action.stage changedStage) stage)
          changedStageVersions with
  | None => stage ++ ": No changes"
  | Some changedVersion =>
      let versions := getAllVersions w stage in
      let changedVersions :=
        changedVersionsOf (Action.versions changedVersion) versions in
      if (List.length changedVersions =? 0)%nat
      then stage ++ ": No versions changed"
      else join nl (map (versionLine stage) changedVersions)
  end.

Definition versionOutputs (w : World)
  (changedStageVersions : list StageVersions) : list string :=
  map (stageOutput w changedStageVersions) STAGES.

Definition commentBody (w : World)
  (changedStageVersions : list StageVersions) : string :=
  "Dotenv-vault Diff" ++ nl ++ join nl (versionOutputs w changedStageVersions).

Definition generateCommentBody (w : World) : result string :=
  match getChangedStageVersions w with
  | Ok changedStageVersions => Ok (commentBody w changedStageVersions)
  | Err e => Err e
  end.

End Action.

(** ** The stage detection of [src/main.ts] *)

Module MainTs.
Import JSString.

Definition stages : list string :=
  ["CI"; "DEVELOPMENT"; "STAGING"; "PRODUCTION"].

Definition changedStages (diffOutput : string) : list string :=
  filter (fun stage => includes ("+DOTENV_VAULT_" ++ stage) diffOutput) stages.

(** The command of [getLatestVersion]. *)
Definition latestVersionCommand (stage : string) : string :=
  "dotenv-vault versions " ++ stage
  ++ " | awk 'NR==3 { printf " ++ DQ ++ "%5s %s" ++ DQ ++ ", $1, $2 }'".

Definition getLatestVersion (w : Action.World) (stage : string) : string :=
  match Action.execAsync w (latestVersionCommand stage) with
  | Action.Ok stdout => trim stdout
  | Action.Err _ => EmptyString
  end.

Definition noChangesBody : string :=
  "Dotenv-vault Diff" ++ nl ++ nl ++ "No changes detected in .env.vault file.".

(** The callback of [changedStages.map]. *)
Definition versionOutput (w : Action.World) (stage : string) : string :=
  let version := getLatestVersion w (toLowerCase stage) in
  if negb (isEmpty version) then nl ++ stage ++ ":" ++ nl ++ version
  else EmptyString.

(** [generateCommentBody], from [diffOutput] on. *)
Definition commentBodyOf (w : Action.World) (diffOutput : string) : string :=
  let changedStages := changedStages diffOutput in
  if (List.length changedStages =? 0)%nat then noChangesBody
  else
    let versionOutputs := map (versionOutput w) changedStages in
    trim ("Dotenv-vault Diff" ++ nl ++ join nl versionOutputs).

Definition generateCommentBody (w : Action.World) : Action.result string :=
  match Action.execAsync w (Action.gitDiffCommand w) with
  | Action.Ok diffOutput => Action.Ok (commentBodyOf w diffOutput)
  | Action.Err e => Action.Err e
  end.

End MainTs.

(** ** The entry point [run]

    The calls [run] makes leave a trace of events, in the order they are
    issued; a call either resolves or rejects with the value thrown.
    [await] in a [try] is the bind of the monad below, [catch] its
    handler.  What the libraries do ([core.getInput], [github.context],
    the REST client) and what the commands print is given by the
    [Runtime]. *)

Module Run.
Import JSString JSNum Action.

(** The interface [PullRequest]. *)
Record PullRequest : Type := mkPullRequest {
  number : num;
  title : string;
  base_ref : string;
  head_ref : string
}.

(** A comment of the issue, as the REST client lists it; [user] can be
    null and [body] missing. *)
Record Comment : Type := mkComment {
  id : num;
  user_login : option string;
  body : option string
}.

(** [context.repo] *)
Record Repo : Type := mkRepo {
  owner : string;
  repo : string
}.

(** A value thrown: an [Error] with its message, or something else. *)
Inductive thrown : Type :=
| ErrorObject (message : string)
| OtherValue.

Inductive outcome (A : Type) : Type :=
| Resolved (a : A)
| Rejected (error : thrown).
Arguments Resolved {A} a.
Arguments Rejected {A} error.

(** [github.getOctokit(token).rest] *)
Record Octokit : Type := mkOctokit {
  pulls_get : Repo -> num -> outcome PullRequest;
  issues_listComments : Repo -> num -> outcome (list Comment);
  issues_updateComment : Repo -> num -> string -> outcome unit;
  issues_createComment : Repo -> option num -> string -> outcome unit
}.

Definition Environment : Type := string -> option string.

Record Runtime : Type := mkRuntime {
  process_env : Environment;
  core_getInput : string -> string;
  context_repo : outcome Repo;
  context_payload_pull_request : option PullRequest;
  context_issue_number : option num;
  github_getOctokit : string -> Octokit;
  (** A command run by [exec] sees the environment of the process at
      that time. *)
  child_process_exec : Environment -> string -> result string
}.

Inductive Event : Type :=
| Exec (command : string)
| PullsGet (token : string) (r : Repo) (pull_number : num)
| ListComments (token : string) (r : Repo) (issue_number : num)
| UpdateComment (token : string) (r : Repo) (comment_id : num) (body : string)
| CreateComment (token : string) (r : Repo) (issue_number : option num) (body : string)
| SetFailed (message : string).

(** [process.env[key] = value] *)
Definition setEnv (env : Environment) (key value : string) : Environment :=
  fun k => if String.eqb k key then Some value else env k.

(** A computation: the events it issues and how it settles. *)
Definition M (A : Type) : Type := (list Event * outcome A)%type.

Definition ret {A : Type} (a : A) : M A := ([], Resolved a).

Definition bind {A B : Type} (m : M A) (f : A -> M B) : M B :=
  match m with
  | (t1, Resolved a) => let '(t2, r) := f a in ((t1 ++ t2)%list, r)
  | (t1, Rejected e) => (t1, Rejected e)
  end.

Definition tryCatch {A : Type} (m : M A) (handler : thrown -> M A) : M A :=
  match m with
  | (t1, Rejected e) => let '(t2, r) := handler e in ((t1 ++ t2)%list, r)
  | (t1, Resolved a) => (t1, Resolved a)
  end.

Definition call {A : Type} (ev : Event) (r : outcome A) : M A := ([ev], r).

Notation "x <- m ;; k" := (bind m (fun x => k))
  (at level 61, m at next level, right associativity).

(** [Promise.all(l.map(f))]: the callbacks start in the order of [l],
    and each callback of the program issues one call at most, so the
    events come in the order of [l]; a rejection, if any, is the
    rejection of the whole (the callbacks of the program never
    reject). *)
Fixpoint promiseAllMap {A B : Type} (f : A -> M B) (l : list A) : M (list B) :=
  match l with
  | [] => ret []
  | x :: t =>
      match f x, promiseAllMap f t with
      | (t1, Resolved b), (t2, Resolved bs) => ((t1 ++ t2)%list, Resolved (b :: bs))
      | (t1, Rejected e), (t2, _) => ((t1 ++ t2)%list, Rejected e)
      | (t1, Resolved _), (t2, Rejected e) => ((t1 ++ t2)%list, Rejected e)
      end
  end.

(** [execAsync(command)] with the environment [env]. *)
Definition execAsync (rt : Runtime) (env : Environment) (command : string)
  : M string :=
  call (Exec command)
    match child_process_exec rt env command with
    | Ok stdout => Resolved stdout
    | Err e => Rejected (ErrorObject e)
    end.

Definition getAllVersions (rt : Runtime) (env : Environment) (stage : string)
  : M (list VaultEnvVersion) :=
  tryCatch
    (stdout <- execAsync rt env (versionsCommand stage) ;;
     ret (parseListing stdout))
    (fun _ => ret []).

Definition getChangedStageVersions (rt : Runtime) (env : Environment)
  : M (list StageVersions) :=
  diffOutput <- execAsync rt env
                  ("git diff origin/" ++ toStr (env "GITHUB_BASE_REF")
                   ++ " -- .env.vault") ;;
  match changedStageVersions diffOutput with
  | Ok stageVersions => ret stageVersions
  | Err message => ([], Rejected (ErrorObject message))
  end.

Definition generateCommentBody (rt : Runtime) (env : Environment) : M string :=
  changedStageVersions <- getChangedStageVersions rt env ;;
  versionOutputs <-
    promiseAllMap
      (fun stage =>
         match find (fun changedStage =>
                       String.eqb (Action.stage changedStage) stage)
                 changedStageVersions with
         | None => ret (stage ++ ": No changes")
         | Some changedVersion =>
             versions <- getAllVersions rt env stage ;;
             let changedVersions :=
               changedVersionsOf (Action.versions changedVersion) versions in
             if (List.length changedVersions =? 0)%nat
             then ret (stage ++ ": No versions changed")
             else ret (join nl (map (versionLine stage) changedVersions))
         end)
      STAGES ;;
  ret ("Dotenv-vault Diff" ++ nl ++ join nl versionOutputs).

(** [process.env[key] ?? core.getInput(name)] *)
Definition envOrInput (rt : Runtime) (key name : string) : string :=
  match process_env rt key with
  | Some v => v
  | None => core_getInput rt name
  end.

(** The predicate of [comments.find]. *)
Definition isOwnComment (c : Comment) : bool :=
  match user_login c with
  | Some login => String.eqb login "github-actions[bot]"
  | None => false
  end
  && match body c with
     | Some b => startsWith "Dotenv-vault Diff" b
     | None => false
     end.

Definition setFailed (message : string) : M unit :=
  call (SetFailed message) (Resolved tt).

(** The body of the [try] of [run]. *)
Definition runBody (rt : Runtime) : M unit :=
  let githubToken := envOrInput rt "GITHUB_TOKEN" "github-token" in
  let dotenvMe := envOrInput rt "DOTENV_ME" "dotenv-me" in
  if isEmpty githubToken then setFailed "GITHUB_TOKEN is not set. Exiting."
  else if isEmpty dotenvMe then setFailed "DOTENV_ME is not set. Exiting."
  else
    let prNumber := process_env rt "PR_NUMBER" in
    let octokit := github_getOctokit rt githubToken in
    repo <- ([], context_repo rt) ;;
    let resolved : M (option PullRequest) :=
      match context_payload_pull_request rt with
      | Some pr => ret (Some pr)
      | None =>
          match prNumber with
          | Some n =>
              pr <- call (PullsGet githubToken repo (parseInt n (Some 10%Z)))
                      (pulls_get octokit repo (parseInt n (Some 10%Z))) ;;
              ret (Some pr)
          | None =>
              _ <- setFailed "Could not determine pull request number. Exiting." ;;
              ret None
          end
      end in
    found <- resolved ;;
    match found with
    | None => ret tt
    | Some currentPR =>
        if isEmpty dotenvMe then setFailed "DOTENV_ME is not set. Exiting."
        else
        let env := setEnv (process_env rt) "DOTENV_ME" dotenvMe in
        commentBody <- generateCommentBody rt env ;;
        comments <- call (ListComments githubToken repo (number currentPR))
                      (issues_listComments octokit repo (number currentPR)) ;;
        match find isOwnComment comments with
        | Some existingComment =>
            call (UpdateComment githubToken repo (id existingComment) commentBody)
              (issues_updateComment octokit repo (id existingComment) commentBody)
        | None =>
            call (CreateComment githubToken repo (context_issue_number rt) commentBody)
              (issues_createComment octokit repo (context_issue_number rt) commentBody)
        end
    end.

(** [error instanceof Error ? error.message : "An error occurred"] *)
Definition errorMessage (error : thrown) : string :=
  match error with
  | ErrorObject message => message
  | OtherValue => "An error occurred"
  end.

(** [run]: the events of one run. *)
Definition run (rt : Runtime) : list Event :=
  fst (tryCatch (runBody rt) (fun error => setFailed (errorMessage error))).

(** The world the comment body is computed in. *)
Definition worldOf (rt : Runtime) (env : Environment) : World :=
  mkWorld (env "GITHUB_BASE_REF") (child_process_exec rt env).

End Run.

(** ** Notions the properties are stated with *)

Module Props.
Import JSString JSNum Action.

(** A version counter as [parseInt] reads it off a digit run: a
    natural number that is a double, or [Infinity] when the run is too
    long for one. *)
Definition isCounter (x : num) : Prop :=
  x = PosInf \/ exists v : Z, x = Fin v /\ (0 <= v <= MAX_VALUE)%Z.

(** [m] is the least, [M] the greatest number of [l]: a number of [l]
    that none of [l] is below, or above. *)
Definition isMin (m : Z) (l : list num) : Prop :=
  In (Fin m) l /\ forall x, In x l -> ltb x (Fin m) = false.

Definition isMax (M : Z) (l : list num) : Prop :=
  In (Fin M) l /\ forall x, In x l -> ltb (Fin M) x = false.

Definition startsWithDigit (s : string) : bool :=
  match s with
  | String c _ => isDigit c
  | EmptyString => false
  end.

(** A version marker in the text: the literal [lit] occurs in [text],
    followed by the digit run [d], which is not empty and ends where the
    digits end. *)
Definition occursWith (lit text d : string) : Prop :=
  exists l r, text = l ++ lit ++ d ++ r /\
              d <> EmptyString /\ allb isDigit d = true /\
              startsWithDigit r = false.

(** None of the first [n] characters of [s] is [c]. *)
Fixpoint freeOf (c : ascii) (n : nat) (s : string) : bool :=
  match n, s with
  | O, _ => true
  | S _, EmptyString => true
  | S k, String a s' => negb (Ascii.eqb a c) && freeOf c k s'
  end.

(** The entry of a stage in the array of [getChangedStageVersions], the
    way [generateCommentBody] looks it up. *)
Definition entryOf (stage : string) (mapping : list StageVersions)
  : option StageVersions :=
  find (fun changedStage => String.eqb (Action.stage changedStage) stage) mapping.

(** The range of a stage in that array, when the extractor returns
    one. *)
Definition rangeOf (diffOutput stage : string) : option (list num) :=
  match changedStageVersions diffOutput with
  | Ok mapping => option_map versions (entryOf stage mapping)
  | Err _ => None
  end.

(** The integers above [lo] up to [hi], in increasing order. *)
Definition between (lo hi : Z) : list Z :=
  map (fun i => (lo + Z.of_nat i + 1)%Z) (seq 0 (Z.to_nat (hi - lo))).

(** The stage has an entry in an array [getChangedStageVersions]
    returns. *)
Definition inMapping (mapping : list StageVersions) (stage : string) : Prop :=
  In stage (map Action.stage mapping).

(** No line feed in [s]. *)
Definition noLF (s : string) : Prop :=
  allb (fun c => negb (Ascii.eqb c LF)) s = true.

(** The number a digit run writes in base ten, after [acc]. *)
Fixpoint decimalFrom (acc : Z) (d : string) : Z :=
  match d with
  | EmptyString => acc
  | String c d' => decimalFrom (10 * acc + Z.of_nat (code c - 48)) d'
  end.

Definition decimal (d : string) : Z := decimalFrom 0 d.

(** The lines of the fragment of a stage. *)
Definition stageLines (w : World) (mapping : list StageVersions) (s : string)
  : list string :=
  match entryOf s mapping with
  | None => [s ++ ": No changes"]
  | Some cv =>
      match changedVersionsOf (versions cv) (getAllVersions w s) with
      | [] => [s ++ ": No versions changed"]
      | rs => map (versionLine s) rs
      end
  end.

Definition startsWithSpace (s : string) : bool :=
  match s with
  | String c _ => isSpace c
  | EmptyString => false
  end.

(** Every white-space character of [s] is followed by a character that
    is not one. *)
Fixpoint spacesApart (s : string) : bool :=
  match s with
  | EmptyString => true
  | String c s' =>
      (if isSpace c then negb (isEmpty s') && negb (startsWithSpace s') else true)
      && spacesApart s'
  end.

(** The last character of [s] is there and is no white space. *)
Fixpoint lastNonSpace (s : string) : bool :=
  match s with
  | EmptyString => false
  | String c EmptyString => negb (isSpace c)
  | String _ s' => lastNonSpace s'
  end.

(** The text of a listing: two header lines, the rows, each line
    ended by a line feed. *)
Definition listingText (h1 h2 : string) (rows : list string) : string :=
  h1 ++ nl ++ h2 ++ nl ++ join nl rows ++ nl.

(** A column of a listing: some text that neither starts nor ends with
    white space and has no two white-space characters in a row. *)
Definition isColumn (s : string) : bool :=
  negb (isEmpty s) && negb (startsWithSpace s) && spacesApart s.

(** What stands between two columns: two white-space characters or
    more. *)
Definition isSeparator (s : string) : bool :=
  allb isSpace s && (2 <=? String.length s)%nat.

(** A row: a first column, then separators and columns in turn. *)
Fixpoint rowOf (first : string) (rest : list (string * string)) : string :=
  match rest with
  | [] => first
  | (sep, col) :: t => first ++ sep ++ rowOf col t
  end.

(** A row of the listing of the tool: the version after a [v], some
    columns, then the user and the time in one column. *)
Record Row : Type := mkRow {
  row_version : string;
  row_columns : list (string * string);
  row_separator : string;
  row_user : string;
  row_time : string
}.

Definition rowUserTime (r : Row) : string :=
  row_user r ++ " " ++ row_time r.

Definition rowText (r : Row) : string :=
  rowOf (String "v" (row_version r))
    (List.app (row_columns r) [(row_separator r, rowUserTime r)]).

Definition rowRecord (r : Row) : VaultEnvVersion :=
  mkVersion (Some (row_version r))
    (List.hd "N/A" (map snd (row_columns r)))
    (Some (row_user r)) (row_time r).

Definition noLFb (s : string) : bool :=
  allb (fun c => negb (Ascii.eqb c LF)) s.

Definition wellFormedRow (r : Row) : bool :=
  negb (isEmpty (row_version r))
  && isColumn (String "v" (row_version r))
  && forallb (fun sc => isSeparator (fst sc) && isColumn (snd sc)) (row_columns r)
  && isSeparator (row_separator r)
  && isColumn (rowUserTime r)
  && allb (fun c => negb (Ascii.eqb c " ")) (row_user r)
  && noLFb (rowText r).

(** The calls of [run] that only read, and those that write a
    comment. *)
Definition isRead (ev : Run.Event) : bool :=
  match ev with
  | Run.Exec _ | Run.PullsGet _ _ _ | Run.ListComments _ _ _ => true
  | _ => false
  end.

Definition isWrite (ev : Run.Event) : bool :=
  match ev with
  | Run.UpdateComment _ _ _ _ | Run.CreateComment _ _ _ _ => true
  | _ => false
  end.

Definition isCreate (ev : Run.Event) : bool :=
  match ev with
  | Run.CreateComment _ _ _ _ => true
  | _ => false
  end.

Definition isPullsGet (ev : Run.Event) : bool :=
  match ev with
  | Run.PullsGet _ _ _ => true
  | _ => false
  end.

(** The body a write carries. *)
Definition writtenBody (ev : Run.Event) : option string :=
  match ev with
  | Run.UpdateComment _ _ _ b | Run.CreateComment _ _ _ b => Some b
  | _ => None
  end.

(** The secrets [run] works with, and the environment its commands
    see. *)
Definition tokenOf (rt : Run.Runtime) : string :=
  Run.envOrInput rt "GITHUB_TOKEN" "github-token".

Definition dotenvMeOf (rt : Run.Runtime) : string :=
  Run.envOrInput rt "DOTENV_ME" "dotenv-me".

Definition commandEnv (rt : Run.Runtime) : Run.Environment :=
  Run.setEnv (Run.process_env rt) "DOTENV_ME" (dotenvMeOf rt).

Definition commandWorld (rt : Run.Runtime) : World :=
  Run.worldOf rt (commandEnv rt).

(** What [run] reports when a write settles. *)
Definition settled (o : Run.outcome unit) : list Run.Event :=
  match o with
  | Run.Resolved _ => []
  | Run.Rejected e => [Run.SetFailed (Run.errorMessage e)]
  end.

(** The commands of a run whose diff is [diff]: [git diff], then the
    listing of each flagged stage. *)
Definition commandEvents (w : World) (diff : string) : list Run.Event :=
  Run.Exec (gitDiffCommand w)
  :: map (fun s => Run.Exec (versionsCommand s)) (changedStages diff).

(** The write of a run: the first comment of the action is updated, or
    else a comment is created. *)
Definition writeEvents (rt : Run.Runtime) (r : Run.Repo)
  (comments : list Run.Comment) (b : string) : list Run.Event :=
  let octokit := Run.github_getOctokit rt (tokenOf rt) in
  match find Run.isOwnComment comments with
  | Some c =>
      Run.UpdateComment (tokenOf rt) r (Run.id c) b
      :: settled (Run.issues_updateComment octokit r (Run.id c) b)
  | None =>
      Run.CreateComment (tokenOf rt) r (Run.context_issue_number rt) b
      :: settled (Run.issues_createComment octokit r (Run.context_issue_number rt) b)
  end.

(** The events of a run from the moment the pull request is known. *)
Definition eventsFor (rt : Run.Runtime) (r : Run.Repo) (pr : Run.PullRequest)
  : list Run.Event :=
  let w := commandWorld rt in
  let octokit := Run.github_getOctokit rt (tokenOf rt) in
  match execAsync w (gitDiffCommand w) with
  | Err e => [Run.Exec (gitDiffCommand w); Run.SetFailed e]
  | Ok diff =>
      match changedStageVersions diff with
      | Err e => [Run.Exec (gitDiffCommand w); Run.SetFailed e]
      | Ok mapping =>
          (commandEvents w diff
           ++ Run.ListComments (tokenOf rt) r (Run.number pr)
              :: match Run.issues_listComments octokit r (Run.number pr) with
                 | Run.Rejected e => [Run.SetFailed (Run.errorMessage e)]
                 | Run.Resolved comments =>
                     writeEvents rt r comments (commentBody w mapping)
                 end)%list
      end
  end.

(** How the events of a run end: with the report of a failure, with
    the write of the comment, or with a write that is rejected and
    reported. *)
Definition runEnding (tail : list Run.Event) : Prop :=
  (exists m, tail = [Run.SetFailed m]) \/
  (exists w, isWrite w = true /\
             (tail = [w] \/ exists m, tail = [w; Run.SetFailed m])).

Definition isListComments (ev : Run.Event) : bool :=
  match ev with
  | Run.ListComments _ _ _ => true
  | _ => false
  end.

(** [l1] is [l2] with some elements left out, the others in place. *)
Inductive Subsequence {A : Type} : list A -> list A -> Prop :=
| sub_nil : Subsequence [] []
| sub_skip : forall x l1 l2, Subsequence l1 l2 -> Subsequence l1 (x :: l2)
| sub_keep : forall x l1 l2, Subsequence l1 l2 -> Subsequence (x :: l1) (x :: l2).

(** The record's version is one of [range]: the test of the filter
    of [generateCommentBody]. *)
Definition inRange (range : list num) (r : VaultEnvVersion) : Prop :=
  Array_includes range (parseInt (toStr (version r)) (Some 10%Z)) = true.

(** Two settled listings show the same text: the reason of a rejection
    is not part of it. *)
Definition sameListing (r1 r2 : result string) : Prop :=
  match r1, r2 with
  | Ok a, Ok b => a = b
  | Err _, Err _ => True
  | _, _ => False
  end.

End Props.

(** ** Sample inputs *)

Module Samples.
Import JSString JSNum Action.

Definition lines (l : list string) : string := join nl l ++ nl.

(** STAGING goes from version 3 to version 6. *)
Definition diff_3_6 : string :=
  lines [ "--- a/.env.vault";
          "+++ b/.env.vault";
          "@@ -20,4 +20,4 @@";
          " # staging";
          "-DOTENV_VAULT_STAGING_VERSION=3";
          "+DOTENV_VAULT_STAGING_VERSION=6" ].

(** Two added version lines for STAGING, 5 and 8, one removed, 3. *)
Definition diff_3_5_8 : string :=
  lines [ "-DOTENV_VAULT_STAGING_VERSION=3";
          "+DOTENV_VAULT_STAGING_VERSION=5";
          " # staging";
          "+DOTENV_VAULT_STAGING_VERSION=8" ].

(** STAGING goes from version 0 to version 4294967296. *)
Definition diff_0_4294967296 : string :=
  lines [ "-DOTENV_VAULT_STAGING_VERSION=0";
          "+DOTENV_VAULT_STAGING_VERSION=4294967296" ].

(** STAGING gets a version past [2 ^ 53]. *)
Definition diff_rounded : string :=
  lines [ "-DOTENV_VAULT_STAGING_VERSION=3";
          "+DOTENV_VAULT_STAGING_VERSION=9007199254740993" ].

(** CI gets a version line and loses none. *)
Definition diff_add_only : string :=
  lines [ "+DOTENV_VAULT_CI_VERSION=5" ].

(** Listings: two header lines, then the rows. *)
Definition header1 : string := " Ver  Change  By  When".
Definition header2 : string := " ---  ------  --  ----".

Definition listing_of (h1 h2 row : string) : string :=
  h1 ++ nl ++ h2 ++ nl ++ row.

Definition row_fields_first : string :=
  "field-a  field-b   v7  alice 2024-01-01 10:00".

Definition row_version_first : string :=
  "v7  field-a  alice 2024-01-01 10:00".

Definition listing_fields_first : string :=
  listing_of header1 header2 row_fields_first.

(** Rows with a version that is an integer, a word, zero, nothing
    after the [v], and a row of one column. *)
Definition listing_mixed : string :=
  lines [ header1; header2;
          "v7  field-a  alice 2024-01-01 10:00";
          "beta  field-b  bob 2024-01-02 11:00";
          "v0  field-c  carol 2024-01-03 12:00";
          "v  field-d  dave 2024-01-04 13:00";
          "one-column" ].

(** Six versions, listed in no particular order. *)
Definition listing_1_to_6 : string :=
  lines [ header1; header2;
          "v2  B  bob 2024-01-02 10:00";
          "v6  F  alice 2024-01-06 10:00";
          "v4  D  alice 2024-01-04 10:00";
          "v1  A  bob 2024-01-01 10:00";
          "v5  E  carol 2024-01-05 10:00";
          "v3  C  carol 2024-01-03 10:00" ].

(** A double quote. *)
Definition dq : string := String "034"%char EmptyString.

(** Only the encrypted value of CI changes. *)
Definition diff_blob_only : string :=
  lines [ "-DOTENV_VAULT_CI=" ++ dq ++ "kR3w0ldbl0b" ++ dq;
          "+DOTENV_VAULT_CI=" ++ dq ++ "n3wbl0bQx7" ++ dq ].

(** Only the line of the encrypted value of CI goes. *)
Definition diff_blob_removed : string :=
  lines [ "-DOTENV_VAULT_CI=" ++ dq ++ "kR3w0ldbl0b" ++ dq ].

(** A world: what [git diff] prints and what the listing of each stage
    is; any other command is unknown. *)
Definition world (base : option string) (diff : result string)
  (listing : string -> result string) : World :=
  mkWorld base
    (fun cmd =>
       if startsWith "git diff " cmd then diff
       else if startsWith "npx dotenv-vault versions " cmd
            then listing (drop 26 cmd)
            else Err "command not found").

(** The mapping the extractor returns for [diff_3_6]. *)
Definition mapping_3_6 : list StageVersions :=
  [mkStageVersions "STAGING" [Fin 4; Fin 5; Fin 6]].

Definition world_3_6 : World :=
  world (Some "main") (Ok diff_3_6) (fun _ => Ok listing_1_to_6).

(** Two runs that see the same diff and the same listings, and differ
    in the base branch and in why the listing of DEVELOPMENT fails. *)
Definition run_a : World :=
  world (Some "main") (Ok diff_3_6)
    (fun stage => if String.eqb stage "DEVELOPMENT" then Err "exit code 1"
                  else Ok listing_1_to_6).

Definition run_b : World :=
  world (Some "dev") (Ok diff_3_6)
    (fun stage => if String.eqb stage "DEVELOPMENT" then Err "ETIMEDOUT"
                  else if String.eqb stage "QA" then Ok "no such stage"
                  else Ok listing_1_to_6).

(** CI changed by its value only, and its listing is there. *)
Definition world_blob_only : World :=
  world (Some "main") (Ok diff_blob_only) (fun _ => Ok listing_1_to_6).

(** DEVELOPMENT is in the mapping and its listing fails. *)
Definition world_dev_fails : World :=
  world (Some "main")
    (Ok (lines [ "-DOTENV_VAULT_DEVELOPMENT_VERSION=3";
                 "+DOTENV_VAULT_DEVELOPMENT_VERSION=6" ]))
    (fun stage => if String.eqb stage "DEVELOPMENT" then Err "exit code 1"
                  else Ok listing_1_to_6).

(** A diff that touches another key of the file only. *)
Definition diff_other_key : string :=
  lines [ "--- a/.env.vault";
          "+++ b/.env.vault";
          "-# DOTENV_VAULT_CI (old note)";
          "+# DOTENV_VAULT_CI (new note)" ].

Definition world_other_key : World :=
  world None (Ok diff_other_key) (fun _ => Err "not asked").

(** Two rows the way the tool prints them. *)
Definition row_7 : Props.Row :=
  Props.mkRow "7" [("   ", "field-a, field-b")] "  " "alice" "2024-01-01 10:00".

Definition row_6 : Props.Row :=
  Props.mkRow "6" [] "        " "bob" "3 days ago".

(** A run outside of a pull request event, as the README runs it: the
    secrets and the number of the pull request come from the
    environment. *)
Definition local_env : Run.Environment :=
  fun key =>
    if String.eqb key "GITHUB_TOKEN" then Some "ghp_x"
    else if String.eqb key "DOTENV_ME" then Some "me_x"
    else if String.eqb key "PR_NUMBER" then Some "13"
    else if String.eqb key "GITHUB_BASE_REF" then Some "dev"
    else None.

Definition farmers : Run.Repo := Run.mkRepo "High-Country-Dev" "farmers".

Definition pr_13 : Run.PullRequest :=
  Run.mkPullRequest (Fin 13) "Rotate staging secrets" "dev" "rotate-staging".

(** A client that knows pull request 13 and lists [comments] for every
    issue; its writes resolve. *)
Definition octokit_with (comments : list Run.Comment) : Run.Octokit :=
  Run.mkOctokit
    (fun _ n => if sameValueZero n (Fin 13) then Run.Resolved pr_13
                else Run.Rejected (Run.ErrorObject "Not Found"))
    (fun _ _ => Run.Resolved comments)
    (fun _ _ _ => Run.Resolved tt)
    (fun _ _ _ => Run.Resolved tt).

(** The runtime of such a run: every listing is [listing_1_to_6]; the
    issue of the event context is the pull request of the event, when
    there is one. *)
Definition runtime_with (env : Run.Environment) (payload : option Run.PullRequest)
  (comments : list Run.Comment) (diff : result string) : Run.Runtime :=
  Run.mkRuntime env (fun _ => EmptyString) (Run.Resolved farmers) payload
    (option_map Run.number payload)
    (fun _ => octokit_with comments)
    (fun _ cmd =>
       if startsWith "git diff " cmd then diff
       else if startsWith "npx dotenv-vault versions " cmd then Ok listing_1_to_6
       else Err "command not found").

Definition body_3_6 : string :=
  join nl [ "Dotenv-vault Diff"; "CI: No changes"; "DEVELOPMENT: No changes";
            "STAGING (6): `F`"; "STAGING (4): `D`"; "STAGING (5): `E`";
            "PRODUCTION: No changes" ].

Definition someone_else : Run.Comment :=
  Run.mkComment (Fin 900) (Some "octocat") (Some "Dotenv-vault Diff looks fine").

Definition own_comment : Run.Comment :=
  Run.mkComment (Fin 901) (Some "github-actions[bot]") (Some body_3_6).

Definition first_run : Run.Runtime :=
  runtime_with local_env None [someone_else] (Ok diff_3_6).

Definition second_run : Run.Runtime :=
  runtime_with local_env None [someone_else; own_comment] (Ok diff_3_6).

Definition event_run : Run.Runtime :=
  runtime_with local_env (Some pr_13) [] (Ok diff_3_6).

(** The run of an event whose pull request has the comment of an
    earlier run. *)
Definition event_update_run : Run.Runtime :=
  runtime_with local_env (Some pr_13) [someone_else; own_comment] (Ok diff_3_6).

(** The run of an event whose diff takes STAGING from version 0 to
    version 4294967296. *)
Definition huge_range_run : Run.Runtime :=
  runtime_with local_env (Some pr_13) [] (Ok diff_0_4294967296).

Definition no_pr_run : Run.Runtime :=
  runtime_with
    (fun key => if String.eqb key "PR_NUMBER" then None else local_env key)
    None [] (Ok diff_3_6).

Definition no_diff_run : Run.Runtime :=
  runtime_with local_env (Some pr_13) [own_comment] (Err "fatal: bad revision").

(** The token variable is set to nothing, the input of the action is
    given. *)
Definition shadowed_token_run : Run.Runtime :=
  Run.mkRuntime
    (fun key => if String.eqb key "GITHUB_TOKEN" then Some EmptyString
                else local_env key)
    (fun name => if String.eqb name "github-token" then "ghp_input" else EmptyString)
    (Run.Resolved farmers) (Some pr_13) (Some (Fin 13))
    (fun _ => octokit_with [])
    (fun _ _ => Ok EmptyString).

(** CI loses its version line and gets none. *)
Definition diff_remove_only : string :=
  lines [ "-DOTENV_VAULT_CI_VERSION=3" ].

(** The encrypted value of CI changed, and the pipeline of [src/main.ts]
    prints the first two columns of the third line of the listing. *)
Definition world_latest_7 : World :=
  mkWorld (Some "main")
    (fun cmd => if startsWith "git diff " cmd then Ok diff_blob_only
                else Ok "   v7 field-a").

(** STAGING changed, and the tool prints nothing but a line feed. *)
Definition world_blank_latest : World :=
  mkWorld (Some "main")
    (fun cmd => if startsWith "git diff " cmd then Ok diff_3_6 else Ok nl).

End Samples.

Import JSString JSNum Action Props Samples.

(** ** Strings *)

Section StringFacts.

Lemma startsWith_app (a b s : string) :
  startsWith (a ++ b) s = true -> startsWith a s = true.
Proof.
  revert s; induction a as [|c a IH]; intros s H; [reflexivity|].
  destruct s as [|d s]; simpl in *; [discriminate|].
  apply andb_true_iff in H as [Hc Hs].
  rewrite Hc; simpl; auto.
Qed.

Lemma includes_app (a b s : string) :
  includes (a ++ b) s = true -> includes a s = true.
Proof.
  induction s as [|d s IH]; simpl; intros H.
  - rewrite orb_false_r in *. now apply startsWith_app with b.
  - apply orb_true_iff in H as [H|H].
    + apply startsWith_app in H. now rewrite H.
    + rewrite (IH H). apply orb_true_r.
Qed.

Lemma startsWith_append_l (a b : string) : startsWith a (a ++ b) = true.
Proof.
  induction a as [|c a IH]; simpl; [reflexivity|].
  now rewrite Ascii.eqb_refl, IH.
Qed.

Lemma startsWith_spec (p s : string) :
  startsWith p s = true <-> exists r, s = p ++ r.
Proof.
  revert s; induction p as [|c p IH]; intros s; simpl.
  - split; [intros _; now exists s | reflexivity].
  - destruct s as [|d s].
    + split; [discriminate | intros [r Hr]; discriminate].
    + rewrite andb_true_iff, IH, Ascii.eqb_eq. split.
      * intros [-> [r ->]]. now exists r.
      * intros [r Hr]. injection Hr as -> ->. split; [reflexivity | now exists r].
Qed.

Lemma includes_spec (sub s : string) :
  includes sub s = true <-> exists l r, s = l ++ sub ++ r.
Proof.
  induction s as [|d s IH]; simpl.
  - rewrite orb_false_r, startsWith_spec. split.
    + intros [r Hr]. now exists EmptyString, r.
    + intros [l [r Hr]]. destruct l; simpl in Hr; [now exists r | discriminate].
  - rewrite orb_true_iff, startsWith_spec, IH. split.
    + intros [[r Hr] | [l [r Hr]]].
      * now exists EmptyString, r.
      * exists (String d l), r. simpl. now rewrite Hr.
    + intros [l [r Hr]]. destruct l as [|c l]; simpl in Hr.
      * left. now exists r.
      * right. injection Hr as _ Hr. now exists l, r.
Qed.

Lemma takeWhile_allb (p : ascii -> bool) (s : string) :
  allb p (takeWhile p s) = true.
Proof.
  induction s as [|c s IH]; simpl; [reflexivity|].
  destruct (p c) eqn:E; simpl; [now rewrite E | reflexivity].
Qed.

Lemma isEmpty_false (s : string) : isEmpty s = false <-> s <> EmptyString.
Proof. destruct s; simpl; split; congruence. Qed.

Lemma matchAt_Some (lit s d : string) :
  matchAt lit s = Some d ->
  startsWith lit s = true /\ d <> EmptyString /\ allb isDigit d = true.
Proof.
  unfold matchAt. destruct (startsWith lit s); [|discriminate].
  destruct (isEmpty _) eqn:E; [discriminate|].
  intros [= <-]. repeat split.
  - now apply isEmpty_false.
  - apply takeWhile_allb.
Qed.

(** Every capture of the marker scan is a digit run that is not empty. *)
Lemma execAllFrom_digits (lit s : string) (k : nat) :
  Forall (fun d => d <> EmptyString /\ allb isDigit d = true)
    (execAllFrom lit s k).
Proof.
  revert k; induction s as [|c s IH]; intros k; simpl; [constructor|].
  destruct k; [|apply IH].
  destruct (matchAt lit (String c s)) eqn:E; [|apply IH].
  constructor; [|apply IH].
  now apply matchAt_Some in E.
Qed.

(** A capture means the literal occurs. *)
Lemma execAllFrom_includes (lit s : string) (k : nat) :
  execAllFrom lit s k <> [] -> includes lit s = true.
Proof.
  revert k; induction s as [|c s IH]; intros k; simpl; [congruence|].
  destruct k.
  - destruct (matchAt lit (String c s)) eqn:E.
    + intros _. apply matchAt_Some in E as [E _]. simpl in E. now rewrite E.
    + intros H. rewrite (IH _ H). apply orb_true_r.
  - intros H. rewrite (IH _ H). apply orb_true_r.
Qed.

(** *** The marker scan finds the markers of the text, all of them *)

Lemma takeWhile_dropWhile (p : ascii -> bool) (s : string) :
  s = takeWhile p s ++ dropWhile p s.
Proof.
  induction s as [|c s IH]; simpl; [reflexivity|].
  destruct (p c); simpl; [now rewrite <- IH | reflexivity].
Qed.

Lemma dropWhile_digit_head (s : string) :
  startsWithDigit (dropWhile isDigit s) = false.
Proof.
  induction s as [|c s IH]; simpl; [reflexivity|].
  destruct (isDigit c) eqn:E; [exact IH | simpl; exact E].
Qed.

Lemma takeWhile_digits_app (d r : string) :
  allb isDigit d = true -> startsWithDigit r = false ->
  takeWhile isDigit (d ++ r) = d.
Proof.
  intros Hd Hr. induction d as [|c d IH]; simpl in *.
  - destruct r as [|c r]; simpl in *; [reflexivity | now rewrite Hr].
  - apply andb_true_iff in Hd as [Hc Hd]. now rewrite Hc, IH.
Qed.

Lemma drop_length_app (a b : string) : drop (String.length a) (a ++ b) = b.
Proof. induction a as [|c a IH]; simpl; [now destruct b | exact IH]. Qed.

Lemma matchAt_occurs (lit s d : string) :
  matchAt lit s = Some d ->
  exists r, s = lit ++ d ++ r /\ startsWithDigit r = false.
Proof.
  unfold matchAt. destruct (startsWith lit s) eqn:E; [|discriminate].
  apply startsWith_spec in E as [rest ->]. rewrite drop_length_app.
  destruct (isEmpty _); [discriminate|]. intros [= <-].
  exists (dropWhile isDigit rest). split.
  - f_equal. apply takeWhile_dropWhile.
  - apply dropWhile_digit_head.
Qed.

Lemma matchAt_here (lit d r : string) :
  d <> EmptyString -> allb isDigit d = true -> startsWithDigit r = false ->
  matchAt lit (lit ++ d ++ r) = Some d.
Proof.
  intros Hne Hd Hr. unfold matchAt.
  rewrite startsWith_append_l, drop_length_app, takeWhile_digits_app by assumption.
  destruct d; [congruence | reflexivity].
Qed.

Lemma execAllFrom_O (lit : string) (c : ascii) (s : string) :
  execAllFrom lit (String c s) 0
  = match matchAt lit (String c s) with
    | Some d => d :: execAllFrom lit s (String.length lit + String.length d - 1)
    | None => execAllFrom lit s 0
    end.
Proof. reflexivity. Qed.

Lemma execAllFrom_S (lit : string) (c : ascii) (s : string) (k : nat) :
  execAllFrom lit (String c s) (S k) = execAllFrom lit s k.
Proof. reflexivity. Qed.

(** Every capture is the digit run of a marker of the text. *)
Lemma execAllFrom_sound (lit s d : string) (k : nat) :
  In d (execAllFrom lit s k) -> occursWith lit s d.
Proof.
  revert k; induction s as [|c s IH]; intros k; simpl; [intros []|].
  assert (Hrec : forall k', In d (execAllFrom lit s k') ->
                            occursWith lit (String c s) d).
  { intros k' H. destruct (IH _ H) as [l [r [-> Hd]]].
    exists (String c l), r. split; [reflexivity | exact Hd]. }
  destruct k; [|apply Hrec].
  destruct (matchAt lit (String c s)) as [d'|] eqn:E; [|apply Hrec].
  intros [<-|H]; [|now apply Hrec with (1 := H)].
  destruct (matchAt_Some _ _ _ E) as [_ [Hne Hd]].
  destruct (matchAt_occurs _ _ _ E) as [r [-> Hr]].
  exists EmptyString, r. auto.
Qed.

Lemma freeOf_app (c : ascii) (a b : string) (n : nat) :
  allb (fun x => negb (Ascii.eqb x c)) a = true ->
  freeOf c (String.length a + n) (a ++ b) = freeOf c n b.
Proof.
  induction a as [|x a IH]; simpl; [reflexivity|]. intros H.
  apply andb_true_iff in H as [Hx Ha]. now rewrite Hx, IH.
Qed.

Lemma digits_free (c : ascii) (d : string) :
  isDigit c = false -> allb isDigit d = true ->
  allb (fun x => negb (Ascii.eqb x c)) d = true.
Proof.
  intros Hc. induction d as [|x d IH]; simpl; [reflexivity|]. intros H.
  apply andb_true_iff in H as [Hx Hd]. rewrite (IH Hd), andb_true_r.
  apply negb_true_iff, Ascii.eqb_neq. intros ->. congruence.
Qed.

(** Every marker of the text is captured, when the literal opens with
    a character that is no digit and that it does not hold again. *)
Lemma execAllFrom_complete (c0 : ascii) (t l d r : string) (k : nat) :
  isDigit c0 = false ->
  allb (fun x => negb (Ascii.eqb x c0)) t = true ->
  d <> EmptyString -> allb isDigit d = true -> startsWithDigit r = false ->
  freeOf c0 k (l ++ String c0 t ++ d ++ r) = true ->
  In d (execAllFrom (String c0 t) (l ++ String c0 t ++ d ++ r) k).
Proof.
  intros Hc0 Ht Hne Hd Hr. revert k. induction l as [|c l IH]; intros k Hk.
  - change (EmptyString ++ String c0 t ++ d ++ r) with (String c0 (t ++ d ++ r)) in *.
    destruct k as [|k].
    + rewrite execAllFrom_O.
      change (String c0 (t ++ d ++ r)) with (String c0 t ++ d ++ r).
      rewrite matchAt_here by assumption. now left.
    + simpl in Hk. now rewrite Ascii.eqb_refl in Hk.
  - change (String c l ++ String c0 t ++ d ++ r)
      with (String c (l ++ String c0 t ++ d ++ r)) in *.
    destruct k as [|k].
    + rewrite execAllFrom_O. destruct (matchAt _ _) as [d'|] eqn:E.
      * right. apply IH.
        destruct (matchAt_Some _ _ _ E) as [_ [_ Hd']].
        destruct (matchAt_occurs _ _ _ E) as [r' [Er' _]].
        assert (Er'' : l ++ String c0 t ++ d ++ r = t ++ d' ++ r')
          by (injection Er' as _ Er'; exact Er').
        rewrite Er''.
        replace (String.length (String c0 t) + String.length d' - 1)%nat
          with (String.length t + (String.length d' + 0))%nat by (simpl; lia).
        rewrite freeOf_app by assumption.
        rewrite freeOf_app by (now apply digits_free). reflexivity.
      * apply IH. reflexivity.
    + rewrite execAllFrom_S. apply IH.
      cbn [freeOf] in Hk. now apply andb_true_iff in Hk as [_ Hk].
Qed.

End StringFacts.

(** ** Numbers *)

Section NumberFacts.

Ltac reflect_bool :=
  repeat match goal with
    | H : andb _ _ = true |- _ => apply andb_true_iff in H as [? ?]
    | H : orb _ _ = false |- _ => apply orb_false_iff in H as [? ?]
    | H : (_ <=? _)%nat = true |- _ => apply Nat.leb_le in H
    | H : (_ <=? _)%nat = false |- _ => apply Nat.leb_gt in H
    | H : (_ =? _)%nat = true |- _ => apply Nat.eqb_eq in H
    | H : (_ =? _)%nat = false |- _ => apply Nat.eqb_neq in H
    end.

Lemma digit_code (c : ascii) :
  isDigit c = true -> (48 <= code c <= 57)%nat.
Proof. unfold isDigit. intros H. reflect_bool. lia. Qed.

Lemma digit_not_space (c : ascii) : isDigit c = true -> isSpace c = false.
Proof.
  intros H%digit_code. unfold isSpace.
  destruct (9 <=? code c)%nat eqn:E1, (code c <=? 13)%nat eqn:E2,
    (code c =? 32)%nat eqn:E3, (code c =? 160)%nat eqn:E4;
    reflect_bool; simpl; try reflexivity; lia.
Qed.

Lemma digit_not_char (c d : ascii) :
  isDigit c = true -> (code d < 48 \/ 57 < code d)%nat -> Ascii.eqb c d = false.
Proof.
  intros H%digit_code Hd. apply Ascii.eqb_neq. intros ->. lia.
Qed.

Lemma char_not_digit (c d : ascii) :
  isDigit c = true -> (code d < 48 \/ 57 < code d)%nat -> Ascii.eqb d c = false.
Proof.
  intros H%digit_code Hd. apply Ascii.eqb_neq. intros ->. lia.
Qed.

Lemma digit_value (c : ascii) :
  isDigit c = true ->
  exists d, digitValue c = Some d /\ (0 <= d < 10)%Z.
Proof.
  intros H. unfold digitValue. fold (isDigit c). rewrite H.
  apply digit_code in H. eexists; split; [reflexivity|]. lia.
Qed.

Local Open Scope Z_scope.

(** The significand and the unit of an integer of 54 bits or more. *)
Lemma round_parts (a : Z) :
  2 ^ 53 <= a ->
  let ulp := 2 ^ (Z.log2 a - 52) in
  let q := a / ulp in
  let r := a mod ulp in
  0 < ulp /\ a = q * ulp + r /\ 0 <= r < ulp /\ 2 ^ 52 <= q < 2 ^ 53 /\
  2 ^ Z.log2 a = 2 ^ 52 * ulp /\ 53 <= Z.log2 a.
Proof.
  intros Ha. cbv zeta.
  assert (Hpos : 0 < a) by (assert (0 < 2 ^ 53) by (apply Z.pow_pos_nonneg; lia); lia).
  assert (He : 53 <= Z.log2 a).
  { apply Z.log2_le_pow2; [exact Hpos | exact Ha]. }
  destruct (Z.log2_spec a Hpos) as [Hlo Hhi].
  set (e := Z.log2 a) in *.
  set (ulp := 2 ^ (e - 52)).
  assert (Hulp : 0 < ulp) by (apply Z.pow_pos_nonneg; lia).
  assert (Hpow : 2 ^ e = 2 ^ 52 * ulp).
  { unfold ulp. rewrite <- Z.pow_add_r by lia. f_equal. lia. }
  assert (Hpow' : 2 ^ Z.succ e = 2 ^ 53 * ulp).
  { unfold ulp. rewrite <- Z.pow_add_r by lia. f_equal. lia. }
  pose proof (Z.div_mod a ulp ltac:(lia)) as Hdm.
  pose proof (Z.mod_pos_bound a ulp Hulp) as Hr.
  split; [exact Hulp|]. split; [lia|]. split; [exact Hr|].
  split; [|split; [exact Hpow | exact He]].
  split.
  - apply Z.div_le_lower_bound; [exact Hulp | lia].
  - apply Z.div_lt_upper_bound; [exact Hulp | lia].
Qed.

Lemma pow2_1024 : 2 ^ 1024 = 2 ^ 54 * 2 ^ 970.
Proof. rewrite <- Z.pow_add_r by lia. reflexivity. Qed.

Lemma pow2_971 : 2 ^ 971 = 2 * 2 ^ 970.
Proof. change 971 with (1 + 970). now rewrite Z.pow_add_r by lia. Qed.

Lemma pow2_970_pos : 0 < 2 ^ 970.
Proof. apply Z.pow_pos_nonneg; lia. Qed.

(** The rounded significand times the unit, for an integer of 54 bits
    or more: at least [2 ^ 53]; a double when below [2 ^ 1024], which
    it is as long as the integer is below [2 ^ 1024 - 2 ^ 970]. *)
Lemma round_large (a : Z) :
  2 ^ 53 <= a ->
  let ulp := 2 ^ (Z.log2 a - 52) in
  let q := a / ulp in
  let r := a mod ulp in
  let q' := if 2 * r <? ulp then q
            else if ulp <? 2 * r then q + 1
            else if Z.even q then q else q + 1 in
  let m := q' * ulp in
  2 ^ 53 <= m /\
  (m < 2 ^ 1024 -> m <= MAX_VALUE) /\
  (a < 2 ^ 1024 - 2 ^ 970 -> m < 2 ^ 1024).
Proof.
  intros Ha. pose proof (round_parts a Ha) as H. cbv zeta in *.
  set (e := Z.log2 a) in *.
  set (ulp := 2 ^ (e - 52)) in *.
  set (q := a / ulp) in *. set (r := a mod ulp) in *.
  destruct H as [Hulp [Hdm [Hr [Hq [Hpow He]]]]].
  set (q' := if 2 * r <? ulp then q
             else if ulp <? 2 * r then q + 1
             else if Z.even q then q else q + 1).
  assert (Hq' : q <= q' <= q + 1 /\ (q' = q + 1 -> ulp <= 2 * r)).
  { subst q'. destruct (2 * r <? ulp) eqn:E1; [lia|].
    apply Z.ltb_ge in E1.
    destruct (ulp <? 2 * r); [lia|]. destruct (Z.even q); lia. }
  clearbody q'. destruct Hq' as [Hq' Hup].
  assert (H252 : 2 ^ 53 = 2 * 2 ^ 52) by reflexivity.
  assert (H52 : 0 < 2 ^ 52) by reflexivity.
  assert (Hm_lo : 2 ^ 52 * ulp <= q' * ulp).
  { apply Z.mul_le_mono_nonneg_r; lia. }
  assert (Hm_hi : q' * ulp <= 2 ^ 53 * ulp).
  { apply Z.mul_le_mono_nonneg_r; lia. }
  assert (He53 : 2 ^ 53 <= 2 ^ e) by (apply Z.pow_le_mono_r; lia).
  pose proof pow2_1024 as P1024. pose proof pow2_971 as P971.
  pose proof pow2_970_pos as P970.
  split; [lia|]. split.
  - intros Hm. unfold MAX_VALUE.
    destruct (Z_le_gt_dec e 1022) as [Hle|Hgt].
    + assert (2 ^ (e + 1) <= 2 ^ 1023) by (apply Z.pow_le_mono_r; lia).
      assert (2 ^ (e + 1) = 2 ^ 53 * ulp).
      { unfold ulp. rewrite <- Z.pow_add_r by lia. f_equal. lia. }
      assert (2 ^ 1023 = 2 ^ 53 * 2 ^ 970)
        by (rewrite <- Z.pow_add_r by lia; reflexivity).
      change (2 ^ 53) with 9007199254740992 in *.
      change (2 ^ 54) with 18014398509481984 in *.
      lia.
    + set (P := 2 ^ (e - 1023)).
      assert (HP : 0 < P) by (apply Z.pow_pos_nonneg; lia).
      assert (Hu : ulp = P * 2 ^ 971).
      { unfold ulp, P. rewrite <- Z.pow_add_r by lia. f_equal. lia. }
      assert (H1024 : 2 ^ 1024 = 2 ^ 53 * 2 ^ 971)
        by (rewrite <- Z.pow_add_r by lia; reflexivity).
      rewrite Hu, Z.mul_assoc in Hm |- *. rewrite H1024 in Hm |- *.
      assert (0 < 2 ^ 971) by lia.
      apply Z.mul_lt_mono_pos_r in Hm; [|assumption].
      replace (2 ^ 53 * 2 ^ 971 - 2 ^ 971) with ((2 ^ 53 - 1) * 2 ^ 971) by lia.
      apply Z.mul_le_mono_nonneg_r; lia.
  - intros Hlt.
    assert (Ha1024 : a < 2 ^ 1024) by lia.
    assert (He' : e < 1024).
    { apply Z.log2_lt_pow2; lia. }
    destruct (Z_le_gt_dec e 1022) as [Hle|Hgt].
    + assert (2 ^ (e + 1) <= 2 ^ 1023) by (apply Z.pow_le_mono_r; lia).
      assert (2 ^ (e + 1) = 2 ^ 53 * ulp).
      { unfold ulp. rewrite <- Z.pow_add_r by lia. f_equal. lia. }
      assert (2 ^ 1023 = 2 ^ 53 * 2 ^ 970)
        by (rewrite <- Z.pow_add_r by lia; reflexivity).
      change (2 ^ 53) with 9007199254740992 in *.
      change (2 ^ 54) with 18014398509481984 in *.
      lia.
    + assert (e = 1023) by lia.
      assert (Hu : ulp = 2 * 2 ^ 970).
      { unfold ulp. replace (e - 52) with 971 by lia. exact P971. }
      destruct (Z.eq_dec q' q) as [->|Hne].
      * assert (q * ulp <= a) by lia. lia.
      * assert (Eq : q' = q + 1) by lia. specialize (Hup Eq).
        rewrite Eq, Hu, P1024 in *.
        change (2 ^ 53) with 9007199254740992 in *.
        change (2 ^ 54) with 18014398509481984 in *.
        set (K := 2 ^ 970) in *. nia.
Qed.

(** An integer below [2 ^ 53] in size is a double. *)
Lemma roundDouble_small (z : Z) : Z.abs z < 2 ^ 53 -> roundDouble z = Fin z.
Proof.
  intros H. unfold roundDouble.
  now replace (Z.abs z <? 2 ^ 53) with true by (symmetry; apply Z.ltb_lt; exact H).
Qed.

(** The double of a natural number: [Infinity], or a natural number
    that is the number itself below [2 ^ 53], and at least [2 ^ 53]
    from there on. *)
Lemma roundDouble_nonneg (z : Z) :
  0 <= z ->
  (roundDouble z = PosInf /\ 2 ^ 1024 - 2 ^ 970 <= z) \/
  exists m, roundDouble z = Fin m /\ 0 <= m <= MAX_VALUE /\
            (z < 2 ^ 53 -> m = z) /\ (2 ^ 53 <= z -> 2 ^ 53 <= m).
Proof.
  intros Hz. destruct (Z_lt_le_dec z (2 ^ 53)) as [Hlt|Hge].
  - right. exists z. rewrite roundDouble_small by lia.
    assert (2 ^ 53 <= MAX_VALUE) by (vm_compute; discriminate).
    repeat split; lia.
  - pose proof (round_large z Hge) as H.
    unfold roundDouble. rewrite (Z.abs_eq z Hz).
    replace (z <? 2 ^ 53) with false by (symmetry; apply Z.ltb_ge; exact Hge).
    cbv zeta in *.
    set (m := _ * 2 ^ (Z.log2 z - 52)) in *. clearbody m.
    destruct H as [H1 [H2 H3]].
    replace (z <? 0) with false by (symmetry; apply Z.ltb_ge; lia).
    assert (Hs : Z.sgn z = 1) by (apply Z.sgn_pos; lia).
    rewrite Hs, Z.mul_1_l.
    destruct (2 ^ 1024 <=? m) eqn:E.
    + left. split; [reflexivity|]. apply Z.leb_le in E.
      destruct (Z_lt_le_dec z (2 ^ 1024 - 2 ^ 970)) as [Hc|Hc]; [|exact Hc].
      specialize (H3 Hc). lia.
    + right. apply Z.leb_gt in E. exists m. specialize (H2 E).
      repeat split; lia.
Qed.

(** The double of what is not positive is not positive. *)
Lemma roundDouble_nonpos (z : Z) :
  z <= 0 -> roundDouble z = NegInf \/ exists m, roundDouble z = Fin m /\ m <= 0.
Proof.
  intros Hz. destruct (Z_lt_le_dec (Z.abs z) (2 ^ 53)) as [Hlt|Hge].
  - right. exists z. now rewrite roundDouble_small.
  - pose proof (round_large (Z.abs z) Hge) as H.
    unfold roundDouble.
    replace (Z.abs z <? 2 ^ 53) with false by (symmetry; apply Z.ltb_ge; exact Hge).
    cbv zeta in *.
    set (m := _ * 2 ^ (Z.log2 (Z.abs z) - 52)) in *. clearbody m.
    destruct H as [H1 _].
    assert (Hneg : z < 0) by lia.
    replace (z <? 0) with true by (symmetry; apply Z.ltb_lt; exact Hneg).
    destruct (2 ^ 1024 <=? m); [now left|]. right.
    exists (Z.sgn z * m). split; [reflexivity|].
    rewrite (Z.sgn_neg z Hneg). lia.
Qed.

Lemma roundDouble_counter (z : Z) : 0 <= z -> isCounter (roundDouble z).
Proof.
  intros Hz. destruct (roundDouble_nonneg z Hz) as [[H _]|[m [H [Hm _]]]];
    rewrite H; [now left | right; now exists m].
Qed.

Local Close Scope Z_scope.

Lemma parseDigits_digits (s : string) (a : Z) :
  allb isDigit s = true -> (0 <= a)%Z ->
  exists v, parseDigits 10 s (Some a) = Some v /\ (0 <= v)%Z.
Proof.
  revert a; induction s as [|c s IH]; intros a Hs Ha; cbn [parseDigits allb] in *.
  - now exists a.
  - apply andb_true_iff in Hs as [Hc Hs].
    destruct (digit_value c Hc) as [d [-> Hd]].
    replace (d <? 10)%Z with true by (symmetry; apply Z.ltb_lt; lia).
    apply IH; [assumption | lia].
Qed.

(** [parseInt] of a digit run that is not empty is the counter it
    writes. *)
Lemma parseInt_digits (s : string) :
  s <> EmptyString -> allb isDigit s = true -> isCounter (parseInt s None).
Proof.
  destruct s as [|c s]; [congruence|]. intros _ H.
  simpl in H. apply andb_true_iff in H as [Hc Hs].
  unfold parseInt, trimStart. simpl dropWhile.
  rewrite (digit_not_space c Hc).
  rewrite !(digit_not_char c) by (assumption || (vm_compute; lia)).
  cbn [andb orb negb Z.eqb Z.ltb Z.compare].
  assert (Hhex : hexPrefix (String c s) = false).
  { unfold hexPrefix.
    destruct s as [|d s]; cbn [startsWith].
    - now rewrite !andb_false_r.
    - simpl in Hs. apply andb_true_iff in Hs as [Hd _].
      rewrite !(char_not_digit d) by (assumption || (vm_compute; lia)).
      now rewrite !andb_false_r. }
  rewrite Hhex. cbn [andb orb negb Z.eqb Z.ltb Z.compare parseDigits].
  destruct (digit_value c Hc) as [d [-> Hd]].
  replace (d <? 10)%Z with true by (symmetry; apply Z.ltb_lt; lia).
  destruct (parseDigits_digits s (10 * 0 + d)%Z Hs ltac:(lia)) as [v [-> Hv]].
  apply roundDouble_counter. lia.
Qed.

Lemma counters_of_captures (lit s : string) :
  Forall isCounter (map (fun m => parseInt m None) (execAll lit s)).
Proof.
  unfold execAll. apply Forall_map.
  eapply Forall_impl; [|apply execAllFrom_digits].
  intros d [Hd Ha]. now apply parseInt_digits.
Qed.

Lemma counter_not_NaN (x : num) : isCounter x -> isNaN x = false.
Proof. intros [->|[v [-> _]]]; reflexivity. Qed.

Lemma ltb_irrefl (x : num) : ltb x x = false.
Proof. destruct x; simpl; try reflexivity. apply Z.ltb_irrefl. Qed.

(** [x >= a] and [a >= r] give [x >= r]. *)
Lemma ltb_false_trans (x a r : num) :
  isNaN a = false -> ltb x a = false -> ltb a r = false -> ltb x r = false.
Proof.
  destruct x, a, r; simpl; try congruence; intros _ H1 H2.
  apply Z.ltb_ge in H1, H2. apply Z.ltb_ge. lia.
Qed.

Lemma min_fold (l : list num) (acc : num) :
  Forall isCounter l -> isNaN acc = false ->
  let r := fold_left
             (fun lowest x =>
                if isNaN lowest || isNaN x then NaN
                else if ltb x lowest then x else lowest) l acc in
  (r = acc \/ In r l) /\
  (forall x, In x l -> ltb x r = false) /\
  ltb acc r = false /\ isNaN r = false.
Proof.
  intros Hl; revert acc; induction Hl as [|x l Hx Hl IH]; intros acc Hacc.
  - simpl. split; [now left|]. split; [intros ? []|]. split; [apply ltb_irrefl | exact Hacc].
  - cbn [fold_left]. rewrite Hacc, (counter_not_NaN x Hx). cbn [orb].
    set (acc' := if ltb x acc then x else acc).
    assert (Hacc' : isNaN acc' = false /\ ltb acc acc' = false /\
                    ltb x acc' = false /\ (acc' = acc \/ acc' = x)).
    { subst acc'. pose proof (counter_not_NaN x Hx) as Hn.
      destruct (ltb x acc) eqn:E.
      - repeat split; auto; [|apply ltb_irrefl].
        destruct x, acc; simpl in *; try congruence.
        apply Z.ltb_lt in E. apply Z.ltb_ge. lia.
      - repeat split; auto. apply ltb_irrefl. }
    clearbody acc'. destruct Hacc' as [Hn' [H1 [H2 H3]]].
    destruct (IH acc' Hn') as [I1 [I2 [I3 I4]]].
    set (r := fold_left _ l acc') in *. clearbody r.
    split; [|split; [|split]].
    + destruct I1 as [->|I1]; [|right; now right].
      destruct H3 as [->| ->]; [now left | right; now left].
    + intros y [<-|Hy]; [|now apply I2].
      now apply ltb_false_trans with acc'.
    + now apply ltb_false_trans with acc'.
    + exact I4.
Qed.

(** [a <= x] and [r <= a]... the other way round, for the greatest. *)
Lemma ltb_false_trans' (x a r : num) :
  isNaN a = false -> ltb a x = false -> ltb r a = false -> ltb r x = false.
Proof.
  destruct x, a, r; simpl; try congruence; intros _ H1 H2.
  apply Z.ltb_ge in H1, H2. apply Z.ltb_ge. lia.
Qed.

Lemma max_fold (l : list num) (acc : num) :
  Forall isCounter l -> isNaN acc = false ->
  let r := fold_left
             (fun highest x =>
                if isNaN highest || isNaN x then NaN
                else if ltb highest x then x else highest) l acc in
  (r = acc \/ In r l) /\
  (forall x, In x l -> ltb r x = false) /\
  ltb r acc = false /\ isNaN r = false.
Proof.
  intros Hl; revert acc; induction Hl as [|x l Hx Hl IH]; intros acc Hacc.
  - simpl. split; [now left|]. split; [intros ? []|]. split; [apply ltb_irrefl | exact Hacc].
  - cbn [fold_left]. rewrite Hacc, (counter_not_NaN x Hx). cbn [orb].
    set (acc' := if ltb acc x then x else acc).
    assert (Hacc' : isNaN acc' = false /\ ltb acc' acc = false /\
                    ltb acc' x = false /\ (acc' = acc \/ acc' = x)).
    { subst acc'. pose proof (counter_not_NaN x Hx) as Hn.
      destruct (ltb acc x) eqn:E.
      - repeat split; auto; [|apply ltb_irrefl].
        destruct x, acc; simpl in *; try congruence.
        apply Z.ltb_lt in E. apply Z.ltb_ge. lia.
      - repeat split; auto. apply ltb_irrefl. }
    clearbody acc'. destruct Hacc' as [Hn' [H1 [H2 H3]]].
    destruct (IH acc' Hn') as [I1 [I2 [I3 I4]]].
    set (r := fold_left _ l acc') in *. clearbody r.
    split; [|split; [|split]].
    + destruct I1 as [->|I1]; [|right; now right].
      destruct H3 as [->| ->]; [now left | right; now left].
    + intros y [<-|Hy]; [|now apply I2].
      now apply ltb_false_trans' with acc'.
    + now apply ltb_false_trans' with acc'.
    + exact I4.
Qed.

(** The least of some counters: [Infinity] when there is none or all
    are [Infinity], else the least of them. *)
Lemma Math_min_counters (l : list num) :
  Forall isCounter l ->
  (Math_min l = PosInf /\ forall x, In x l -> x = PosInf) \/
  (exists lo, Math_min l = Fin lo /\ isMin lo l /\ (0 <= lo <= MAX_VALUE)%Z).
Proof.
  intros Hl.
  destruct (min_fold l PosInf Hl eq_refl) as [H1 [H2 [_ H4]]].
  fold (Math_min l) in *. rewrite Forall_forall in Hl.
  destruct H1 as [H1|H1].
  - left. split; [exact H1|]. intros x Hx. specialize (H2 x Hx). rewrite H1 in H2.
    destruct (Hl x Hx) as [->|[v [-> _]]]; [reflexivity | discriminate].
  - destruct (Hl _ H1) as [E|[lo [E Hlo]]].
    + left. split; [exact E|]. intros x Hx. specialize (H2 x Hx). rewrite E in H2.
      destruct (Hl x Hx) as [->|[v [-> _]]]; [reflexivity | discriminate].
    + right. exists lo. rewrite E in *. split; [reflexivity|]. split; [|exact Hlo].
      split; assumption.
Qed.

(** The greatest of some counters: [-Infinity] when there is none,
    [Infinity] when one of them is, else the greatest of them. *)
Lemma Math_max_counters (l : list num) :
  Forall isCounter l ->
  (l = [] /\ Math_max l = NegInf) \/
  (In PosInf l /\ Math_max l = PosInf) \/
  (exists hi, Math_max l = Fin hi /\ isMax hi l /\ (0 <= hi <= MAX_VALUE)%Z).
Proof.
  intros Hl. destruct l as [|x0 l0]; [left; split; reflexivity|]. right.
  destruct (max_fold _ NegInf Hl eq_refl) as [H1 [H2 [_ H4]]].
  fold (Math_max (x0 :: l0)) in *. rewrite Forall_forall in Hl.
  destruct H1 as [H1|H1].
  - exfalso. specialize (H2 x0 (or_introl eq_refl)). rewrite H1 in H2.
    destruct (Hl x0 (or_introl eq_refl)) as [->|[v [-> _]]]; discriminate.
  - destruct (Hl _ H1) as [E|[hi [E Hhi]]].
    + left. rewrite E in *. split; [exact H1 | reflexivity].
    + right. exists hi. rewrite E in *. split; [reflexivity|]. split; [|exact Hhi].
      split; assumption.
Qed.

Lemma isMin_unique (l : list num) (a b : Z) : isMin a l -> isMin b l -> a = b.
Proof.
  intros [Ha Ha'] [Hb Hb']. specialize (Ha' _ Hb). specialize (Hb' _ Ha).
  simpl in *. lia.
Qed.

Lemma isMax_unique (l : list num) (a b : Z) : isMax a l -> isMax b l -> a = b.
Proof.
  intros [Ha Ha'] [Hb Hb']. specialize (Ha' _ Hb). specialize (Hb' _ Ha).
  simpl in *. lia.
Qed.

Lemma isMin_nonempty (l : list num) (a : Z) : isMin a l -> l <> [].
Proof. intros [H _] ->. destruct H. Qed.

Lemma isMax_nonempty (l : list num) (a : Z) : isMax a l -> l <> [].
Proof. intros [H _] ->. destruct H. Qed.

Lemma Math_min_isMin (l : list num) (lo : Z) :
  Forall isCounter l -> isMin lo l ->
  Math_min l = Fin lo /\ (0 <= lo <= MAX_VALUE)%Z.
Proof.
  intros Hl Hlo. destruct (Math_min_counters l Hl) as [[_ H]|[lo' [E [Hlo' Hb]]]].
  - destruct Hlo as [Hin _]. specialize (H _ Hin). discriminate.
  - now rewrite (isMin_unique _ _ _ Hlo Hlo').
Qed.

Lemma Math_max_isMax (l : list num) (hi : Z) :
  Forall isCounter l -> isMax hi l ->
  Math_max l = Fin hi /\ (0 <= hi <= MAX_VALUE)%Z.
Proof.
  intros Hl Hhi.
  destruct (Math_max_counters l Hl) as [[E _]|[[Hin _]|[hi' [E [Hhi' Hb]]]]].
  - now apply isMax_nonempty in Hhi.
  - destruct Hhi as [_ H]. specialize (H _ Hin). discriminate.
  - now rewrite (isMax_unique _ _ _ Hhi Hhi').
Qed.

Local Open Scope Z_scope.

Lemma ToLength_nonpos (z : Z) : z <= 0 -> ToLength (roundDouble z) = 0.
Proof.
  intros Hz. destruct (roundDouble_nonpos z Hz) as [->|[m [-> Hm]]]; [reflexivity|].
  unfold ToLength, MAX_SAFE_INTEGER. change (2 ^ 53 - 1) with 9007199254740991. lia.
Qed.

(** The length [hi - lo] of natural numbers: itself up to [2 ^ 53 - 1],
    and [2 ^ 53 - 1] beyond. *)
Lemma ToLength_sub (lo hi : Z) :
  0 <= lo -> 0 <= hi ->
  ToLength (sub (Fin hi) (Fin lo)) = Z.max 0 (Z.min (hi - lo) MAX_SAFE_INTEGER).
Proof.
  intros Hlo Hhi. cbn [sub].
  destruct (Z_le_gt_dec (hi - lo) 0) as [Hle|Hgt].
  - rewrite ToLength_nonpos by exact Hle.
    unfold MAX_SAFE_INTEGER. change (2 ^ 53 - 1) with 9007199254740991. lia.
  - assert (HB : 2 ^ 53 <= 2 ^ 1024 - 2 ^ 970) by (vm_compute; discriminate).
    destruct (roundDouble_nonneg (hi - lo) ltac:(lia)) as [[-> H]|[m [-> [_ [H1 H2]]]]];
      unfold ToLength, MAX_SAFE_INTEGER in *;
      change (2 ^ 53) with 9007199254740992 in *;
      change (9007199254740992 - 1) with 9007199254740991 in *; lia.
Qed.

(** The array of a stage whose bounds are doubles that differ by an
    array length at most: the integers above [lo] up to [hi], as long
    as [hi] is below [2 ^ 53]. *)
Lemma Array_from_between (lo hi : Z) :
  0 <= lo -> 0 <= hi <= MAX_SAFE_INTEGER -> hi - lo <= MAX_ARRAY_LENGTH ->
  Array_from (sub (Fin hi) (Fin lo)) (fun i => add (add (Fin lo) (Fin i)) (Fin 1))
  = Some (map Fin (between lo hi)).
Proof.
  intros Hlo Hhi Hlen. unfold Array_from. rewrite ToLength_sub by lia.
  unfold MAX_SAFE_INTEGER, MAX_ARRAY_LENGTH in *.
  change (2 ^ 53 - 1) with 9007199254740991 in *.
  change (2 ^ 32 - 1) with 4294967295 in *.
  replace (4294967295 <? _) with false by (symmetry; apply Z.ltb_ge; lia).
  f_equal. unfold between. rewrite map_map.
  replace (Z.to_nat (Z.max 0 (Z.min (hi - lo) 9007199254740991)))
    with (Z.to_nat (hi - lo)) by lia.
  apply map_ext_in. intros i Hi%in_seq. cbn [add].
  rewrite (roundDouble_small (lo + Z.of_nat i))
    by (change (2 ^ 53) with 9007199254740992; lia).
  cbn [add]. rewrite roundDouble_small
    by (change (2 ^ 53) with 9007199254740992; lia).
  reflexivity.
Qed.

Lemma MAX_VALUE_finite : MAX_VALUE + 2 ^ 32 < 2 ^ 1024 - 2 ^ 970.
Proof. vm_compute. reflexivity. Qed.

(** Whatever the bounds, the array of a stage holds positive integers
    only, when there is an array. *)
Lemma Array_from_positive (m M : num) (l : list num) :
  (m = PosInf \/ exists lo, m = Fin lo /\ 0 <= lo <= MAX_VALUE) ->
  (M = NegInf \/ M = PosInf \/ exists hi, M = Fin hi /\ 0 <= hi <= MAX_VALUE) ->
  Array_from (sub M m) (fun i => add (add m (Fin i)) (Fin 1)) = Some l ->
  Forall (fun x => exists v, x = Fin v /\ 1 <= v) l.
Proof.
  intros Hm HM. unfold Array_from.
  destruct (MAX_ARRAY_LENGTH <? ToLength (sub M m)) eqn:E; [discriminate|].
  intros [= <-]. apply Z.ltb_ge in E.
  destruct Hm as [->|[lo [-> Hlo]]].
  { destruct HM as [->|[->|[hi [-> _]]]]; constructor. }
  destruct HM as [->|[->|[hi [-> Hhi]]]]; [constructor | |].
  { exfalso. cbn in E. unfold MAX_ARRAY_LENGTH, MAX_SAFE_INTEGER in E.
    revert E. vm_compute. intros E. now apply E. }
  rewrite ToLength_sub in * by lia.
  unfold MAX_SAFE_INTEGER, MAX_ARRAY_LENGTH in *.
  change (2 ^ 53 - 1) with 9007199254740991 in *.
  change (2 ^ 32 - 1) with 4294967295 in *.
  apply Forall_map, Forall_forall. intros i Hi%in_seq.
  pose proof MAX_VALUE_finite as HF. change (2 ^ 32) with 4294967296 in HF.
  cbn [add].
  destruct (roundDouble_nonneg (lo + Z.of_nat i) ltac:(lia)) as [[_ H]|[a [-> [Ha _]]]];
    [lia|].
  cbn [add].
  destruct (roundDouble_nonneg (a + 1) ltac:(lia)) as [[_ H]|[b [-> [Hb [H1 H2]]]]];
    [lia|].
  exists b. split; [reflexivity|].
  change (2 ^ 53) with 9007199254740992 in *.
  destruct (Z_lt_le_dec (a + 1) 9007199254740992); lia.
Qed.

(** With the least removed version not below the greatest added one,
    or one of them missing, the array is empty. *)
Lemma Array_from_degenerate (m M : num) :
  (m = PosInf \/ exists lo, m = Fin lo /\ 0 <= lo <= MAX_VALUE) ->
  (M = NegInf \/ M = PosInf \/ exists hi, M = Fin hi /\ 0 <= hi <= MAX_VALUE) ->
  ltb m M = false ->
  Array_from (sub M m) (fun i => add (add m (Fin i)) (Fin 1)) = Some [].
Proof.
  intros Hm HM Hlt.
  destruct Hm as [->|[lo [-> Hlo]]].
  { destruct HM as [->|[->|[hi [-> _]]]]; reflexivity. }
  destruct HM as [->|[->|[hi [-> Hhi]]]]; [reflexivity | discriminate |].
  simpl in Hlt. apply Z.ltb_ge in Hlt.
  unfold Array_from. cbn [sub]. rewrite ToLength_nonpos by lia. reflexivity.
Qed.

Local Close Scope Z_scope.

Lemma between_In (lo hi v : Z) : In v (between lo hi) <-> (lo < v <= hi)%Z.
Proof.
  unfold between. rewrite in_map_iff. split.
  - intros [i [<- Hi]]. apply in_seq in Hi. lia.
  - intros H. exists (Z.to_nat (v - lo - 1)). split; [lia|].
    apply in_seq. lia.
Qed.

Lemma between_sorted (lo hi : Z) : StronglySorted Z.lt (between lo hi).
Proof.
  unfold between. generalize (Z.to_nat (hi - lo)) as n. generalize 0%nat as s.
  intros s n; revert s; induction n as [|n IH]; intros s; simpl; constructor.
  - apply IH.
  - apply Forall_forall. intros v Hv. apply in_map_iff in Hv as [i [<- Hi]].
    apply in_seq in Hi. lia.
Qed.

End NumberFacts.

(** ** The range extractor *)

Section Extractor.

Lemma append_assoc (a b c : string) : (a ++ b) ++ c = a ++ (b ++ c).
Proof. induction a as [|x a IH]; simpl; [reflexivity | now rewrite IH]. Qed.

Lemma changedStageVersions_eq (diff : string) :
  changedStageVersions diff
  = Array_map (stageVersionsOf diff) (changedStages diff).
Proof.
  unfold changedStageVersions.
  destruct (changedStages diff); reflexivity.
Qed.

Lemma stageVersionsOf_stage (diff s : string) (sv : StageVersions) :
  stageVersionsOf diff s = Ok sv -> Action.stage sv = s.
Proof.
  unfold stageVersionsOf. destruct (Array_from _ _); [|discriminate].
  now intros [= <-].
Qed.

(** What [map] returns holds the result of each call, in order. *)
Lemma Array_map_Ok {A B : Type} (f : A -> result B) (l : list A) (m : list B) :
  Array_map f l = Ok m <-> Forall2 (fun x y => f x = Ok y) l m.
Proof.
  revert m; induction l as [|x l IH]; intros m; cbn [Array_map].
  - split; [intros [= <-]; constructor | intros H; now inversion H].
  - destruct (f x) as [y|e] eqn:Ex.
    + destruct (Array_map f l) as [ys|e].
      * split.
        -- intros [= <-]. constructor; [exact Ex | now apply IH].
        -- intros H. inversion H as [|? y' ? ys' Hy Hys]; subst.
           apply IH in Hys. congruence.
      * split; [discriminate|]. intros H.
        inversion H as [|? y' ? ys' Hy Hys]; subst. now apply IH in Hys.
    + split; [discriminate|]. intros H. inversion H; congruence.
Qed.

(** A throw of one call is the throw of [map]. *)
Lemma Array_map_Err {A B : Type} (f : A -> result B) (l : list A) (e : string) :
  Array_map f l = Err e -> exists x, In x l /\ f x = Err e.
Proof.
  induction l as [|x l IH]; cbn [Array_map]; [discriminate|].
  destruct (f x) as [y|e'] eqn:Ex.
  - destruct (Array_map f l) as [ys|e'']; [discriminate|].
    intros [= <-]. destruct (IH eq_refl) as [x' [Hin Hx']].
    exists x'. split; [now right | exact Hx'].
  - intros [= <-]. exists x. split; [now left | exact Ex].
Qed.

Lemma mapping_entries (diff : string) (m : list StageVersions) :
  changedStageVersions diff = Ok m ->
  Forall2 (fun s sv => stageVersionsOf diff s = Ok sv) (changedStages diff) m.
Proof. rewrite changedStageVersions_eq. apply Array_map_Ok. Qed.

(** The stages of the array are the stages the diff flags, in order. *)
Lemma mapping_stages (diff : string) (m : list StageVersions) :
  changedStageVersions diff = Ok m -> map Action.stage m = changedStages diff.
Proof.
  intros H%mapping_entries. induction H as [|x y l m' Hxy _ IH]; [reflexivity|].
  cbn [map]. now rewrite (stageVersionsOf_stage _ _ _ Hxy), IH.
Qed.

Lemma changedStages_In (diff s : string) :
  In s (changedStages diff) <-> In s STAGES /\ stageChanged diff s = true.
Proof. apply filter_In. Qed.

Lemma find_entry (diff : string) (l : list string) (m : list StageVersions)
  (s : string) :
  Forall2 (fun s sv => stageVersionsOf diff s = Ok sv) l m ->
  (In s l -> exists sv, entryOf s m = Some sv /\ stageVersionsOf diff s = Ok sv) /\
  (~ In s l -> entryOf s m = None).
Proof.
  intros H. induction H as [|x y l m' Hxy _ [IH1 IH2]].
  - split; [intros [] | reflexivity].
  - unfold entryOf in *. cbn [find].
    rewrite (stageVersionsOf_stage _ _ _ Hxy).
    destruct (String.eqb_spec x s) as [->|Hne].
    + split; [intros _; now exists y | intros Hn; exfalso; apply Hn; now left].
    + split.
      * intros [Hin|Hin]; [congruence | now apply IH1].
      * intros Hn. apply IH2. intros Hin. apply Hn. now right.
Qed.

Lemma entryOf_changed (diff s : string) (m : list StageVersions) :
  changedStageVersions diff = Ok m ->
  In s STAGES -> stageChanged diff s = true ->
  exists sv, entryOf s m = Some sv /\ stageVersionsOf diff s = Ok sv.
Proof.
  intros Hm Hin Hc.
  apply (proj1 (find_entry diff _ m s (mapping_entries _ _ Hm))).
  now apply changedStages_In.
Qed.

Lemma entryOf_unchanged (diff s : string) (m : list StageVersions) :
  changedStageVersions diff = Ok m ->
  (~ In s STAGES \/ stageChanged diff s = false) ->
  entryOf s m = None.
Proof.
  intros Hm H.
  apply (proj2 (find_entry diff _ m s (mapping_entries _ _ Hm))).
  rewrite changedStages_In. intros [H1 H2]. destruct H as [H|H]; congruence.
Qed.

Lemma inMapping_iff (diff s : string) (m : list StageVersions) :
  changedStageVersions diff = Ok m ->
  (inMapping m s <-> In s STAGES /\ stageChanged diff s = true).
Proof.
  intros Hm. unfold inMapping. rewrite (mapping_stages _ _ Hm).
  apply changedStages_In.
Qed.

(** An entry of the array is the one computed for its stage. *)
Lemma mapping_In (diff : string) (m : list StageVersions) (sv : StageVersions) :
  changedStageVersions diff = Ok m -> In sv m ->
  stageVersionsOf diff (Action.stage sv) = Ok sv.
Proof.
  intros H%mapping_entries Hin. induction H as [|x y l m' Hxy _ IH]; [destruct Hin|].
  destruct Hin as [<-|Hin]; [|now apply IH].
  now rewrite (stageVersionsOf_stage _ _ _ Hxy).
Qed.

(** A version marker of a stage flags the stage. *)
Lemma added_flags (diff s : string) :
  addedVersions diff s <> [] -> stageChanged diff s = true.
Proof.
  unfold addedVersions, stageChanged. intros H.
  assert (H' : execAll (addedMarker s) diff <> []) by (intros E; now rewrite E in H).
  apply execAllFrom_includes in H'. unfold addedMarker in H'.
  rewrite <- append_assoc in H'. apply includes_app in H'. now rewrite H'.
Qed.

Lemma removed_flags (diff s : string) :
  removedVersions diff s <> [] -> stageChanged diff s = true.
Proof.
  unfold removedVersions, stageChanged. intros H.
  assert (H' : execAll (removedMarker s) diff <> []) by (intros E; now rewrite E in H).
  apply execAllFrom_includes in H'. unfold removedMarker in H'.
  rewrite <- append_assoc in H'. apply includes_app in H'. rewrite H'.
  apply orb_true_r.
Qed.

Lemma added_counters (diff s : string) : Forall isCounter (addedVersions diff s).
Proof. apply counters_of_captures. Qed.

Lemma removed_counters (diff s : string) : Forall isCounter (removedVersions diff s).
Proof. apply counters_of_captures. Qed.

(** The added versions of a stage are the numbers written after the
    occurrences of [+DOTENV_VAULT_<STAGE>_VERSION=] in the diff, each
    read to the end of its digits; the removed versions those after
    [-DOTENV_VAULT_<STAGE>_VERSION=]. *)
Lemma addedVersions_spec (diff s : string) (x : num) :
  In s STAGES ->
  (In x (addedVersions diff s) <->
   exists d, occursWith (addedMarker s) diff d /\ x = parseInt d None).
Proof.
  intros Hs. unfold addedVersions. rewrite in_map_iff. split.
  - intros [d [<- Hd]]. exists d. split; [|reflexivity].
    now apply execAllFrom_sound with 0%nat.
  - intros [d [[l [r [-> [Hne [Hd Hr]]]]] ->]]. exists d. split; [reflexivity|].
    apply (execAllFrom_complete "+" ("DOTENV_VAULT_" ++ s ++ "_VERSION=") l d r 0);
      try assumption; try reflexivity.
    simpl in Hs. decompose [or] Hs; subst; try reflexivity. contradiction.
Qed.

Lemma removedVersions_spec (diff s : string) (x : num) :
  In s STAGES ->
  (In x (removedVersions diff s) <->
   exists d, occursWith (removedMarker s) diff d /\ x = parseInt d None).
Proof.
  intros Hs. unfold removedVersions. rewrite in_map_iff. split.
  - intros [d [<- Hd]]. exists d. split; [|reflexivity].
    now apply execAllFrom_sound with 0%nat.
  - intros [d [[l [r [-> [Hne [Hd Hr]]]]] ->]]. exists d. split; [reflexivity|].
    apply (execAllFrom_complete "-" ("DOTENV_VAULT_" ++ s ++ "_VERSION=") l d r 0);
      try assumption; try reflexivity.
    simpl in Hs. decompose [or] Hs; subst; try reflexivity. contradiction.
Qed.

Lemma removed_shape (diff s : string) :
  Math_min (removedVersions diff s) = PosInf \/
  exists lo, Math_min (removedVersions diff s) = Fin lo /\ (0 <= lo <= MAX_VALUE)%Z.
Proof.
  destruct (Math_min_counters _ (removed_counters diff s)) as [[E _]|[lo [E [_ H]]]];
    [now left | right; now exists lo].
Qed.

Lemma added_shape (diff s : string) :
  Math_max (addedVersions diff s) = NegInf \/
  Math_max (addedVersions diff s) = PosInf \/
  exists hi, Math_max (addedVersions diff s) = Fin hi /\ (0 <= hi <= MAX_VALUE)%Z.
Proof.
  destruct (Math_max_counters _ (added_counters diff s))
    as [[_ E]|[[_ E]|[hi [E [_ H]]]]];
    [now left | right; now left | right; right; now exists hi].
Qed.

(** The range of a stage with a bound missing or with bounds in the
    wrong order. *)
Lemma stageVersionsOf_degenerate (diff s : string) :
  ltb (Math_min (removedVersions diff s)) (Math_max (addedVersions diff s)) = false ->
  stageVersionsOf diff s = Ok (mkStageVersions s []).
Proof.
  intros H. unfold stageVersionsOf.
  now rewrite (Array_from_degenerate _ _ (removed_shape diff s) (added_shape diff s) H).
Qed.

End Extractor.

(** ** The properties of the range extractor *)

Section ExtractorProperties.

(** Whatever the diff, a range holds positive integers only. *)
Lemma versions_positive (diff s : string) (sv : StageVersions) :
  stageVersionsOf diff s = Ok sv ->
  Forall (fun x => exists v, x = Fin v /\ (1 <= v)%Z) (versions sv).
Proof.
  unfold stageVersionsOf.
  destruct (Array_from _ _) as [l|] eqn:E; [|discriminate]. intros [= <-].
  cbn [versions].
  exact (Array_from_positive _ _ l (removed_shape diff s) (added_shape diff s) E).
Qed.

(** A stage with a removed and an added version marker, none of them
    too long for a double, has both bounds. *)
Lemma bounds_exist (diff s : string) :
  removedVersions diff s <> [] -> addedVersions diff s <> [] ->
  ~ In PosInf (removedVersions diff s) -> ~ In PosInf (addedVersions diff s) ->
  exists lo hi, isMin lo (removedVersions diff s) /\ isMax hi (addedVersions diff s).
Proof.
  intros Hr Ha Hr' Ha'.
  destruct (Math_min_counters _ (removed_counters diff s)) as [[_ H]|[lo [_ [Hlo _]]]].
  { destruct (removedVersions diff s) as [|x l]; [congruence|].
    exfalso. apply Hr'. left. apply H. now left. }
  destruct (Math_max_counters _ (added_counters diff s))
    as [[E _]|[[Hin _]|[hi [_ [Hhi _]]]]]; [congruence | contradiction |].
  now exists lo, hi.
Qed.

Lemma stageVersionsOf_between (diff s : string) (lo hi : Z) :
  isMin lo (removedVersions diff s) -> isMax hi (addedVersions diff s) ->
  (hi <= MAX_SAFE_INTEGER)%Z -> (hi - lo <= MAX_ARRAY_LENGTH)%Z ->
  stageVersionsOf diff s = Ok (mkStageVersions s (map Fin (between lo hi))).
Proof.
  intros Hlo Hhi Hsafe Hlen. unfold stageVersionsOf.
  destruct (Math_min_isMin _ _ (removed_counters diff s) Hlo) as [-> Hlo'].
  destruct (Math_max_isMax _ _ (added_counters diff s) Hhi) as [-> Hhi'].
  rewrite Array_from_between by lia. reflexivity.
Qed.

(** C1, as the specification states it, fails: with removed version 0
    and added version 4294967296 the range would have 4294967296
    elements, more than an array holds; [Array.from] throws and the
    extractor returns no mapping at all. *)
Lemma extracted_range_unbounded_fails :
  ~ (forall diff s lo hi,
       In s STAGES ->
       isMin lo (removedVersions diff s) ->
       isMax hi (addedVersions diff s) ->
       rangeOf diff s = Some (map Fin (between lo hi))).
Proof.
  intros H.
  specialize (H diff_0_4294967296 "STAGING" 0%Z 4294967296%Z).
  assert (E : rangeOf diff_0_4294967296 "STAGING" = None) by (vm_compute; reflexivity).
  rewrite E in H. discriminate H.
  - simpl; tauto.
  - split; [vm_compute; tauto|].
    intros x Hx. vm_compute in Hx. destruct Hx as [<-|[]]. reflexivity.
  - split; [vm_compute; tauto|].
    intros x Hx. vm_compute in Hx. destruct Hx as [<-|[]]. reflexivity.
Qed.

(** C1, amended.  When a stage of the enumeration has removed version
    markers, the least of them [lo], and added version markers, the
    greatest of them [hi], with [hi] at most [2 ^ 53 - 1] and [hi - lo]
    at most [2 ^ 32 - 1], the range computed for the stage is the
    increasing sequence of the integers [v] with [lo < v <= hi], and
    nothing else; it is the range of the stage in every mapping the
    extractor returns.
    ([bounds_exist]: one marker of each kind is enough for [lo] and [hi]
    to exist; [removedVersions_spec] and [addedVersions_spec]: the
    versions are the numbers of the markers of the text.) *)
Theorem extracted_range_exact (diff s : string) (lo hi : Z) :
  In s STAGES ->
  isMin lo (removedVersions diff s) ->
  isMax hi (addedVersions diff s) ->
  (hi <= MAX_SAFE_INTEGER)%Z ->
  (hi - lo <= MAX_ARRAY_LENGTH)%Z ->
  stageVersionsOf diff s = Ok (mkStageVersions s (map Fin (between lo hi))) /\
  (forall m, changedStageVersions diff = Ok m ->
             rangeOf diff s = Some (map Fin (between lo hi))) /\
  (forall v, In v (between lo hi) <-> (lo < v <= hi)%Z) /\
  StronglySorted Z.lt (between lo hi).
Proof.
  intros Hs Hlo Hhi Hsafe Hlen.
  pose proof (stageVersionsOf_between diff s lo hi Hlo Hhi Hsafe Hlen) as E.
  split; [exact E|]. split; [|split].
  - intros m Hm. unfold rangeOf. rewrite Hm.
    destruct (entryOf_changed diff s m Hm Hs (added_flags _ _ (isMax_nonempty _ _ Hhi)))
      as [sv [-> Hsv]].
    rewrite E in Hsv. injection Hsv as <-. reflexivity.
  - intros v. apply between_In.
  - apply between_sorted.
Qed.

(** Removed 3 and added 6 give 4, 5, 6; added 5 and 8 with removed 3
    give 4, 5, 6, 7, 8. *)
Lemma extracted_range_exact_examples :
  rangeOf diff_3_6 "STAGING" = Some [Fin 4; Fin 5; Fin 6] /\
  rangeOf diff_3_5_8 "STAGING" = Some [Fin 4; Fin 5; Fin 6; Fin 7; Fin 8].
Proof.
  split.
  - refine (proj1 (proj2 (extracted_range_exact diff_3_6 "STAGING" 3 6 _ _ _ _ _))
              [mkStageVersions "STAGING" [Fin 4; Fin 5; Fin 6]] _).
    + simpl; tauto.
    + split; [vm_compute; tauto|].
      intros x Hx. vm_compute in Hx. destruct Hx as [<-|[]]. reflexivity.
    + split; [vm_compute; tauto|].
      intros x Hx. vm_compute in Hx. destruct Hx as [<-|[]]. reflexivity.
    + vm_compute. discriminate.
    + vm_compute. discriminate.
    + vm_compute. reflexivity.
  - refine (proj1 (proj2 (extracted_range_exact diff_3_5_8 "STAGING" 3 8 _ _ _ _ _))
              [mkStageVersions "STAGING" [Fin 4; Fin 5; Fin 6; Fin 7; Fin 8]] _).
    + simpl; tauto.
    + split; [vm_compute; tauto|].
      intros x Hx. vm_compute in Hx. destruct Hx as [<-|[]]. reflexivity.
    + split; [vm_compute; tauto|].
      intros x Hx. vm_compute in Hx. destruct Hx as [<-|[<-|[]]]; reflexivity.
    + vm_compute. discriminate.
    + vm_compute. discriminate.
    + vm_compute. reflexivity.
Defined.

Lemma versions_empty (diff s : string) :
  (addedVersions diff s = [] \/
   removedVersions diff s = [] \/
   (exists lo hi, isMin lo (removedVersions diff s) /\
                  isMax hi (addedVersions diff s) /\ (hi <= lo)%Z) \/
   ltb (Math_min (removedVersions diff s)) (Math_max (addedVersions diff s)) = false) ->
  stageVersionsOf diff s = Ok (mkStageVersions s []).
Proof.
  intros H. apply stageVersionsOf_degenerate.
  destruct H as [H|[H|[[lo [hi [Hlo [Hhi Hle]]]]|H]]].
  - rewrite H. simpl. now destruct (Math_min _).
  - rewrite H. simpl. now destruct (Math_max _).
  - destruct (Math_min_isMin _ _ (removed_counters diff s) Hlo) as [-> _].
    destruct (Math_max_isMax _ _ (added_counters diff s) Hhi) as [-> _].
    simpl. apply Z.ltb_ge. lia.
  - exact H.
Qed.



(** C3, as the specification states it, fails: with one added version
    line for CI and no removed one, CI is in the mapping. *)
Lemma mapping_needs_both_markers_fails :
  ~ (forall m, changedStageVersions diff_add_only = Ok m ->
               inMapping m "CI" ->
               addedVersions diff_add_only "CI" <> [] /\
               removedVersions diff_add_only "CI" <> []).
Proof.
  intros H.
  destruct (H [mkStageVersions "CI" []]) as [_ H'].
  - vm_compute. reflexivity.
  - vm_compute. tauto.
  - apply H'. reflexivity.
Qed.

(** C3, amended.  The stages the extractor flags are the stages of
    the enumeration for which the diff contains [+DOTENV_VAULT_<STAGE>]
    or [-DOTENV_VAULT_<STAGE>], and a stage is in a mapping the
    extractor returns exactly when it is flagged; one version marker,
    added or removed, is enough to flag it; and with the added or the
    removed markers missing its range, if it has one, is empty. *)
Theorem mapping_membership (diff s : string) :
  (In s (changedStages diff) <->
     In s STAGES /\
     (includes ("+DOTENV_VAULT_" ++ s) diff = true \/
      includes ("-DOTENV_VAULT_" ++ s) diff = true)) /\
  (forall m, changedStageVersions diff = Ok m ->
     (inMapping m s <->
        In s STAGES /\
        (includes ("+DOTENV_VAULT_" ++ s) diff = true \/
         includes ("-DOTENV_VAULT_" ++ s) diff = true))) /\
  (In s STAGES ->
     (addedVersions diff s <> [] \/ removedVersions diff s <> []) ->
     In s (changedStages diff) /\
     forall m, changedStageVersions diff = Ok m -> inMapping m s) /\
  ((addedVersions diff s = [] \/ removedVersions diff s = []) ->
     forall m, changedStageVersions diff = Ok m -> inMapping m s ->
               rangeOf diff s = Some []).
Proof.
  split; [|split; [|split]].
  - rewrite changedStages_In. unfold stageChanged. now rewrite orb_true_iff.
  - intros m Hm. rewrite (inMapping_iff _ _ _ Hm). unfold stageChanged.
    now rewrite orb_true_iff.
  - intros Hs H.
    assert (Hc : stageChanged diff s = true).
    { destruct H as [H|H]; [now apply added_flags | now apply removed_flags]. }
    split; [now apply changedStages_In|].
    intros m Hm. now apply (inMapping_iff _ _ _ Hm).
  - intros H m Hm Hin. apply (inMapping_iff _ _ _ Hm) in Hin as [Hs Hc].
    unfold rangeOf. rewrite Hm.
    destruct (entryOf_changed _ _ _ Hm Hs Hc) as [sv [-> Hsv]].
    rewrite (versions_empty diff s) in Hsv by tauto.
    now injection Hsv as <-.
Qed.

End ExtractorProperties.

(** ** The listing parser *)

Section Parser.

Lemma split_line (sep : ascii) (h rest : string) :
  allb (fun c => negb (Ascii.eqb c sep)) h = true ->
  split sep (h ++ String sep rest) = h :: split sep rest.
Proof.
  induction h as [|c h IH]; simpl; intros H.
  - now rewrite Ascii.eqb_refl.
  - apply andb_true_iff in H as [Hc Hh]. apply negb_true_iff in Hc.
    rewrite Hc, (IH Hh). reflexivity.
Qed.

(** The two header lines go, whatever they say. *)
Lemma parseListing_header (h1 h2 rest : string) :
  noLF h1 -> noLF h2 ->
  parseListing (h1 ++ nl ++ h2 ++ nl ++ rest)
  = filter (fun v => truthy (version v))
      (map parseLine
         (filter (fun line => negb (isEmpty (trim line))) (split LF rest))).
Proof.
  intros H1 H2. unfold parseListing, nl. simpl append.
  rewrite (split_line LF h1), (split_line LF h2) by assumption.
  reflexivity.
Qed.

(** C4, as the specification states it, fails: the version of the one
    record is not the integer 7. *)
Lemma fields_first_row_version_7_fails :
  ~ exists r, parseListing listing_fields_first = [r] /\
              parseInt (toStr (version r)) (Some 10%Z) = Fin 7.
Proof.
  intros [r [H1 H2]]. vm_compute in H1. injection H1 as <-.
  vm_compute in H2. discriminate.
Qed.

(** C4, amended.  After two header lines, the data line
    [field-a  field-b   v7  alice 2024-01-01 10:00] yields exactly one
    record: its version is the first column with its first [v] taken
    out, here the text [field-a], which does not read as an integer;
    its fields value is not empty, its user is [alice] and its time
    [2024-01-01 10:00].  With the version column first, as in
    [v7  field-a  alice 2024-01-01 10:00], the one record has version
    [7], which reads as the integer 7, fields [field-a], and the same
    user and time. *)
Theorem listing_row_parse (h1 h2 : string) :
  noLF h1 -> noLF h2 ->
  (exists r,
      parseListing (listing_of h1 h2 row_fields_first) = [r] /\
      version r = Some "field-a" /\
      parseInt "field-a" (Some 10%Z) = NaN /\
      fields r <> EmptyString /\
      user r = Some "alice" /\
      time r = "2024-01-01 10:00") /\
  parseListing (listing_of h1 h2 row_version_first)
  = [mkVersion (Some "7") "field-a" (Some "alice") "2024-01-01 10:00"] /\
  parseInt "7" (Some 10%Z) = Fin 7.
Proof.
  intros H1 H2. unfold listing_of. rewrite !parseListing_header by assumption.
  split; [|split; reflexivity].
  eexists. split; [reflexivity|]. repeat split. discriminate.
Qed.

Lemma listing_row_parse_headers :
  (exists r,
      parseListing (listing_of header1 header2 row_fields_first) = [r] /\
      version r = Some "field-a" /\
      parseInt "field-a" (Some 10%Z) = NaN /\
      fields r <> EmptyString /\
      user r = Some "alice" /\
      time r = "2024-01-01 10:00") /\
  parseListing (listing_of header1 header2 row_version_first)
  = [mkVersion (Some "7") "field-a" (Some "alice") "2024-01-01 10:00"] /\
  parseInt "7" (Some 10%Z) = Fin 7.
Proof.
  apply listing_row_parse; reflexivity.
Defined.

(** C5, as the specification states it, fails: the row whose version
    column reads [beta] is returned, and so is the row of version 0. *)
Lemma parsed_versions_positive_fails :
  ~ forall r, In r (parseListing listing_mixed) ->
              exists n, parseInt (toStr (version r)) (Some 10%Z) = Fin n /\ (0 < n)%Z.
Proof.
  intros H.
  destruct (H (mkVersion (Some "beta") "field-b" (Some "bob") "2024-01-02 11:00"))
    as [n [Hn _]].
  - vm_compute. tauto.
  - vm_compute in Hn. discriminate.
Qed.

(** C5, amended.  The parser returns the records of the rows that are
    not blank, less those whose version column is missing or is empty
    once its first [v] is taken out: every record returned has a
    version text that is not empty.  (That text need not read as a
    positive integer.) *)
Theorem parsed_rows_have_version (stdout : string) (r : VaultEnvVersion) :
  In r (parseListing stdout) <->
  (exists line, In line (skipn 2 (split LF stdout)) /\
                trim line <> EmptyString /\ parseLine line = r) /\
  (exists v, version r = Some v /\ v <> EmptyString).
Proof.
  unfold parseListing. rewrite filter_In, in_map_iff.
  assert (Ht : truthy (version r) = true <->
               exists v, version r = Some v /\ v <> EmptyString).
  { unfold truthy. destruct (version r) as [v|].
    - rewrite negb_true_iff, isEmpty_false. split.
      + intros H. now exists v.
      + intros [v' [[= <-] H]]. exact H.
    - split; [discriminate | intros [v [H _]]; discriminate]. }
  rewrite Ht. apply and_iff_compat_r. split.
  - intros [line [E Hl]]. apply filter_In in Hl as [Hl Hn].
    exists line. rewrite negb_true_iff, isEmpty_false in Hn. auto.
  - intros [line [Hl [Hn E]]]. exists line. split; [assumption|].
    apply filter_In. split; [assumption|].
    now rewrite negb_true_iff, isEmpty_false.
Qed.

(** What the parser makes of [listing_mixed]: the rows of [7], [beta]
    and [0] stay, the row with nothing after the [v] and the row of one
    column go. *)
Example parseListing_mixed :
  parseListing listing_mixed
  = [ mkVersion (Some "7") "field-a" (Some "alice") "2024-01-01 10:00";
      mkVersion (Some "beta") "field-b" (Some "bob") "2024-01-02 11:00";
      mkVersion (Some "0") "field-c" (Some "carol") "2024-01-03 12:00" ].
Proof. reflexivity. Qed.

End Parser.

(** ** The reconciler *)

Section Reconciler.

Lemma startsWith_append (a b : string) : startsWith a (a ++ b) = true.
Proof. apply startsWith_spec. now exists b. Qed.

Lemma stageOutput_absent (w : World) (mapping : list StageVersions) (s : string) :
  entryOf s mapping = None ->
  stageOutput w mapping s = s ++ ": No changes".
Proof. unfold stageOutput, entryOf. now intros ->. Qed.

Lemma stageOutput_none_in_range (w : World) (mapping : list StageVersions)
  (s : string) (cv : StageVersions) :
  entryOf s mapping = Some cv ->
  changedVersionsOf (versions cv) (getAllVersions w s) = [] ->
  stageOutput w mapping s = s ++ ": No versions changed".
Proof. unfold stageOutput, entryOf. now intros -> ->. Qed.

Lemma stageOutput_records (w : World) (mapping : list StageVersions)
  (s : string) (cv : StageVersions) :
  entryOf s mapping = Some cv ->
  changedVersionsOf (versions cv) (getAllVersions w s) <> [] ->
  stageOutput w mapping s
  = join nl (map (versionLine s)
               (changedVersionsOf (versions cv) (getAllVersions w s))).
Proof.
  unfold stageOutput, entryOf. intros -> H.
  destruct (changedVersionsOf _ _); [congruence | reflexivity].
Qed.

(** Every fragment opens with the name of its stage. *)
Lemma stageOutput_startsWith (w : World) (mapping : list StageVersions) (s : string) :
  startsWith s (stageOutput w mapping s) = true.
Proof.
  unfold stageOutput. destruct (find _ mapping) as [cv|]; [|apply startsWith_append].
  destruct (changedVersionsOf _ _) as [|r rs]; [apply startsWith_append|].
  cbn [List.length Nat.eqb map]. unfold versionLine at 1.
  destruct (map (versionLine s) rs); cbn [join];
    [|rewrite append_assoc]; apply startsWith_append.
Qed.

Lemma getAllVersions_failed (w : World) (s e : string) :
  execAsync w (versionsCommand s) = Err e -> getAllVersions w s = [].
Proof. unfold getAllVersions. now intros ->. Qed.

Lemma getAllVersions_same (w1 w2 : World) (s : string) :
  sameListing (execAsync w1 (versionsCommand s)) (execAsync w2 (versionsCommand s)) ->
  getAllVersions w1 s = getAllVersions w2 s.
Proof.
  unfold getAllVersions, sameListing.
  destruct (execAsync w1 _), (execAsync w2 _); intros H; subst; tauto.
Qed.

Lemma stageOutput_same (w1 w2 : World) (mapping : list StageVersions) (s : string) :
  getAllVersions w1 s = getAllVersions w2 s ->
  stageOutput w1 mapping s = stageOutput w2 mapping s.
Proof. unfold stageOutput. now intros ->. Qed.

(** A record in a range of positive integers has a version that reads
    as one of them. *)
Lemma inRange_integer (range : list num) (r : VaultEnvVersion) :
  Forall (fun x => exists v, x = Fin v /\ (1 <= v)%Z) range -> inRange range r ->
  exists v, parseInt (toStr (version r)) (Some 10%Z) = Fin v /\
            In (Fin v) range /\ (1 <= v)%Z.
Proof.
  intros Hc H. unfold inRange, Array_includes in H.
  apply existsb_exists in H as [y [Hy E]].
  rewrite Forall_forall in Hc. destruct (Hc y Hy) as [v [-> Hv]].
  exists v. destruct (parseInt _ _) as [| |u|]; try discriminate.
  simpl in E. apply Z.eqb_eq in E. subst u. auto.
Qed.

Lemma filter_Subsequence {A : Type} (p : A -> bool) (l : list A) :
  Subsequence (filter p l) l.
Proof.
  induction l as [|x l IH]; simpl; [constructor|].
  destruct (p x); [apply sub_keep | apply sub_skip]; assumption.
Qed.

Lemma Subsequence_filter {A : Type} (p : A -> bool) (l' l : list A) :
  Subsequence l' l -> Forall (fun x => p x = true) l' ->
  Subsequence l' (filter p l).
Proof.
  induction 1 as [|x l1 l2 H IH|x l1 l2 H IH]; intros Hp; simpl.
  - constructor.
  - destruct (p x); [apply sub_skip|]; auto.
  - inversion Hp as [|? ? Hx Hl1]; subst. rewrite Hx. apply sub_keep. auto.
Qed.

(** *** Lines: no record of a listing holds a line feed *)

Lemma allb_append (p : ascii -> bool) (a b : string) :
  allb p (a ++ b) = allb p a && allb p b.
Proof. induction a as [|c a IH]; simpl; [reflexivity | now rewrite IH, andb_assoc]. Qed.

Lemma noLF_append (a b : string) : noLF a -> noLF b -> noLF (a ++ b).
Proof. unfold noLF. rewrite allb_append. now intros -> ->. Qed.

Lemma allb_consHead (p : ascii -> bool) (c : ascii) (l : list string) :
  p c = true -> Forall (fun s => allb p s = true) l ->
  Forall (fun s => allb p s = true) (consHead c l).
Proof.
  intros Hc Hl. destruct Hl as [|h t Hh Ht]; simpl.
  - constructor; [simpl; now rewrite Hc | constructor].
  - constructor; [simpl; now rewrite Hc, Hh | assumption].
Qed.

Lemma split_noLF (s : string) : Forall noLF (split LF s).
Proof.
  induction s as [|c s IH]; simpl.
  - now repeat constructor.
  - destruct (Ascii.eqb c LF) eqn:E.
    + constructor; [reflexivity | assumption].
    + apply (allb_consHead (fun c => negb (Ascii.eqb c LF))); [now rewrite E | assumption].
Qed.

Lemma allb_dropWhile (p q : ascii -> bool) (s : string) :
  allb p s = true -> allb p (dropWhile q s) = true.
Proof.
  induction s as [|c s IH]; simpl; [reflexivity|]. intros H.
  destruct (q c); [|exact H].
  apply andb_true_iff in H as [_ H]. auto.
Qed.

Lemma allb_trimEnd (p : ascii -> bool) (s : string) :
  allb p s = true -> allb p (trimEnd s) = true.
Proof.
  induction s as [|c s IH]; simpl; [reflexivity|]. intros H.
  apply andb_true_iff in H as [Hc Hs]. specialize (IH Hs).
  destruct (trimEnd s) as [|d t].
  - destruct (isSpace c); simpl; [reflexivity | now rewrite Hc].
  - cbn [allb] in *. now rewrite Hc, IH.
Qed.

Lemma allb_trim (p : ascii -> bool) (s : string) :
  allb p s = true -> allb p (trim s) = true.
Proof. intros H. unfold trim, trimStart. now apply allb_trimEnd, allb_dropWhile. Qed.

Lemma allb_splitSpaces2From (p : ascii -> bool) (s : string) (k : nat) :
  allb p s = true -> Forall (fun t => allb p t = true) (splitSpaces2From s k).
Proof.
  revert k; induction s as [|c s IH]; intros k H; cbn [splitSpaces2From].
  - now repeat constructor.
  - cbn [allb] in H. apply andb_true_iff in H as [Hc Hs].
    destruct k; [|now apply IH].
    destruct (2 <=? _)%nat.
    + constructor; [reflexivity | now apply IH].
    + apply allb_consHead; [assumption | now apply IH].
Qed.

Lemma allb_removeFirst (p : ascii -> bool) (c : ascii) (s : string) :
  allb p s = true -> allb p (removeFirst c s) = true.
Proof.
  induction s as [|a s IH]; simpl; [reflexivity|]. intros H.
  apply andb_true_iff in H as [Ha Hs].
  destruct (Ascii.eqb a c); [assumption|]. simpl. now rewrite Ha, IH.
Qed.

Lemma Array_pop_Forall {A : Type} (P : A -> Prop) (l : list A) :
  Forall P l -> Forall P (snd (Array_pop l)).
Proof.
  induction 1 as [|x l Hx Hl IH]; [constructor|].
  cbn [Array_pop]. destruct l as [|y l]; [constructor|].
  destruct (Array_pop (y :: l)) as [o r]. simpl in *. now constructor.
Qed.

(** The version and the fields of the record of a line without line
    feed have none. *)
Lemma parseLine_noLF (line : string) :
  noLF line ->
  noLF (toStr (version (parseLine line))) /\ noLF (fields (parseLine line)).
Proof.
  intros H. unfold parseLine.
  pose proof (allb_splitSpaces2From _ _ 0 (allb_trim _ _ H)) as Hparts.
  fold (splitSpaces2 (trim line)) in Hparts.
  apply Array_pop_Forall in Hparts.
  destruct (Array_pop (splitSpaces2 (trim line))) as [userTime parts].
  cbn [snd] in Hparts.
  destruct userTime as [ut|]; [destruct (split " " ut)|];
    destruct Hparts as [|v parts Hv Hparts]; cbn [version fields toStr List.tl];
    try (split; reflexivity);
    (split; [now apply allb_removeFirst|]);
    (destruct Hparts; [reflexivity | assumption]).
Qed.

Lemma getAllVersions_noLF (w : World) (s : string) (r : VaultEnvVersion) :
  In r (getAllVersions w s) ->
  noLF (toStr (version r)) /\ noLF (fields r).
Proof.
  unfold getAllVersions. destruct (execAsync w _) as [stdout|]; [|intros []].
  unfold parseListing. rewrite filter_In, in_map_iff.
  intros [[line [<- Hl]] _]. apply parseLine_noLF.
  apply filter_In in Hl as [Hl _].
  pose proof (split_noLF stdout) as Hs. rewrite Forall_forall in Hs.
  apply Hs. clear - Hl. revert Hl. generalize (split LF stdout) as l. intros l.
  do 2 (destruct l as [|? l]; [intros []|]). simpl. auto.
Qed.

Lemma versionLine_noLF (s : string) (r : VaultEnvVersion) :
  noLF s -> noLF (toStr (version r)) -> noLF (fields r) ->
  noLF (versionLine s r).
Proof.
  intros Hs Hv Hf. unfold versionLine.
  repeat (apply noLF_append; try assumption; try reflexivity).
Qed.

(** Splitting what [join] made gives the lines back. *)
Lemma split_join (l : list string) :
  l <> [] -> Forall noLF l -> split LF (join nl l) = l.
Proof.
  intros Hne Hl. induction Hl as [|x l Hx Hl IH]; [congruence|]. clear Hne.
  destruct l as [|y l].
  - cbn [join]. clear IH Hl. induction x as [|c x IHx]; [reflexivity|].
    unfold noLF in Hx. cbn [allb] in Hx. apply andb_true_iff in Hx as [Hc Hx].
    apply negb_true_iff in Hc. cbn [split]. rewrite Hc, (IHx Hx). reflexivity.
  - cbn [join]. unfold nl. cbn [append].
    rewrite split_line by exact Hx. f_equal. apply IH. discriminate.
Qed.

End Reconciler.

(** ** The properties of the reconciler *)

Section ReconcilerProperties.

(** C6.  When the listing command of a stage fails, the parser returns
    no record for it; the reconciler still makes one fragment for each
    of CI, DEVELOPMENT, STAGING and PRODUCTION, in this order, each
    opening with the name of its stage; the fragment of the failed
    stage says [No versions changed] or [No changes]; and the comment
    body is produced whenever the diff is there and the extractor
    returns a mapping: the failure does not reach the caller. *)
Theorem listing_failure_degrades (w : World) (mapping : list StageVersions)
  (s e : string) :
  In s STAGES ->
  execAsync w (versionsCommand s) = Err e ->
  getAllVersions w s = [] /\
  versionOutputs w mapping
  = [ stageOutput w mapping "CI"; stageOutput w mapping "DEVELOPMENT";
      stageOutput w mapping "STAGING"; stageOutput w mapping "PRODUCTION" ] /\
  (forall t, startsWith t (stageOutput w mapping t) = true) /\
  (stageOutput w mapping s = s ++ ": No versions changed" \/
   stageOutput w mapping s = s ++ ": No changes") /\
  (forall diff m, execAsync w (gitDiffCommand w) = Ok diff ->
                  changedStageVersions diff = Ok m ->
                  generateCommentBody w = Ok (commentBody w m)).
Proof.
  intros Hs He. pose proof (getAllVersions_failed w s e He) as Hnone.
  split; [exact Hnone|]. split; [reflexivity|].
  split; [intros t; apply stageOutput_startsWith|]. split.
  - destruct (entryOf s mapping) as [cv|] eqn:E.
    + left. apply (stageOutput_none_in_range w mapping s cv E).
      now rewrite Hnone.
    + right. now apply stageOutput_absent.
  - intros diff m Hd Hm. unfold generateCommentBody, getChangedStageVersions.
    now rewrite Hd, Hm.
Qed.

Lemma listing_failure_degrades_development :
  getAllVersions world_dev_fails "DEVELOPMENT" = [] /\
  versionOutputs world_dev_fails
    [mkStageVersions "DEVELOPMENT" [Fin 4; Fin 5; Fin 6]]
  = [ "CI: No changes"; "DEVELOPMENT: No versions changed";
      "STAGING: No changes"; "PRODUCTION: No changes" ].
Proof.
  pose proof (listing_failure_degrades world_dev_fails
                [mkStageVersions "DEVELOPMENT" [Fin 4; Fin 5; Fin 6]]
                "DEVELOPMENT" "exit code 1") as H.
  destruct H as [H1 [H2 _]].
  - simpl. tauto.
  - reflexivity.
  - split; [exact H1 | exact H2].
Defined.

(** C7, as the specification states it, fails on the form of a record's
    line: the fields come between backquotes. *)
Lemma record_line_form_fails :
  ~ (stageOutput world_3_6 [mkStageVersions "STAGING" [Fin 4]] "STAGING"
     = join nl
         (map (fun r => "STAGING" ++ " (" ++ toStr (version r) ++ "): " ++ fields r)
            (changedVersionsOf [Fin 4] (getAllVersions world_3_6 "STAGING")))).
Proof. vm_compute. discriminate. Qed.

(** C7, amended.  The reconciler makes one fragment per stage, in the
    order CI, DEVELOPMENT, STAGING, PRODUCTION.  The fragment of a stage
    that is not in the mapping is [<Stage>: No changes]; that of a
    stage in the mapping none of whose records is in its range is
    [<Stage>: No versions changed]; otherwise it is, joined by line
    feeds, one line per record in the range, each of the form
    [<Stage> (<version>): `<fields>`], the fields between backquotes,
    and for a stage of the enumeration the fragment has exactly these
    lines. *)
Theorem fragments_per_stage (w : World) (mapping : list StageVersions) :
  versionOutputs w mapping
  = [ stageOutput w mapping "CI"; stageOutput w mapping "DEVELOPMENT";
      stageOutput w mapping "STAGING"; stageOutput w mapping "PRODUCTION" ] /\
  forall s,
    (entryOf s mapping = None ->
     stageOutput w mapping s = s ++ ": No changes") /\
    (forall cv, entryOf s mapping = Some cv ->
       let rs := changedVersionsOf (versions cv) (getAllVersions w s) in
       (rs = [] -> stageOutput w mapping s = s ++ ": No versions changed") /\
       (rs <> [] ->
        stageOutput w mapping s
        = join nl (map (fun r => s ++ " (" ++ toStr (version r) ++ "): `"
                                   ++ fields r ++ "`") rs) /\
        (In s STAGES ->
         split LF (stageOutput w mapping s)
         = map (fun r => s ++ " (" ++ toStr (version r) ++ "): `"
                           ++ fields r ++ "`") rs))).
Proof.
  split; [reflexivity|]. intros s. split; [apply stageOutput_absent|].
  intros cv E rs. split; [apply (stageOutput_none_in_range w mapping s cv E)|].
  intros Hne. pose proof (stageOutput_records w mapping s cv E Hne) as Hout.
  fold rs in Hout. split; [exact Hout|].
  intros Hs. rewrite Hout. apply split_join.
  - destruct rs; [congruence | discriminate].
  - apply Forall_map, Forall_forall. intros r Hr.
    apply filter_In in Hr as [Hr _]. apply getAllVersions_noLF in Hr as [Hv Hf].
    apply versionLine_noLF; try assumption.
    simpl in Hs. decompose [or] Hs; subst; try reflexivity. contradiction.
Qed.

(** C8.  For a stage in the mapping, the records the reconciler keeps
    are records of the listing, in the order of the listing; a record
    is kept exactly when its version is one of the range; every other
    choice of in-range records in listing order is within the kept
    ones; and the kept records, when there are some, are what the
    fragment of the stage prints. *)
Theorem changed_records_filter (w : World) (mapping : list StageVersions)
  (s : string) (cv : StageVersions) :
  entryOf s mapping = Some cv ->
  let listed := getAllVersions w s in
  let kept := changedVersionsOf (versions cv) listed in
  Subsequence kept listed /\
  (forall r, In r kept <-> In r listed /\ inRange (versions cv) r) /\
  (forall l, Subsequence l listed -> Forall (inRange (versions cv)) l ->
             Subsequence l kept) /\
  (kept <> [] -> stageOutput w mapping s = join nl (map (versionLine s) kept)).
Proof.
  intros E listed kept. split; [apply filter_Subsequence|]. split; [|split].
  - intros r. apply filter_In.
  - intros l Hl Hin. now apply Subsequence_filter.
  - apply (stageOutput_records w mapping s cv E).
Qed.

(** Versions 2, 6, 4, 1, 5, 3 listed and the range 4, 5, 6: the records
    of 6, 4 and 5, in this order. *)
Lemma changed_records_filter_4_5_6 :
  changedStageVersions diff_3_6 = Ok mapping_3_6 /\
  stageOutput world_3_6 mapping_3_6 "STAGING"
  = "STAGING (6): `F`" ++ nl ++ "STAGING (4): `D`" ++ nl ++ "STAGING (5): `E`".
Proof.
  split; [reflexivity|].
  refine (proj2 (proj2 (proj2
    (changed_records_filter world_3_6 mapping_3_6 "STAGING"
       (mkStageVersions "STAGING" [Fin 4; Fin 5; Fin 6]) _))) _).
  - reflexivity.
  - vm_compute. discriminate.
Defined.

(** C9.  Two runs that get the same diff text and, for each of the
    four stages, the same listing text or a failure both, settle the
    same way, and when the extractor returns a mapping both produce the
    same comment body, character for character: nothing else of the
    world reaches it. *)
Theorem comment_body_deterministic (w1 w2 : World) (diff : string) :
  execAsync w1 (gitDiffCommand w1) = Ok diff ->
  execAsync w2 (gitDiffCommand w2) = Ok diff ->
  (forall s, In s STAGES ->
     sameListing (execAsync w1 (versionsCommand s))
                 (execAsync w2 (versionsCommand s))) ->
  generateCommentBody w1 = generateCommentBody w2 /\
  (forall m, changedStageVersions diff = Ok m ->
     exists body,
       generateCommentBody w1 = Ok body /\ generateCommentBody w2 = Ok body).
Proof.
  intros H1 H2 Hl.
  assert (Hsame : forall m, commentBody w1 m = commentBody w2 m).
  { intros m. unfold commentBody.
    apply (f_equal (fun outputs => "Dotenv-vault Diff" ++ nl ++ join nl outputs)).
    unfold versionOutputs. apply map_ext_in. intros s Hs.
    apply stageOutput_same, getAllVersions_same, Hl, Hs. }
  unfold generateCommentBody, getChangedStageVersions. rewrite H1, H2. split.
  - destruct (changedStageVersions diff) as [m|e]; [|reflexivity].
    now rewrite Hsame.
  - intros m ->. exists (commentBody w1 m). split; [reflexivity|].
    now rewrite Hsame.
Qed.

Lemma comment_body_deterministic_runs :
  exists body,
    generateCommentBody run_a = Ok body /\ generateCommentBody run_b = Ok body.
Proof.
  refine (proj2 (comment_body_deterministic run_a run_b diff_3_6 _ _ _) mapping_3_6 _).
  - reflexivity.
  - reflexivity.
  - intros s Hs. simpl in Hs. decompose [or] Hs; subst; try exact I; try reflexivity.
    contradiction.
  - reflexivity.
Defined.

(** C10, as the specification states it, fails for [src/main.ts]: there
    a change that only removes the line of the encrypted value of CI
    does not flag CI, and the fragment of a flagged stage is never
    [<Stage>: No versions changed]: when the lines of the encrypted
    value of CI change, the body names CI and the latest version the
    tool prints. *)
Lemma blob_only_change_main_ts_fails :
  ~ (forall diff s,
       In s MainTs.stages ->
       ((exists l r, diff = l ++ ("+DOTENV_VAULT_" ++ s) ++ r) \/
        (exists l r, diff = l ++ ("-DOTENV_VAULT_" ++ s) ++ r)) ->
       In s (MainTs.changedStages diff)) /\
  MainTs.commentBodyOf world_latest_7 diff_blob_only
  = "Dotenv-vault Diff" ++ nl ++ nl ++ "CI:" ++ nl ++ "v7 field-a" /\
  includes "No versions changed" (MainTs.commentBodyOf world_latest_7 diff_blob_only)
  = false.
Proof.
  split; [|split; reflexivity].
  intros H. specialize (H diff_blob_removed "CI").
  assert (E : MainTs.changedStages diff_blob_removed = []) by reflexivity.
  rewrite E in H. apply H.
  - simpl. tauto.
  - right. exists EmptyString. eexists. reflexivity.
Qed.

(** C10, amended.  In [src/unnamed/part_000] a stage of the
    enumeration is flagged exactly when [+DOTENV_VAULT_<STAGE>] or
    [-DOTENV_VAULT_<STAGE>] occurs somewhere in the diff text, whatever
    follows it, and it is in a mapping the extractor returns exactly
    when it is flagged.  When it is flagged and the diff has no added or
    no removed version marker of the stage, as when only the line of
    the encrypted value changes, the stage is in the mapping with an
    empty range and its fragment is [<Stage>: No versions changed], not
    [<Stage>: No changes]; the fragment of a stage that is not flagged
    is [<Stage>: No changes].  In [src/main.ts] a stage is flagged
    exactly when [+DOTENV_VAULT_<STAGE>] occurs in the diff text, and
    the fragment of a flagged stage is an empty line, [<Stage>:] and
    the latest version the tool prints, or nothing when the tool prints
    nothing. *)
Theorem blob_only_change_is_flagged (w : World) (diff s : string) :
  In s STAGES ->
  (In s (changedStages diff) <->
     (exists l r, diff = l ++ ("+DOTENV_VAULT_" ++ s) ++ r) \/
     (exists l r, diff = l ++ ("-DOTENV_VAULT_" ++ s) ++ r)) /\
  (forall m, changedStageVersions diff = Ok m ->
     (inMapping m s <-> In s (changedStages diff)) /\
     (In s (changedStages diff) ->
      (addedVersions diff s = [] \/ removedVersions diff s = []) ->
        rangeOf diff s = Some [] /\
        stageOutput w m s = s ++ ": No versions changed" /\
        stageOutput w m s <> s ++ ": No changes") /\
     (~ In s (changedStages diff) -> stageOutput w m s = s ++ ": No changes")) /\
  (In s (MainTs.changedStages diff) <->
     exists l r, diff = l ++ ("+DOTENV_VAULT_" ++ s) ++ r) /\
  (MainTs.versionOutput w s
   = match MainTs.getLatestVersion w (toLowerCase s) with
     | EmptyString => EmptyString
     | version => nl ++ s ++ ":" ++ nl ++ version
     end).
Proof.
  intros Hs.
  assert (Hflag : In s (changedStages diff) <->
                  (exists l r, diff = l ++ ("+DOTENV_VAULT_" ++ s) ++ r) \/
                  (exists l r, diff = l ++ ("-DOTENV_VAULT_" ++ s) ++ r)).
  { rewrite changedStages_In. unfold stageChanged.
    rewrite orb_true_iff, !includes_spec. tauto. }
  split; [exact Hflag|]. split; [|split].
  - intros m Hm.
    assert (Hin : inMapping m s <-> In s (changedStages diff)).
    { unfold inMapping. now rewrite (mapping_stages _ _ Hm). }
    split; [exact Hin|]. split.
    + intros Hc Hnone. apply changedStages_In in Hc as [_ Hc].
      destruct (entryOf_changed _ _ _ Hm Hs Hc) as [sv [E Hsv]].
      rewrite (versions_empty diff s) in Hsv by tauto. injection Hsv as <-.
      assert (Hout : stageOutput w m s = s ++ ": No versions changed").
      { apply (stageOutput_none_in_range _ _ _ _ E).
        cbn [versions]. unfold changedVersionsOf.
        induction (getAllVersions w s) as [|r l IH]; [reflexivity | exact IH]. }
      split; [|split].
      * unfold rangeOf. now rewrite Hm, E.
      * exact Hout.
      * rewrite Hout. intros H.
        assert (H' : ": No versions changed" = ": No changes").
        { clear - H. induction s as [|c s IH]; [exact H | injection H as H; auto]. }
        discriminate.
    + intros Hn. apply stageOutput_absent.
      apply (entryOf_unchanged _ _ _ Hm). right.
      destruct (stageChanged diff s) eqn:Hc; [|reflexivity].
      exfalso. apply Hn. now apply changedStages_In.
  - unfold MainTs.changedStages. rewrite filter_In, includes_spec.
    split; [tauto | intros H; split; [exact Hs | exact H]].
  - unfold MainTs.versionOutput.
    now destruct (MainTs.getLatestVersion w (toLowerCase s)).
Qed.

Lemma blob_only_change_is_flagged_ci :
  changedStageVersions diff_blob_only = Ok [mkStageVersions "CI" []] /\
  rangeOf diff_blob_only "CI" = Some [] /\
  stageOutput world_blob_only [mkStageVersions "CI" []] "CI"
  = "CI: No versions changed" /\
  stageOutput world_blob_only [mkStageVersions "CI" []] "CI" <> "CI: No changes".
Proof.
  split; [reflexivity|].
  refine (proj1 (proj2 (proj1 (proj2
    (blob_only_change_is_flagged world_blob_only diff_blob_only "CI" _))
    [mkStageVersions "CI" []] _)) _ _).
  - simpl. tauto.
  - reflexivity.
  - vm_compute. tauto.
  - left. reflexivity.
Defined.

(** The whole comment of the run [world_3_6]. *)
Example comment_body_3_6 :
  generateCommentBody world_3_6
  = Ok (join nl [ "Dotenv-vault Diff";
                  "CI: No changes";
                  "DEVELOPMENT: No changes";
                  "STAGING (6): `F`";
                  "STAGING (4): `D`";
                  "STAGING (5): `E`";
                  "PRODUCTION: No changes" ]).
Proof. reflexivity. Qed.

End ReconcilerProperties.

(** ** The stage detection of [src/main.ts] *)

Section MainTsProperties.

(** There too a stage is flagged by a substring test, for the added
    marker only. *)
Lemma main_ts_changed_iff (diff s : string) :
  In s (MainTs.changedStages diff) <->
  In s MainTs.stages /\ exists l r, diff = l ++ ("+DOTENV_VAULT_" ++ s) ++ r.
Proof.
  unfold MainTs.changedStages. rewrite filter_In, includes_spec. reflexivity.
Qed.

Example main_ts_blob_only : MainTs.changedStages diff_blob_only = ["CI"].
Proof. reflexivity. Qed.

End MainTsProperties.

(** ** Further properties of the extractor and of the reconciler *)

Section MoreExtractor.

Lemma parseDigits_decimal (s : string) (a : Z) :
  allb isDigit s = true ->
  parseDigits 10 s (Some a) = Some (decimalFrom a s).
Proof.
  revert a; induction s as [|c s IH]; intros a Hs; cbn [parseDigits allb decimalFrom] in *.
  - reflexivity.
  - apply andb_true_iff in Hs as [Hc Hs].
    unfold digitValue. fold (isDigit c). rewrite Hc.
    apply digit_code in Hc.
    replace (Z.of_nat (code c - 48) <? 10)%Z with true by (symmetry; apply Z.ltb_lt; lia).
    now apply IH.
Qed.

(** [parseInt] without radix reads a digit run in base ten, leading
    zeros or not. *)
Lemma decimalFrom_nonneg (s : string) (a : Z) :
  (0 <= a)%Z -> allb isDigit s = true -> (0 <= decimalFrom a s)%Z.
Proof.
  revert a; induction s as [|c s IH]; intros a Ha Hs; cbn [decimalFrom allb] in *.
  - exact Ha.
  - apply andb_true_iff in Hs as [_ Hs]. apply IH; [lia | exact Hs].
Qed.

Lemma parseInt_decimal (s : string) :
  s <> EmptyString -> allb isDigit s = true ->
  parseInt s None = roundDouble (decimal s).
Proof.
  destruct s as [|c s]; [congruence|]. intros _ H.
  cbn [allb] in H. apply andb_true_iff in H as [Hc Hs].
  unfold parseInt, trimStart. cbn [dropWhile].
  rewrite (digit_not_space c Hc).
  rewrite !(digit_not_char c) by (assumption || (vm_compute; lia)).
  cbn [andb orb negb Z.eqb Z.ltb Z.compare].
  assert (Hhex : hexPrefix (String c s) = false).
  { unfold hexPrefix.
    destruct s as [|d s]; cbn [startsWith].
    - now rewrite !andb_false_r.
    - cbn [allb] in Hs. apply andb_true_iff in Hs as [Hd _].
      rewrite !(char_not_digit d) by (assumption || (vm_compute; lia)).
      now rewrite !andb_false_r. }
  rewrite Hhex. cbn [andb orb negb Z.eqb Z.ltb Z.compare parseDigits].
  unfold digitValue. fold (isDigit c). rewrite Hc.
  pose proof (digit_code c Hc) as Hcode.
  replace (Z.of_nat (code c - 48) <? 10)%Z with true by (symmetry; apply Z.ltb_lt; lia).
  rewrite (parseDigits_decimal s _ Hs). unfold decimal. cbn [decimalFrom].
  f_equal. lia.
Qed.

(** The number of a digit run, read as a double, is an integer up to
    [2 ^ 53 - 1] exactly when the run writes that integer. *)
Lemma roundDouble_decimal (d : string) (v : Z) :
  allb isDigit d = true -> (v <= MAX_SAFE_INTEGER)%Z ->
  (Fin v = roundDouble (decimal d) <-> v = decimal d).
Proof.
  intros Hd Hv. unfold MAX_SAFE_INTEGER in Hv.
  pose proof (decimalFrom_nonneg d 0 ltac:(lia) Hd) as Hpos. fold (decimal d) in Hpos.
  change (2 ^ 53 - 1)%Z with 9007199254740991%Z in Hv.
  destruct (roundDouble_nonneg (decimal d) Hpos) as [[E _]|[m [E [_ [H1 H2]]]]];
    rewrite E; change (2 ^ 53)%Z with 9007199254740992%Z in *.
  - split; [discriminate|]. intros ->.
    rewrite roundDouble_small in E
      by (change (2 ^ 53)%Z with 9007199254740992%Z; lia).
    discriminate.
  - split.
    + intros [= ->]. destruct (Z_lt_le_dec (decimal d) 9007199254740992); lia.
    + intros ->. f_equal. symmetry. apply H1. lia.
Qed.

(** X1.  For a stage of the enumeration, the added versions are the
    numbers written in base ten after the occurrences of
    [+DOTENV_VAULT_<STAGE>_VERSION=] in the diff, wherever in a line
    they stand, each read to the end of its digits and rounded to a
    double; the removed versions those after
    [-DOTENV_VAULT_<STAGE>_VERSION=].  Up to [2 ^ 53 - 1] an integer is
    a version exactly when a marker writes it. *)
Theorem version_markers_decimal (diff s : string) :
  In s STAGES ->
  (forall x, In x (addedVersions diff s) <->
     exists d, occursWith (addedMarker s) diff d /\ x = roundDouble (decimal d)) /\
  (forall x, In x (removedVersions diff s) <->
     exists d, occursWith (removedMarker s) diff d /\ x = roundDouble (decimal d)) /\
  (forall v, (v <= MAX_SAFE_INTEGER)%Z ->
     (In (Fin v) (addedVersions diff s) <->
        exists d, occursWith (addedMarker s) diff d /\ v = decimal d) /\
     (In (Fin v) (removedVersions diff s) <->
        exists d, occursWith (removedMarker s) diff d /\ v = decimal d)).
Proof.
  intros Hs.
  assert (Hdec : forall lit d, occursWith lit diff d ->
                               parseInt d None = roundDouble (decimal d)).
  { intros lit d [l [r [_ [Hne [Hd _]]]]]. now apply parseInt_decimal. }
  assert (Ha : forall x, In x (addedVersions diff s) <->
     exists d, occursWith (addedMarker s) diff d /\ x = roundDouble (decimal d)).
  { intros x. rewrite (addedVersions_spec diff s x Hs). split.
    - intros [d [Ho E]]. exists d. split; [exact Ho|]. now rewrite <- (Hdec _ _ Ho).
    - intros [d [Ho E]]. exists d. split; [exact Ho|]. now rewrite (Hdec _ _ Ho). }
  assert (Hr : forall x, In x (removedVersions diff s) <->
     exists d, occursWith (removedMarker s) diff d /\ x = roundDouble (decimal d)).
  { intros x. rewrite (removedVersions_spec diff s x Hs). split.
    - intros [d [Ho E]]. exists d. split; [exact Ho|]. now rewrite <- (Hdec _ _ Ho).
    - intros [d [Ho E]]. exists d. split; [exact Ho|]. now rewrite (Hdec _ _ Ho). }
  split; [exact Ha|]. split; [exact Hr|].
  assert (Hdig : forall lit d, occursWith lit diff d -> allb isDigit d = true).
  { intros lit d [l [r [_ [_ [Hd _]]]]]. exact Hd. }
  intros v Hv. split.
  - rewrite Ha. split; intros [d [Ho E]]; exists d; (split; [exact Ho|]);
      now apply (roundDouble_decimal d v (Hdig _ _ Ho) Hv).
  - rewrite Hr. split; intros [d [Ho E]]; exists d; (split; [exact Ho|]);
      now apply (roundDouble_decimal d v (Hdig _ _ Ho) Hv).
Qed.

Lemma version_markers_decimal_staging :
  (In (Fin 8) (addedVersions diff_3_5_8 "STAGING") <->
   exists d, occursWith (addedMarker "STAGING") diff_3_5_8 d /\ 8%Z = decimal d) /\
  (In (Fin 8) (removedVersions diff_3_5_8 "STAGING") <->
   exists d, occursWith (removedMarker "STAGING") diff_3_5_8 d /\ 8%Z = decimal d).
Proof.
  refine (proj2 (proj2 (version_markers_decimal diff_3_5_8 "STAGING" _)) 8%Z _).
  - simpl. tauto.
  - vm_compute. discriminate.
Defined.

(** A version past [2 ^ 53] is read as the nearest double:
    9007199254740993 as 9007199254740992. *)
Example version_marker_rounded :
  addedVersions diff_rounded "STAGING" = [Fin 9007199254740992] /\
  decimal "9007199254740993" = 9007199254740993%Z.
Proof. split; reflexivity. Qed.

(** X2.  Whatever the diff, the range computed for a stage holds
    integers from 1 up only, and a record the reconciler keeps for such
    a range has a version that reads as one of these integers: a version
    that is a word, zero or negative is never printed. *)
Theorem printed_versions_positive (w : World) (diff s : string)
  (sv : StageVersions) :
  stageVersionsOf diff s = Ok sv ->
  Forall (fun x => exists v, x = Fin v /\ (1 <= v)%Z) (versions sv) /\
  forall r,
    In r (changedVersionsOf (versions sv) (getAllVersions w s)) ->
    exists v, parseInt (toStr (version r)) (Some 10%Z) = Fin v /\ (1 <= v)%Z /\
              In (Fin v) (versions sv).
Proof.
  intros Hsv.
  pose proof (versions_positive diff s sv Hsv) as Hpos. split; [exact Hpos|].
  intros r Hr. apply filter_In in Hr as [_ Hr].
  destruct (inRange_integer _ _ Hpos Hr) as [v [E [Hin Hv]]].
  exists v. auto.
Qed.

Lemma printed_versions_positive_staging :
  Forall (fun x => exists v, x = Fin v /\ (1 <= v)%Z) [Fin 4; Fin 5; Fin 6] /\
  forall r,
    In r (changedVersionsOf [Fin 4; Fin 5; Fin 6] (getAllVersions world_3_6 "STAGING")) ->
    exists v, parseInt (toStr (version r)) (Some 10%Z) = Fin v /\ (1 <= v)%Z /\
              In (Fin v) [Fin 4; Fin 5; Fin 6].
Proof.
  exact (printed_versions_positive world_3_6 diff_3_6 "STAGING"
           (mkStageVersions "STAGING" [Fin 4; Fin 5; Fin 6]) eq_refl).
Defined.

Lemma STAGES_NoDup : NoDup STAGES.
Proof.
  unfold STAGES. repeat constructor; simpl; intuition discriminate.
Qed.

(** X3.  A mapping the extractor returns lists the flagged stages, all
    of them and no other, each once, in the order of the enumeration,
    and the entry of a stage is the one computed for that stage. *)
Theorem mapping_in_stage_order (diff : string) (m : list StageVersions) :
  changedStageVersions diff = Ok m ->
  map Action.stage m = filter (stageChanged diff) STAGES /\
  (forall s, In s (map Action.stage m) <->
             In s STAGES /\ stageChanged diff s = true) /\
  Subsequence (map Action.stage m) STAGES /\
  NoDup (map Action.stage m) /\
  Forall2 (fun s sv => stageVersionsOf diff s = Ok sv)
    (filter (stageChanged diff) STAGES) m /\
  forall sv, In sv m -> stageVersionsOf diff (Action.stage sv) = Ok sv.
Proof.
  intros Hm. pose proof (mapping_stages _ _ Hm) as E. unfold changedStages in E.
  rewrite E. split; [reflexivity|]. split; [intros s; apply filter_In|].
  split; [apply filter_Subsequence|]. split; [apply NoDup_filter, STAGES_NoDup|].
  split; [exact (mapping_entries _ _ Hm)|].
  intros sv Hsv. exact (mapping_In _ _ _ Hm Hsv).
Qed.

Lemma mapping_in_stage_order_3_6 :
  map Action.stage mapping_3_6 = filter (stageChanged diff_3_6) STAGES /\
  filter (stageChanged diff_3_6) STAGES = ["STAGING"].
Proof.
  split; [|reflexivity].
  exact (proj1 (mapping_in_stage_order diff_3_6 mapping_3_6 eq_refl)).
Defined.

(** X4.  When the diff holds neither [+DOTENV_VAULT_<STAGE>] nor
    [-DOTENV_VAULT_<STAGE>] for any stage, the mapping is empty and the
    comment body is the header followed by the four lines
    [<Stage>: No changes], whatever the listings are. *)
Theorem unmarked_diff_body (w : World) (diff : string) :
  (forall s, In s STAGES -> stageChanged diff s = false) ->
  changedStageVersions diff = Ok [] /\
  commentBody w []
  = join nl [ "Dotenv-vault Diff"; "CI: No changes"; "DEVELOPMENT: No changes";
              "STAGING: No changes"; "PRODUCTION: No changes" ] /\
  (execAsync w (gitDiffCommand w) = Ok diff ->
   generateCommentBody w
   = Ok (join nl [ "Dotenv-vault Diff"; "CI: No changes"; "DEVELOPMENT: No changes";
                   "STAGING: No changes"; "PRODUCTION: No changes" ])).
Proof.
  intros H.
  assert (E : changedStageVersions diff = Ok []).
  { rewrite changedStageVersions_eq. unfold changedStages.
    replace (filter (stageChanged diff) STAGES) with (@nil string); [reflexivity|].
    symmetry. unfold STAGES. simpl.
    rewrite !H by (simpl; tauto). reflexivity. }
  split; [exact E|]. split; [reflexivity|].
  intros Hd. unfold generateCommentBody, getChangedStageVersions.
  rewrite Hd, E. reflexivity.
Qed.

Lemma unmarked_diff_body_other_key :
  changedStageVersions diff_other_key = Ok [] /\
  generateCommentBody world_other_key
  = Ok (join nl [ "Dotenv-vault Diff"; "CI: No changes"; "DEVELOPMENT: No changes";
                  "STAGING: No changes"; "PRODUCTION: No changes" ]).
Proof.
  pose proof (unmarked_diff_body world_other_key diff_other_key) as H.
  destruct H as [H1 [_ H3]].
  - intros s Hs. simpl in Hs. decompose [or] Hs; subst; reflexivity || contradiction.
  - split; [exact H1 | apply H3; reflexivity].
Defined.

Lemma split_nonempty (sep : ascii) (s : string) : split sep s <> [].
Proof.
  destruct s as [|c s]; simpl; [discriminate|].
  destruct (Ascii.eqb c sep); [discriminate|].
  destruct (split sep s); discriminate.
Qed.

Lemma split_app_nl (a b : string) :
  split LF (a ++ nl ++ b) = (split LF a ++ split LF b)%list.
Proof.
  induction a as [|c a IH]; cbn [append split].
  - unfold nl. cbn [append split]. rewrite Ascii.eqb_refl. reflexivity.
  - rewrite IH. destruct (Ascii.eqb c LF); [reflexivity|].
    pose proof (split_nonempty LF a) as Hne.
    destruct (split LF a) as [|h t]; [congruence | reflexivity].
Qed.

Lemma split_join_flat (l : list string) :
  l <> [] -> split LF (join nl l) = flat_map (split LF) l.
Proof.
  induction l as [|x l IH]; [congruence|]. intros _.
  destruct l as [|y l].
  - simpl. now rewrite app_nil_r.
  - change (join nl (x :: y :: l)) with (x ++ nl ++ join nl (y :: l)).
    rewrite split_app_nl, IH by discriminate. reflexivity.
Qed.

Lemma split_noLF_one (x : string) : noLF x -> split LF x = [x].
Proof.
  intros H. apply (split_join [x]); [discriminate | now constructor].
Qed.

Lemma STAGES_noLF (s : string) : In s STAGES -> noLF s.
Proof.
  intros Hs. simpl in Hs. decompose [or] Hs; subst; reflexivity || contradiction.
Qed.

Lemma stageOutput_lines (w : World) (mapping : list StageVersions) (s : string) :
  In s STAGES -> split LF (stageOutput w mapping s) = stageLines w mapping s.
Proof.
  intros Hs. pose proof (STAGES_noLF s Hs) as Hn. unfold stageLines.
  destruct (entryOf s mapping) as [cv|] eqn:E.
  - destruct (changedVersionsOf (versions cv) (getAllVersions w s)) as [|r rs] eqn:Ek.
    + rewrite (stageOutput_none_in_range w mapping s cv E Ek).
      apply split_noLF_one, noLF_append; [assumption | reflexivity].
    + rewrite (stageOutput_records w mapping s cv E) by (rewrite Ek; discriminate).
      rewrite Ek. apply split_join; [discriminate|].
      apply Forall_map, Forall_forall. intros r' Hr'.
      rewrite <- Ek in Hr'. apply filter_In in Hr' as [Hr' _].
      apply getAllVersions_noLF in Hr' as [Hv Hf].
      now apply versionLine_noLF.
  - rewrite (stageOutput_absent w mapping s E).
    apply split_noLF_one, noLF_append; [assumption | reflexivity].
Qed.

(** X5.  The lines of the comment body are the header and then, stage
    by stage in the order of the enumeration, one line [No changes], one
    line [No versions changed] or one line per kept record: no text of a
    listing adds or breaks a line. *)
Theorem comment_body_lines (w : World) (mapping : list StageVersions) :
  split LF (commentBody w mapping)
  = "Dotenv-vault Diff" :: flat_map (stageLines w mapping) STAGES.
Proof.
  unfold commentBody. rewrite split_app_nl.
  rewrite split_join_flat by discriminate.
  unfold versionOutputs, STAGES. cbn [map flat_map].
  rewrite !stageOutput_lines by (simpl; tauto). reflexivity.
Qed.

End MoreExtractor.

(** ** Further properties of the listing parser *)

Section MoreParser.

Lemma splitSpaces2From_O (c : ascii) (s : string) :
  splitSpaces2From (String c s) 0
  = if (2 <=? String.length (takeWhile isSpace (String c s)))%nat
    then EmptyString
         :: splitSpaces2From s (String.length (takeWhile isSpace (String c s)) - 1)
    else consHead c (splitSpaces2From s 0).
Proof. reflexivity. Qed.

Lemma splitSpaces2From_skip (a rest : string) :
  splitSpaces2From (a ++ rest) (String.length a) = splitSpaces2From rest 0.
Proof.
  induction a as [|c a IH]; [now destruct rest | exact IH].
Qed.

Lemma takeWhile_spaces_app (sep rest : string) :
  allb isSpace sep = true -> startsWithSpace rest = false ->
  takeWhile isSpace (sep ++ rest) = sep.
Proof.
  intros Hs Hr. induction sep as [|c sep IH]; simpl in *.
  - destruct rest as [|c rest]; simpl in *; [reflexivity | now rewrite Hr].
  - apply andb_true_iff in Hs as [Hc Hs]. now rewrite Hc, IH.
Qed.

Lemma takeWhile_column_head (c : ascii) (t rest : string) :
  spacesApart (String c t) = true ->
  (String.length (takeWhile isSpace (String c (t ++ rest))) <= 1)%nat.
Proof.
  cbn [spacesApart takeWhile]. intros H. apply andb_true_iff in H as [H _].
  destruct (isSpace c); [|simpl; lia].
  apply andb_true_iff in H as [Hne Hh].
  destruct t as [|d t]; [discriminate|]. simpl in Hh. apply negb_true_iff in Hh.
  cbn [append takeWhile]. rewrite Hh. simpl. lia.
Qed.

(** A column, a separator, and what follows. *)
Lemma split_column_separator (t sep rest : string) :
  spacesApart t = true -> isSeparator sep = true -> startsWithSpace rest = false ->
  splitSpaces2From (t ++ sep ++ rest) 0 = t :: splitSpaces2From rest 0.
Proof.
  intros Ht Hsep Hr. unfold isSeparator in Hsep.
  apply andb_true_iff in Hsep as [Hall Hlen]. apply Nat.leb_le in Hlen.
  induction t as [|c t IH].
  - destruct sep as [|a sep]; [simpl in Hlen; lia|].
    change (EmptyString ++ String a sep ++ rest) with (String a (sep ++ rest)).
    rewrite splitSpaces2From_O.
    change (String a (sep ++ rest)) with (String a sep ++ rest).
    rewrite takeWhile_spaces_app by assumption.
    replace (2 <=? String.length (String a sep))%nat with true
      by (symmetry; now apply Nat.leb_le).
    replace (String.length (String a sep) - 1)%nat with (String.length sep)
      by (simpl; lia).
    now rewrite splitSpaces2From_skip.
  - change (String c t ++ sep ++ rest) with (String c (t ++ sep ++ rest)).
    rewrite splitSpaces2From_O.
    pose proof (takeWhile_column_head c t (sep ++ rest) Ht) as Hrun.
    replace (2 <=? _)%nat with false by (symmetry; apply Nat.leb_gt; lia).
    cbn [spacesApart] in Ht. apply andb_true_iff in Ht as [_ Ht].
    now rewrite (IH Ht).
Qed.

Lemma split_column_end (t : string) :
  spacesApart t = true -> splitSpaces2From t 0 = [t].
Proof.
  intros Ht. induction t as [|c t IH]; [reflexivity|].
  rewrite splitSpaces2From_O.
  pose proof (takeWhile_column_head c t EmptyString Ht) as Hrun.
  replace (t ++ EmptyString) with t in Hrun
    by (clear; induction t as [|x t IHt]; simpl; [reflexivity | now rewrite <- IHt]).
  replace (2 <=? _)%nat with false by (symmetry; apply Nat.leb_gt; lia).
  cbn [spacesApart] in Ht. apply andb_true_iff in Ht as [_ Ht].
  now rewrite (IH Ht).
Qed.

Lemma isColumn_parts (s : string) :
  isColumn s = true ->
  s <> EmptyString /\ startsWithSpace s = false /\ spacesApart s = true.
Proof.
  unfold isColumn. intros H.
  apply andb_true_iff in H as [H H3]. apply andb_true_iff in H as [H1 H2].
  apply negb_true_iff in H1, H2. apply isEmpty_false in H1. auto.
Qed.

Lemma rowOf_head (first : string) (rest : list (string * string)) :
  first <> EmptyString ->
  startsWithSpace (rowOf first rest) = startsWithSpace first.
Proof.
  intros Hne. destruct first as [|c first]; [congruence|].
  destruct rest as [|[sep col] rest]; reflexivity.
Qed.

(** The columns of a row are what the split on two spaces or more gives
    back. *)
Lemma splitSpaces2_rowOf (first : string) (rest : list (string * string)) :
  spacesApart first = true ->
  forallb (fun sc => isSeparator (fst sc) && isColumn (snd sc)) rest = true ->
  splitSpaces2 (rowOf first rest) = first :: map snd rest.
Proof.
  unfold splitSpaces2. revert first.
  induction rest as [|[sep col] rest IH]; intros first Hf Hr; cbn [rowOf map snd].
  - now apply split_column_end.
  - cbn [forallb fst snd] in Hr. apply andb_true_iff in Hr as [Hsc Hr].
    apply andb_true_iff in Hsc as [Hsep Hcol].
    destruct (isColumn_parts col Hcol) as [Hne [Hh Hs]].
    rewrite split_column_separator; try assumption.
    + f_equal. now apply IH.
    + now rewrite rowOf_head.
Qed.

Lemma trimStart_id (s : string) : startsWithSpace s = false -> trimStart s = s.
Proof.
  destruct s as [|c s]; [reflexivity|].
  unfold trimStart. cbn [startsWithSpace dropWhile]. now intros ->.
Qed.

Lemma trimEnd_id (s : string) : lastNonSpace s = true -> trimEnd s = s.
Proof.
  induction s as [|c s IH]; [discriminate|].
  destruct s as [|d s].
  - cbn [lastNonSpace trimEnd]. intros H. apply negb_true_iff in H. now rewrite H.
  - intros H. change (lastNonSpace (String d s) = true) in H.
    change (trimEnd (String c (String d s)))
      with (match trimEnd (String d s) with
            | EmptyString => if isSpace c then EmptyString else String c EmptyString
            | t => String c t
            end).
    now rewrite (IH H).
Qed.

Lemma lastNonSpace_nonempty (s : string) : lastNonSpace s = true -> s <> EmptyString.
Proof. destruct s; [discriminate | congruence]. Qed.

Lemma lastNonSpace_app (a b : string) :
  b <> EmptyString -> lastNonSpace (a ++ b) = lastNonSpace b.
Proof.
  intros Hb. induction a as [|c a IH]; [reflexivity|].
  cbn [append lastNonSpace]. rewrite IH.
  destruct (a ++ b) eqn:E; [|reflexivity].
  destruct a; simpl in E; [congruence | discriminate].
Qed.

Lemma lastNonSpace_apart (s : string) :
  spacesApart s = true -> s <> EmptyString -> lastNonSpace s = true.
Proof.
  induction s as [|c s IH]; [congruence|]. intros H _.
  cbn [spacesApart] in H. apply andb_true_iff in H as [Hc Hs].
  cbn [lastNonSpace]. destruct s as [|d s].
  - destruct (isSpace c); [discriminate | reflexivity].
  - apply IH; [assumption | discriminate].
Qed.

Lemma rowOf_nonempty (first : string) (rest : list (string * string)) :
  first <> EmptyString -> rowOf first rest <> EmptyString.
Proof.
  destruct first; [congruence|]. destruct rest as [|[sep col] rest]; discriminate.
Qed.

Lemma lastNonSpace_rowOf (first : string) (rest : list (string * string)) :
  isColumn first = true ->
  forallb (fun sc => isSeparator (fst sc) && isColumn (snd sc)) rest = true ->
  lastNonSpace (rowOf first rest) = true.
Proof.
  revert first. induction rest as [|[sep col] rest IH]; intros first Hf Hr; cbn [rowOf].
  - destruct (isColumn_parts _ Hf) as [Hne [_ Hs]]. now apply lastNonSpace_apart.
  - cbn [forallb fst snd] in Hr. apply andb_true_iff in Hr as [Hsc Hr].
    apply andb_true_iff in Hsc as [_ Hcol].
    destruct (isColumn_parts _ Hcol) as [Hne _].
    pose proof (rowOf_nonempty col rest Hne) as Hrow.
    rewrite !lastNonSpace_app; [now apply IH | assumption |].
    destruct sep; simpl; [assumption | discriminate].
Qed.

(** A row needs no trimming. *)
Lemma trim_rowOf (first : string) (rest : list (string * string)) :
  isColumn first = true ->
  forallb (fun sc => isSeparator (fst sc) && isColumn (snd sc)) rest = true ->
  trim (rowOf first rest) = rowOf first rest.
Proof.
  intros Hf Hr. destruct (isColumn_parts _ Hf) as [Hne [Hh _]].
  unfold trim. rewrite trimStart_id by (now rewrite rowOf_head).
  now apply trimEnd_id, lastNonSpace_rowOf.
Qed.

Lemma Array_pop_snoc {A : Type} (l : list A) (x : A) :
  Array_pop (l ++ [x])%list = (Some x, l).
Proof.
  induction l as [|y l IH]; [reflexivity|].
  change ((y :: l) ++ [x])%list with (y :: (l ++ [x]))%list.
  cbn [Array_pop]. rewrite IH.
  destruct (l ++ [x])%list eqn:E; [|reflexivity].
  destruct l; discriminate.
Qed.

Lemma join_consHead (sep : ascii) (c : ascii) (l : list string) :
  l <> [] ->
  join (String sep EmptyString) (consHead c l)
  = String c (join (String sep EmptyString) l).
Proof.
  destruct l as [|h t]; [congruence|]. intros _.
  destruct t; reflexivity.
Qed.

(** Joining what [split] made gives the text back. *)
Lemma join_split (sep : ascii) (s : string) :
  join (String sep EmptyString) (split sep s) = s.
Proof.
  induction s as [|c s IH]; [reflexivity|]. cbn [split].
  pose proof (split_nonempty sep s) as Hne.
  destruct (Ascii.eqb_spec c sep) as [->|Hc].
  - destruct (split sep s) as [|h t]; [congruence|].
    change (join (String sep EmptyString) (EmptyString :: h :: t))
      with (String sep (join (String sep EmptyString) (h :: t))).
    now rewrite IH.
  - rewrite join_consHead by assumption. now rewrite IH.
Qed.

Lemma wellFormedRow_parts (r : Row) :
  wellFormedRow r = true ->
  row_version r <> EmptyString /\
  isColumn (String "v" (row_version r)) = true /\
  forallb (fun sc => isSeparator (fst sc) && isColumn (snd sc))
    (row_columns r ++ [(row_separator r, rowUserTime r)])%list = true /\
  allb (fun c => negb (Ascii.eqb c " ")) (row_user r) = true /\
  noLF (rowText r).
Proof.
  unfold wellFormedRow. intros H.
  apply andb_true_iff in H as [H H7]. apply andb_true_iff in H as [H H6].
  apply andb_true_iff in H as [H H5]. apply andb_true_iff in H as [H H4].
  apply andb_true_iff in H as [H H3]. apply andb_true_iff in H as [H1 H2].
  apply negb_true_iff, isEmpty_false in H1.
  split; [exact H1|]. split; [exact H2|]. split; [|split; [exact H6 | exact H7]].
  rewrite forallb_app. cbn [forallb fst snd].
  rewrite H3, H4, H5. reflexivity.
Qed.

(** The record of a well-formed row. *)
Lemma parseLine_row (r : Row) :
  wellFormedRow r = true -> parseLine (rowText r) = rowRecord r.
Proof.
  intros H. destruct (wellFormedRow_parts r H) as [Hv [Hc [Hcols [Hu _]]]].
  destruct (isColumn_parts _ Hc) as [_ [_ Hs]].
  unfold parseLine, rowText.
  rewrite trim_rowOf, splitSpaces2_rowOf by assumption.
  rewrite map_app. cbn [map snd].
  change (String "v" (row_version r) :: map snd (row_columns r) ++ [rowUserTime r])%list
    with ((String "v" (row_version r) :: map snd (row_columns r)) ++ [rowUserTime r])%list.
  rewrite Array_pop_snoc. unfold rowUserTime.
  change (row_user r ++ " " ++ row_time r)
    with (row_user r ++ String " " (row_time r)).
  rewrite split_line by assumption.
  change (join " " (split " " (row_time r)))
    with (join (String " " EmptyString) (split " " (row_time r))).
  rewrite join_split. unfold rowRecord. cbn [removeFirst List.tl].
  rewrite Ascii.eqb_refl.
  destruct (map snd (row_columns r)); reflexivity.
Qed.

Lemma filter_all {A : Type} (p : A -> bool) (l : list A) :
  Forall (fun x => p x = true) l -> filter p l = l.
Proof.
  induction 1 as [|x l Hx Hl IH]; simpl; [reflexivity | now rewrite Hx, IH].
Qed.

Lemma listing_lines (rows : list string) :
  Forall (fun x => noLF x /\ trim x = x /\ x <> EmptyString) rows ->
  filter (fun line => negb (isEmpty (trim line))) (split LF (join nl rows ++ nl))
  = rows.
Proof.
  intros H.
  change (join nl rows ++ nl) with (join nl rows ++ nl ++ EmptyString).
  rewrite split_app_nl, filter_app.
  change (filter (fun line => negb (isEmpty (trim line))) (split LF EmptyString))
    with (@nil string).
  rewrite app_nil_r. destruct rows as [|x rows]; [reflexivity|].
  rewrite split_join; [|discriminate|].
  - apply filter_all. eapply Forall_impl; [|exact H].
    intros y [_ [-> Hy]]. now apply negb_true_iff, isEmpty_false.
  - eapply Forall_impl; [|exact H]. now intros y [Hy _].
Qed.

(** X6.  A listing in the format of the tool parses back to its rows:
    with two header lines and rows made of a version column [v<version>],
    any number of further columns and a last column [<user> <time>],
    the columns two white-space characters or more apart, the parser
    returns one record per row, in order, with that version, user and
    time, and for fields the first of the further columns, or [N/A]
    when there is none. *)
Theorem parse_printed_listing (h1 h2 : string) (rs : list Row) :
  noLF h1 -> noLF h2 ->
  forallb wellFormedRow rs = true ->
  parseListing (listingText h1 h2 (map rowText rs)) = map rowRecord rs.
Proof.
  intros H1 H2 Hrs. unfold listingText.
  rewrite parseListing_header by assumption.
  rewrite forallb_forall in Hrs.
  rewrite listing_lines.
  - rewrite map_map. rewrite (map_ext_in _ rowRecord).
    + apply filter_all, Forall_forall. intros v Hv.
      apply in_map_iff in Hv as [r [<- Hr]].
      destruct (wellFormedRow_parts r (Hrs r Hr)) as [Hne _].
      cbn [rowRecord version truthy]. now apply negb_true_iff, isEmpty_false.
    + intros r Hr. apply parseLine_row, Hrs, Hr.
  - apply Forall_map, Forall_forall. intros r Hr.
    destruct (wellFormedRow_parts r (Hrs r Hr)) as [_ [Hc [Hcols [_ Hn]]]].
    split; [exact Hn|]. split.
    + now apply trim_rowOf.
    + unfold rowText. apply rowOf_nonempty. discriminate.
Qed.

Lemma parse_printed_listing_two_rows :
  parseListing (listingText header1 header2 [rowText row_7; rowText row_6])
  = [ mkVersion (Some "7") "field-a, field-b" (Some "alice") "2024-01-01 10:00";
      mkVersion (Some "6") "N/A" (Some "bob") "3 days ago" ].
Proof.
  apply (parse_printed_listing header1 header2 [row_7; row_6]); reflexivity.
Defined.

(** X7.  The parser returns at most one record for each line after the
    first two: an output of two lines or fewer, the empty output among
    them, gives no record. *)
Theorem parseListing_length (stdout : string) :
  (List.length (parseListing stdout) <= List.length (split LF stdout) - 2)%nat /\
  ((List.length (split LF stdout) <= 2)%nat -> parseListing stdout = []).
Proof.
  assert (H : (List.length (parseListing stdout)
               <= List.length (split LF stdout) - 2)%nat).
  { unfold parseListing.
    eapply Nat.le_trans; [apply filter_length_le|]. rewrite length_map.
    eapply Nat.le_trans; [apply filter_length_le|]. now rewrite length_skipn. }
  split; [exact H|]. intros Hle.
  destruct (parseListing stdout); [reflexivity | simpl in H; lia].
Qed.

End MoreParser.

(** ** The entry point [run] *)

Section RunProperties.

Lemma promiseAllMap_resolved {A B : Type} (f : A -> Run.M B)
  (tr : A -> list Run.Event) (g : A -> B) (l : list A) :
  (forall x, In x l -> f x = (tr x, Run.Resolved (g x))) ->
  Run.promiseAllMap f l = (flat_map tr l, Run.Resolved (map g l)).
Proof.
  induction l as [|x l IH]; intros H; [reflexivity|].
  cbn [Run.promiseAllMap]. rewrite (H x) by now left.
  rewrite IH by (intros y Hy; apply H; now right). reflexivity.
Qed.

Lemma Run_getAllVersions_eq (rt : Run.Runtime) (env : Run.Environment) (s : string) :
  Run.getAllVersions rt env s
  = ([Run.Exec (versionsCommand s)],
     Run.Resolved (getAllVersions (Run.worldOf rt env) s)).
Proof.
  unfold Run.getAllVersions, Run.execAsync, Run.call, getAllVersions, Run.worldOf.
  cbn [execAsync Run.bind Run.tryCatch].
  destruct (Run.child_process_exec rt env (versionsCommand s)); reflexivity.
Qed.

Lemma flat_map_filter {A B : Type} (p : A -> bool) (g : A -> B) (l : list A) :
  flat_map (fun x => if p x then [g x] else []) l = map g (filter p l).
Proof.
  induction l as [|x l IH]; simpl; [reflexivity|].
  destruct (p x); simpl; now rewrite IH.
Qed.

(** What the extractor throws is the error of [Array.from], thrown for
    a flagged stage. *)
Lemma changedStageVersions_Err (diff e : string) :
  changedStageVersions diff = Err e ->
  e = "Invalid array length" /\
  exists s, In s (changedStages diff) /\ stageVersionsOf diff s = Err e.
Proof.
  rewrite changedStageVersions_eq. intros H%Array_map_Err.
  destruct H as [s [Hs He]]. split; [|now exists s].
  unfold stageVersionsOf in He. destruct (Array_from _ _); [discriminate|].
  now injection He as <-.
Qed.

(** The effectful [generateCommentBody], computed. *)
Lemma Run_generateCommentBody_eq (rt : Run.Runtime) (env : Run.Environment) :
  Run.generateCommentBody rt env
  = match execAsync (Run.worldOf rt env) (gitDiffCommand (Run.worldOf rt env)) with
    | Ok diff =>
        match changedStageVersions diff with
        | Ok m =>
            (commandEvents (Run.worldOf rt env) diff,
             Run.Resolved (commentBody (Run.worldOf rt env) m))
        | Err e =>
            ([Run.Exec (gitDiffCommand (Run.worldOf rt env))],
             Run.Rejected (Run.ErrorObject e))
        end
    | Err e =>
        ([Run.Exec (gitDiffCommand (Run.worldOf rt env))],
         Run.Rejected (Run.ErrorObject e))
    end.
Proof.
  set (w := Run.worldOf rt env). unfold Run.generateCommentBody, Run.getChangedStageVersions, Run.execAsync,
    Run.call.
  change (Run.child_process_exec rt env
            ("git diff origin/" ++ toStr (env "GITHUB_BASE_REF") ++ " -- .env.vault"))
    with (execAsync w (gitDiffCommand w)).
  change ("git diff origin/" ++ toStr (env "GITHUB_BASE_REF") ++ " -- .env.vault")
    with (gitDiffCommand w).
  destruct (execAsync w (gitDiffCommand w)) as [diff|e]; [|reflexivity].
  cbn [Run.bind Run.ret].
  destruct (changedStageVersions diff) as [m|e] eqn:Hm; [|reflexivity].
  cbn [Run.bind Run.ret].
  rewrite (promiseAllMap_resolved _
             (fun s => if stageChanged diff s && existsb (String.eqb s) STAGES
                       then [Run.Exec (versionsCommand s)] else [])
             (stageOutput w m)).
  - cbn [Run.bind Run.ret app]. rewrite app_nil_r.
    unfold commandEvents, changedStages. f_equal. f_equal.
    rewrite <- flat_map_filter. unfold STAGES. cbn [flat_map existsb].
    rewrite !String.eqb_refl. cbn [orb]. rewrite !orb_true_r, !andb_true_r.
    reflexivity.
  - intros s Hs. unfold stageOutput.
    assert (Hex : existsb (String.eqb s) STAGES = true).
    { apply existsb_exists. exists s. split; [assumption | apply String.eqb_refl]. }
    rewrite Hex, andb_true_r.
    destruct (stageChanged diff s) eqn:Ec.
    + destruct (entryOf_changed diff s m Hm Hs Ec) as [sv [E _]].
      unfold entryOf in E. rewrite E.
      rewrite Run_getAllVersions_eq. cbn [Run.bind Run.ret].
      fold w. destruct (List.length _ =? 0)%nat; reflexivity.
    + pose proof (entryOf_unchanged diff s m Hm (or_intror Ec)) as E.
      unfold entryOf in E. rewrite E. reflexivity.
Qed.

Lemma commandEvents_reads (w : World) (diff : string) :
  forallb isRead (commandEvents w diff) = true.
Proof.
  unfold commandEvents. cbn [forallb isRead andb].
  induction (changedStages diff) as [|s l IH]; [reflexivity | exact IH].
Qed.

(** [run], case by case. *)
Lemma run_eq (rt : Run.Runtime) :
  Run.run rt
  = if isEmpty (tokenOf rt) then [Run.SetFailed "GITHUB_TOKEN is not set. Exiting."]
    else if isEmpty (dotenvMeOf rt)
    then [Run.SetFailed "DOTENV_ME is not set. Exiting."]
    else
      match Run.context_repo rt with
      | Run.Rejected e => [Run.SetFailed (Run.errorMessage e)]
      | Run.Resolved r =>
          match Run.context_payload_pull_request rt with
          | Some pr => eventsFor rt r pr
          | None =>
              match Run.process_env rt "PR_NUMBER" with
              | None =>
                  [Run.SetFailed "Could not determine pull request number. Exiting."]
              | Some n =>
                  Run.PullsGet (tokenOf rt) r (parseInt n (Some 10%Z))
                  :: match Run.pulls_get (Run.github_getOctokit rt (tokenOf rt)) r
                             (parseInt n (Some 10%Z)) with
                     | Run.Resolved pr => eventsFor rt r pr
                     | Run.Rejected e => [Run.SetFailed (Run.errorMessage e)]
                     end
              end
          end
      end.
Proof.
  assert (Hafter : forall r pr,
    fst (Run.tryCatch
           (Run.bind (Run.generateCommentBody rt (commandEnv rt))
              (fun commentBody =>
                 Run.bind
                   (Run.call (Run.ListComments (tokenOf rt) r (Run.number pr))
                      (Run.issues_listComments
                         (Run.github_getOctokit rt (tokenOf rt)) r (Run.number pr)))
                   (fun comments =>
                      match find Run.isOwnComment comments with
                      | Some existingComment =>
                          Run.call
                            (Run.UpdateComment (tokenOf rt) r
                               (Run.id existingComment) commentBody)
                            (Run.issues_updateComment
                               (Run.github_getOctokit rt (tokenOf rt)) r
                               (Run.id existingComment) commentBody)
                      | None =>
                          Run.call
                            (Run.CreateComment (tokenOf rt) r
                               (Run.context_issue_number rt) commentBody)
                            (Run.issues_createComment
                               (Run.github_getOctokit rt (tokenOf rt)) r
                               (Run.context_issue_number rt) commentBody)
                      end)))
           (fun error => Run.setFailed (Run.errorMessage error)))
    = eventsFor rt r pr).
  { intros r pr. rewrite Run_generateCommentBody_eq. unfold eventsFor, writeEvents.
    fold (commandWorld rt).
    destruct (execAsync (commandWorld rt) (gitDiffCommand (commandWorld rt)))
      as [diff|e]; [|reflexivity].
    destruct (changedStageVersions diff) as [m|e]; [|reflexivity].
    unfold Run.call. cbn [Run.bind].
    destruct (Run.issues_listComments _ r (Run.number pr)) as [comments|e];
      [|cbn [Run.tryCatch Run.setFailed Run.call fst];
        now rewrite <- app_assoc].
    destruct (find Run.isOwnComment comments) as [c|].
    - destruct (Run.issues_updateComment _ r (Run.id c) _) as [[]|e];
        cbn [Run.tryCatch Run.setFailed Run.call fst settled];
        now rewrite <- ?app_assoc.
    - destruct (Run.issues_createComment _ r _ _) as [[]|e];
        cbn [Run.tryCatch Run.setFailed Run.call fst settled];
        now rewrite <- ?app_assoc. }
  unfold Run.run, Run.runBody. fold (tokenOf rt) (dotenvMeOf rt) (commandEnv rt).
  destruct (isEmpty (tokenOf rt)); [reflexivity|].
  destruct (isEmpty (dotenvMeOf rt)); [reflexivity|].
  destruct (Run.context_repo rt) as [r|e]; [|reflexivity].
  cbn [Run.bind app].
  destruct (Run.context_payload_pull_request rt) as [pr|].
  - cbn [Run.ret Run.bind app]. specialize (Hafter r pr). revert Hafter.
    destruct (Run.bind (Run.generateCommentBody rt (commandEnv rt)) _) as [t o].
    intros Hafter. exact Hafter.
  - destruct (Run.process_env rt "PR_NUMBER") as [n|]; [|reflexivity].
    unfold Run.call at 1. cbn [Run.bind].
    destruct (Run.pulls_get _ r _) as [pr|e]; [|reflexivity].
    cbn [Run.ret Run.bind app]. specialize (Hafter r pr). revert Hafter.
    destruct (Run.bind (Run.generateCommentBody rt (commandEnv rt)) _) as [t o].
    unfold Run.tryCatch, Run.setFailed, Run.call.
    destruct o as [u|e]; cbn [fst app]; now intros ->.
Qed.

Lemma isRead_facts (ev : Run.Event) :
  isRead ev = true ->
  writtenBody ev = None /\ isWrite ev = false /\ isCreate ev = false.
Proof. destruct ev; simpl; intros H; try discriminate; auto. Qed.

Lemma commandEvents_In (w : World) (diff : string) (ev : Run.Event) :
  In ev (commandEvents w diff) ->
  ev = Run.Exec (gitDiffCommand w) \/
  exists s, In s STAGES /\ stageChanged diff s = true /\
            ev = Run.Exec (versionsCommand s).
Proof.
  unfold commandEvents. intros [<-|H]; [now left|]. right.
  apply in_map_iff in H as [s [<- Hs]]. apply changedStages_In in Hs as [Hs Hc].
  now exists s.
Qed.

Lemma eventsFor_written (rt : Run.Runtime) (r : Run.Repo) (pr : Run.PullRequest)
  (ev : Run.Event) (b : string) :
  In ev (eventsFor rt r pr) -> writtenBody ev = Some b ->
  exists diff m,
    execAsync (commandWorld rt) (gitDiffCommand (commandWorld rt)) = Ok diff /\
    changedStageVersions diff = Ok m /\
    b = commentBody (commandWorld rt) m.
Proof.
  unfold eventsFor.
  destruct (execAsync (commandWorld rt) (gitDiffCommand (commandWorld rt)))
    as [diff|e]; [destruct (changedStageVersions diff) as [m|e] eqn:Hm|].
  - intros Hin Hb. exists diff, m. split; [reflexivity|]. split; [exact Hm|].
    apply in_app_or in Hin as [Hin|[<-|Hin]].
    + pose proof (commandEvents_reads (commandWorld rt) diff) as Hr.
      rewrite forallb_forall in Hr.
      destruct (isRead_facts ev (Hr ev Hin)) as [E _]. congruence.
    + discriminate.
    + destruct (Run.issues_listComments _ r _) as [comments|e].
      * unfold writeEvents in Hin.
        destruct (find Run.isOwnComment comments) as [c|];
          destruct Hin as [<-|Hin]; try (simpl in Hb; congruence);
          match goal with
          | H : In ev (settled ?o) |- _ =>
              destruct o as [[]|e']; simpl in H; [destruct H|];
              destruct H as [<-|[]]; discriminate
          end.
      * destruct Hin as [<-|[]]. discriminate.
  - intros [<-|[<-|[]]]; discriminate.
  - intros [<-|[<-|[]]]; discriminate.
Qed.

Lemma commentBody_prefix (w : World) (mapping : list StageVersions) :
  startsWith "Dotenv-vault Diff" (commentBody w mapping) = true.
Proof. unfold commentBody. apply startsWith_append_l. Qed.

Lemma settled_ending (w : Run.Event) (o : Run.outcome unit) :
  isWrite w = true -> runEnding (w :: settled o).
Proof.
  intros Hw. right. exists w. split; [assumption|].
  destruct o as [[]|e]; [now left | right; now eexists].
Qed.

Lemma eventsFor_shape (rt : Run.Runtime) (r : Run.Repo) (pr : Run.PullRequest) :
  exists reads tail,
    eventsFor rt r pr = (reads ++ tail)%list /\
    forallb isRead reads = true /\ runEnding tail.
Proof.
  unfold eventsFor.
  destruct (execAsync (commandWorld rt) (gitDiffCommand (commandWorld rt)))
    as [diff|e]; [destruct (changedStageVersions diff) as [m|e]|].
  - destruct (Run.issues_listComments _ r _) as [comments|e].
    + exists (commandEvents (commandWorld rt) diff
              ++ [Run.ListComments (tokenOf rt) r (Run.number pr)])%list.
      eexists. split; [now rewrite <- app_assoc|]. split.
      * rewrite forallb_app, commandEvents_reads. reflexivity.
      * unfold writeEvents. destruct (find Run.isOwnComment comments);
          now apply settled_ending.
    + exists (commandEvents (commandWorld rt) diff
              ++ [Run.ListComments (tokenOf rt) r (Run.number pr)])%list.
      eexists. split; [now rewrite <- app_assoc|]. split.
      * rewrite forallb_app, commandEvents_reads. reflexivity.
      * left. now eexists.
  - exists [Run.Exec (gitDiffCommand (commandWorld rt))], [Run.SetFailed e].
    repeat split. left. now eexists.
  - exists [Run.Exec (gitDiffCommand (commandWorld rt))], [Run.SetFailed e].
    repeat split. left. now eexists.
Qed.

(** X8.  [generateCommentBody] runs [git diff] first.  When the
    extractor returns a mapping it then runs, in the order of the
    enumeration, the listing command of each stage the diff flags, and
    of no other stage, and resolves to the comment body the pure reading
    of the code gives.  When the extractor throws, which it does with
    [Invalid array length] only, no listing command is run and the
    promise rejects with that error.  When [git diff] fails no listing
    command is run, and the promise rejects with the error of the
    command. *)
Theorem generateCommentBody_commands (rt : Run.Runtime) (env : Run.Environment) :
  (forall diff m,
      execAsync (Run.worldOf rt env) (gitDiffCommand (Run.worldOf rt env)) = Ok diff ->
      changedStageVersions diff = Ok m ->
      Run.generateCommentBody rt env
      = (Run.Exec (gitDiffCommand (Run.worldOf rt env))
         :: map (fun s => Run.Exec (versionsCommand s))
              (filter (stageChanged diff) STAGES),
         Run.Resolved (commentBody (Run.worldOf rt env) m)) /\
      generateCommentBody (Run.worldOf rt env)
      = Ok (commentBody (Run.worldOf rt env) m) /\
      forall s, stageChanged diff s = false ->
                ~ In (Run.Exec (versionsCommand s))
                    (fst (Run.generateCommentBody rt env))) /\
  (forall diff e,
      execAsync (Run.worldOf rt env) (gitDiffCommand (Run.worldOf rt env)) = Ok diff ->
      changedStageVersions diff = Err e ->
      e = "Invalid array length" /\
      Run.generateCommentBody rt env
      = ([Run.Exec (gitDiffCommand (Run.worldOf rt env))],
         Run.Rejected (Run.ErrorObject e)) /\
      generateCommentBody (Run.worldOf rt env) = Err e) /\
  (forall e,
      execAsync (Run.worldOf rt env) (gitDiffCommand (Run.worldOf rt env)) = Err e ->
      Run.generateCommentBody rt env
      = ([Run.Exec (gitDiffCommand (Run.worldOf rt env))],
         Run.Rejected (Run.ErrorObject e)) /\
      generateCommentBody (Run.worldOf rt env) = Err e).
Proof.
  rewrite Run_generateCommentBody_eq.
  unfold generateCommentBody, getChangedStageVersions.
  split; [|split].
  - intros diff m -> ->. split; [reflexivity|]. split; [reflexivity|].
    intros s Hs Hin. cbn [fst] in Hin.
    apply commandEvents_In in Hin as [H|[s' [_ [Hc H]]]].
    + discriminate.
    + injection H as H. congruence.
  - intros diff e -> He. destruct (changedStageVersions_Err _ _ He) as [E _].
    rewrite He. split; [exact E|]. split; reflexivity.
  - intros e ->. split; reflexivity.
Qed.

Lemma generateCommentBody_commands_event_run :
  Run.generateCommentBody event_run (commandEnv event_run)
  = ([ Run.Exec "git diff origin/dev -- .env.vault";
       Run.Exec "npx dotenv-vault versions STAGING" ],
     Run.Resolved body_3_6) /\
  Run.generateCommentBody huge_range_run (commandEnv huge_range_run)
  = ([ Run.Exec "git diff origin/dev -- .env.vault" ],
     Run.Rejected (Run.ErrorObject "Invalid array length")).
Proof.
  split.
  - exact (proj1 (proj1 (generateCommentBody_commands event_run (commandEnv event_run))
                    diff_3_6 mapping_3_6 eq_refl eq_refl)).
  - exact (proj1 (proj2 (proj1 (proj2
             (generateCommentBody_commands huge_range_run (commandEnv huge_range_run)))
             diff_0_4294967296 "Invalid array length" eq_refl eq_refl))).
Defined.

(** X9.  Without a token [run] reports [GITHUB_TOKEN is not set.
    Exiting.] and does nothing else; with a token and without the
    dotenv key it reports [DOTENV_ME is not set. Exiting.] and does
    nothing else.  An environment variable that is set and empty counts:
    the input of the action is then not looked at. *)
Theorem run_without_credentials (rt : Run.Runtime) :
  (tokenOf rt = EmptyString ->
   Run.run rt = [Run.SetFailed "GITHUB_TOKEN is not set. Exiting."]) /\
  (tokenOf rt <> EmptyString -> dotenvMeOf rt = EmptyString ->
   Run.run rt = [Run.SetFailed "DOTENV_ME is not set. Exiting."]) /\
  (Run.process_env rt "GITHUB_TOKEN" = Some EmptyString -> tokenOf rt = EmptyString) /\
  (Run.process_env rt "DOTENV_ME" = Some EmptyString -> dotenvMeOf rt = EmptyString) /\
  (Run.process_env rt "GITHUB_TOKEN" = None ->
   tokenOf rt = Run.core_getInput rt "github-token") /\
  (Run.process_env rt "DOTENV_ME" = None ->
   dotenvMeOf rt = Run.core_getInput rt "dotenv-me").
Proof.
  rewrite run_eq. unfold tokenOf, dotenvMeOf, Run.envOrInput.
  repeat split.
  - now intros ->.
  - intros Ht ->. apply isEmpty_false in Ht. now rewrite Ht.
  - now intros ->.
  - now intros ->.
  - now intros ->.
  - now intros ->.
Qed.

Lemma run_without_credentials_shadowed :
  Run.run shadowed_token_run = [Run.SetFailed "GITHUB_TOKEN is not set. Exiting."].
Proof.
  destruct (run_without_credentials shadowed_token_run) as [H1 [_ [H3 _]]].
  apply H1, H3. reflexivity.
Defined.

(** X10.  With the credentials and the repository there, the pull
    request of the event is taken when the event has one, and then the
    client is never asked for a pull request, whatever [PR_NUMBER] says;
    otherwise the first call asks for the pull request [PR_NUMBER]
    reads as, and a rejection of it is reported and ends the run; with
    neither, [run] reports [Could not determine pull request number.
    Exiting.] and does nothing else. *)
Theorem pull_request_resolution (rt : Run.Runtime) (r : Run.Repo) :
  tokenOf rt <> EmptyString -> dotenvMeOf rt <> EmptyString ->
  Run.context_repo rt = Run.Resolved r ->
  (forall pr, Run.context_payload_pull_request rt = Some pr ->
     forallb (fun ev => negb (isPullsGet ev)) (Run.run rt) = true /\
     forall tok r' n, In (Run.ListComments tok r' n) (Run.run rt) ->
                      n = Run.number pr) /\
  (Run.context_payload_pull_request rt = None ->
   forall n, Run.process_env rt "PR_NUMBER" = Some n ->
     List.hd_error (Run.run rt)
     = Some (Run.PullsGet (tokenOf rt) r (parseInt n (Some 10%Z))) /\
     forall e,
       Run.pulls_get (Run.github_getOctokit rt (tokenOf rt)) r (parseInt n (Some 10%Z))
       = Run.Rejected e ->
       Run.run rt = [ Run.PullsGet (tokenOf rt) r (parseInt n (Some 10%Z));
                      Run.SetFailed (Run.errorMessage e) ]) /\
  (Run.context_payload_pull_request rt = None ->
   Run.process_env rt "PR_NUMBER" = None ->
   Run.run rt = [Run.SetFailed "Could not determine pull request number. Exiting."]).
Proof.
  intros Ht Hm Hr. rewrite run_eq.
  apply isEmpty_false in Ht, Hm. rewrite Ht, Hm, Hr.
  split; [|split].
  - intros pr ->.
    destruct (eventsFor_shape rt r pr) as [reads [tail [E [Hreads Htail]]]].
    split.
    + rewrite E, forallb_app. apply andb_true_iff. split.
      * apply forallb_forall. intros ev Hev.
        rewrite forallb_forall in Hreads. specialize (Hreads ev Hev).
        clear - Hev Hreads E.
        assert (In ev (eventsFor rt r pr)) by (rewrite E; apply in_or_app; now left).
        unfold eventsFor in H.
        destruct (execAsync _ _) as [diff|e];
          [destruct (changedStageVersions diff) as [m|e]|].
        -- apply in_app_or in H as [H|[<-|H]].
           ++ apply commandEvents_In in H as [->|[s [_ [_ ->]]]]; reflexivity.
           ++ reflexivity.
           ++ destruct (Run.issues_listComments _ _ _); unfold writeEvents in H.
              ** destruct (find _ _); destruct H as [<-|H]; try reflexivity;
                   match goal with
                   | H : In ev (settled ?o) |- _ =>
                       destruct o as [[]|e']; simpl in H; [destruct H|];
                       destruct H as [<-|[]]; reflexivity
                   end.
              ** destruct H as [<-|[]]; reflexivity.
        -- destruct H as [<-|[<-|[]]]; reflexivity.
        -- destruct H as [<-|[<-|[]]]; reflexivity.
      * destruct Htail as [[m ->]|[w [Hw [->|[m ->]]]]];
          [reflexivity | destruct w; try discriminate; reflexivity ..].
    + intros tok r' n Hin. unfold eventsFor in Hin.
      destruct (execAsync _ _) as [diff|e];
        [destruct (changedStageVersions diff) as [m|e]|].
      * apply in_app_or in Hin as [Hin|[Hin|Hin]].
        -- apply commandEvents_In in Hin as [H|[s [_ [_ H]]]]; discriminate.
        -- now injection Hin as _ _ <-.
        -- destruct (Run.issues_listComments _ _ _); unfold writeEvents in Hin.
           ++ destruct (find _ _); destruct Hin as [H|Hin]; try discriminate;
                match goal with
                | H : In _ (settled ?o) |- _ =>
                    destruct o as [[]|e']; simpl in H; [destruct H|];
                    destruct H as [H|[]]; discriminate
                end.
           ++ destruct Hin as [H|[]]; discriminate.
      * destruct Hin as [H|[H|[]]]; discriminate.
      * destruct Hin as [H|[H|[]]]; discriminate.
  - intros -> n ->. split; [reflexivity|]. now intros e ->.
  - now intros -> ->.
Qed.

Lemma pull_request_resolution_local :
  (forall pr, Run.context_payload_pull_request first_run = Some pr ->
     forallb (fun ev => negb (isPullsGet ev)) (Run.run first_run) = true /\
     forall tok r' n, In (Run.ListComments tok r' n) (Run.run first_run) ->
                      n = Run.number pr) /\
  (Run.context_payload_pull_request first_run = None ->
   forall n, Run.process_env first_run "PR_NUMBER" = Some n ->
     List.hd_error (Run.run first_run)
     = Some (Run.PullsGet (tokenOf first_run) farmers (parseInt n (Some 10%Z))) /\
     forall e,
       Run.pulls_get (Run.github_getOctokit first_run (tokenOf first_run)) farmers
         (parseInt n (Some 10%Z))
       = Run.Rejected e ->
       Run.run first_run
       = [ Run.PullsGet (tokenOf first_run) farmers (parseInt n (Some 10%Z));
           Run.SetFailed (Run.errorMessage e) ]) /\
  (Run.context_payload_pull_request first_run = None ->
   Run.process_env first_run "PR_NUMBER" = None ->
   Run.run first_run
   = [Run.SetFailed "Could not determine pull request number. Exiting."]).
Proof.
  apply (pull_request_resolution first_run farmers).
  - discriminate.
  - discriminate.
  - reflexivity.
Defined.

(** X11.  The events of a run are some reads (commands, the request
    for the pull request, the listing of the comments) and then one of:
    the report of a failure; the write of one comment; the write of one
    comment that is rejected, and its report.  So a run writes one
    comment at most, reports one failure at most, and after a failure
    writes no more. *)
Theorem run_write_discipline (rt : Run.Runtime) :
  exists reads tail,
    Run.run rt = (reads ++ tail)%list /\
    forallb isRead reads = true /\
    runEnding tail.
Proof.
  rewrite run_eq.
  assert (Hfail : forall m, exists reads tail,
             [Run.SetFailed m] = (reads ++ tail)%list /\
             forallb isRead reads = true /\ runEnding tail).
  { intros m. exists [], [Run.SetFailed m]. repeat split. left. now eexists. }
  destruct (isEmpty (tokenOf rt)); [apply Hfail|].
  destruct (isEmpty (dotenvMeOf rt)); [apply Hfail|].
  destruct (Run.context_repo rt) as [r|e]; [|apply Hfail].
  destruct (Run.context_payload_pull_request rt) as [pr|];
    [apply eventsFor_shape|].
  destruct (Run.process_env rt "PR_NUMBER") as [n|]; [|apply Hfail].
  destruct (Run.pulls_get _ r _) as [pr|e].
  - destruct (eventsFor_shape rt r pr) as [reads [tail [E [Hreads Htail]]]].
    exists (Run.PullsGet (tokenOf rt) r (parseInt n (Some 10%Z)) :: reads), tail.
    rewrite E. repeat split; assumption.
  - exists [Run.PullsGet (tokenOf rt) r (parseInt n (Some 10%Z))],
      [Run.SetFailed (Run.errorMessage e)].
    repeat split. left. now eexists.
Qed.

Lemma run_written (rt : Run.Runtime) (ev : Run.Event) (b : string) :
  In ev (Run.run rt) -> writtenBody ev = Some b ->
  tokenOf rt <> EmptyString /\ dotenvMeOf rt <> EmptyString /\
  exists diff m,
    execAsync (commandWorld rt) (gitDiffCommand (commandWorld rt)) = Ok diff /\
    changedStageVersions diff = Ok m /\
    b = commentBody (commandWorld rt) m.
Proof.
  rewrite run_eq.
  assert (Hfail : forall m, In ev [Run.SetFailed m] -> writtenBody ev = Some b -> False).
  { intros m [<-|[]]. discriminate. }
  destruct (isEmpty (tokenOf rt)) eqn:Et; [intros H1 H2; destruct (Hfail _ H1 H2)|].
  destruct (isEmpty (dotenvMeOf rt)) eqn:Em; [intros H1 H2; destruct (Hfail _ H1 H2)|].
  apply isEmpty_false in Et, Em.
  destruct (Run.context_repo rt) as [r|e]; [|intros H1 H2; destruct (Hfail _ H1 H2)].
  destruct (Run.context_payload_pull_request rt) as [pr|].
  - intros H1 H2. repeat split; try assumption. now apply (eventsFor_written rt r pr ev b).
  - destruct (Run.process_env rt "PR_NUMBER") as [n|];
      [|intros H1 H2; destruct (Hfail _ H1 H2)].
    intros [<-|H1] H2; [discriminate|].
    destruct (Run.pulls_get _ r _) as [pr|e]; [|destruct (Hfail _ H1 H2)].
    repeat split; try assumption. now apply (eventsFor_written rt r pr ev b).
Qed.

(** X12.  The body of the comment a run writes is the comment body
    computed from the diff and the listings that the commands print
    when they run with [DOTENV_ME] set to the key the run resolved; it
    opens with [Dotenv-vault Diff]; and a comment is written only when
    the token and the key are there and [git diff] succeeded. *)
Theorem written_body_is_comment_body (rt : Run.Runtime) (ev : Run.Event) (b : string) :
  In ev (Run.run rt) -> writtenBody ev = Some b ->
  tokenOf rt <> EmptyString /\ dotenvMeOf rt <> EmptyString /\
  commandEnv rt "DOTENV_ME" = Some (dotenvMeOf rt) /\
  startsWith "Dotenv-vault Diff" b = true /\
  generateCommentBody (commandWorld rt) = Ok b.
Proof.
  intros Hin Hb.
  destruct (run_written rt ev b Hin Hb) as [Ht [Hm [diff [m [Hd [Hx ->]]]]]].
  split; [exact Ht|]. split; [exact Hm|]. split; [reflexivity|].
  split; [apply commentBody_prefix|].
  unfold generateCommentBody, getChangedStageVersions. now rewrite Hd, Hx.
Qed.

Lemma written_body_is_comment_body_first_run :
  tokenOf first_run <> EmptyString /\ dotenvMeOf first_run <> EmptyString /\
  commandEnv first_run "DOTENV_ME" = Some (dotenvMeOf first_run) /\
  startsWith "Dotenv-vault Diff" body_3_6 = true /\
  generateCommentBody (commandWorld first_run) = Ok body_3_6.
Proof.
  apply (written_body_is_comment_body first_run
           (Run.CreateComment "ghp_x" farmers None body_3_6)).
  - vm_compute. tauto.
  - reflexivity.
Defined.

(** X13.  A comment written by a run is found again: when the listing
    of the comments of a later run holds a comment of
    [github-actions[bot]] with the body an earlier run wrote, the later
    run creates no comment; if it writes, it updates the first comment
    of the action in the listing. *)
Theorem own_comment_not_duplicated (rt1 rt2 : Run.Runtime) (ev : Run.Event)
  (b : string) (c : Run.Comment) :
  In ev (Run.run rt1) -> writtenBody ev = Some b ->
  Run.user_login c = Some "github-actions[bot]" -> Run.body c = Some b ->
  (forall r n comments,
      Run.issues_listComments (Run.github_getOctokit rt2 (tokenOf rt2)) r n
      = Run.Resolved comments -> In c comments) ->
  forallb (fun ev2 => negb (isCreate ev2)) (Run.run rt2) = true /\
  forall tok r i b2, In (Run.UpdateComment tok r i b2) (Run.run rt2) ->
    exists comments n c',
      Run.issues_listComments (Run.github_getOctokit rt2 (tokenOf rt2)) r n
      = Run.Resolved comments /\
      find Run.isOwnComment comments = Some c' /\ i = Run.id c'.
Proof.
  intros Hin Hb Hu Hc Hlist.
  destruct (run_written rt1 ev b Hin Hb) as [_ [_ [diff [m1 [_ [_ Eb]]]]]].
  assert (Hown : Run.isOwnComment c = true).
  { unfold Run.isOwnComment. rewrite Hu, Hc, Eb, commentBody_prefix. reflexivity. }
  assert (Hfor : forall r pr,
    forallb (fun ev2 => negb (isCreate ev2)) (eventsFor rt2 r pr) = true /\
    forall tok r' i b2, In (Run.UpdateComment tok r' i b2) (eventsFor rt2 r pr) ->
      exists comments n c',
        Run.issues_listComments (Run.github_getOctokit rt2 (tokenOf rt2)) r' n
        = Run.Resolved comments /\
        find Run.isOwnComment comments = Some c' /\ i = Run.id c').
  { intros r pr. unfold eventsFor.
    destruct (execAsync _ _) as [d|e]; [|split; [reflexivity|]];
      [destruct (changedStageVersions d) as [m'|e]; [|split; [reflexivity|]]|].
    - assert (Hcmd : forallb (fun ev2 => negb (isCreate ev2))
                       (commandEvents (commandWorld rt2) d) = true).
      { apply forallb_forall. intros x Hx.
        pose proof (commandEvents_reads (commandWorld rt2) d) as Hr.
        rewrite forallb_forall in Hr.
        destruct (isRead_facts x (Hr x Hx)) as [_ [_ ->]]. reflexivity. }
      destruct (Run.issues_listComments _ r (Run.number pr)) as [comments|e] eqn:El.
      + pose proof (Hlist _ _ _ El) as Hc'.
        unfold writeEvents.
        destruct (find Run.isOwnComment comments) as [c'|] eqn:Ef.
        * split.
          -- rewrite forallb_app, Hcmd. cbn [forallb isCreate negb andb].
             destruct (Run.issues_updateComment _ _ _ _) as [[]|e']; reflexivity.
          -- intros tok r' i b2 H. apply in_app_or in H as [H|[H|[H|H]]].
             ++ apply commandEvents_In in H as [H|[s [_ [_ H]]]]; discriminate.
             ++ discriminate.
             ++ injection H as _ <- <- _. now exists comments, (Run.number pr), c'.
             ++ destruct (Run.issues_updateComment _ _ _ _) as [[]|e'];
                  simpl in H; [destruct H | destruct H as [H|[]]; discriminate].
        * pose proof (find_none _ _ Ef c Hc') as Hn. congruence.
      + split.
        * rewrite forallb_app, Hcmd. reflexivity.
        * intros tok r' i b2 H. apply in_app_or in H as [H|[H|[H|[]]]].
          -- apply commandEvents_In in H as [H|[s [_ [_ H]]]]; discriminate.
          -- discriminate.
          -- discriminate.
    - intros tok r' i b2 [H|[H|[]]]; discriminate.
    - intros tok r' i b2 [H|[H|[]]]; discriminate. }
  rewrite run_eq.
  assert (Hfail : forall m,
    forallb (fun ev2 => negb (isCreate ev2)) [Run.SetFailed m] = true /\
    forall tok r i b2, In (Run.UpdateComment tok r i b2) [Run.SetFailed m] ->
      exists comments n c',
        Run.issues_listComments (Run.github_getOctokit rt2 (tokenOf rt2)) r n
        = Run.Resolved comments /\
        find Run.isOwnComment comments = Some c' /\ i = Run.id c').
  { intros m. split; [reflexivity|]. intros tok r i b2 [H|[]]. discriminate. }
  destruct (isEmpty (tokenOf rt2)); [apply Hfail|].
  destruct (isEmpty (dotenvMeOf rt2)); [apply Hfail|].
  destruct (Run.context_repo rt2) as [r|e]; [|apply Hfail].
  destruct (Run.context_payload_pull_request rt2) as [pr|]; [apply Hfor|].
  destruct (Run.process_env rt2 "PR_NUMBER") as [n|]; [|apply Hfail].
  destruct (Run.pulls_get _ r _) as [pr|e].
  - destruct (Hfor r pr) as [H1 H2]. split.
    + cbn [forallb isCreate negb andb]. exact H1.
    + intros tok r' i b2 [H|H]; [discriminate | exact (H2 tok r' i b2 H)].
  - split; [reflexivity|]. intros tok r' i b2 [H|[H|[]]]; discriminate.
Qed.

Lemma own_comment_not_duplicated_second_run :
  forallb (fun ev2 => negb (isCreate ev2)) (Run.run second_run) = true /\
  forall tok r i b2, In (Run.UpdateComment tok r i b2) (Run.run second_run) ->
    exists comments n c',
      Run.issues_listComments (Run.github_getOctokit second_run (tokenOf second_run)) r n
      = Run.Resolved comments /\
      find Run.isOwnComment comments = Some c' /\ i = Run.id c'.
Proof.
  apply (own_comment_not_duplicated first_run second_run
           (Run.CreateComment "ghp_x" farmers None body_3_6) body_3_6 own_comment).
  - vm_compute. tauto.
  - reflexivity.
  - reflexivity.
  - reflexivity.
  - intros r n comments H. injection H as <-. simpl. tauto.
Defined.

(** X14.  A run of a pull request event with the credentials there,
    whose [git diff] succeeds, whose extractor returns a mapping, and
    whose listing of comments and write succeed, makes these calls and
    no other, in this order: [git diff], the listing command of each
    flagged stage, the listing of the comments of the pull request, and
    one write, the update of the first comment of the action if there is
    one, else the creation of a comment on the issue of the event
    context.  How the listing commands settle does not matter: no
    failure is reported. *)
Theorem successful_run_trace (rt : Run.Runtime) (r : Run.Repo) (pr : Run.PullRequest)
  (diff : string) (m : list StageVersions) (comments : list Run.Comment) :
  tokenOf rt <> EmptyString -> dotenvMeOf rt <> EmptyString ->
  Run.context_repo rt = Run.Resolved r ->
  Run.context_payload_pull_request rt = Some pr ->
  execAsync (commandWorld rt) (gitDiffCommand (commandWorld rt)) = Ok diff ->
  changedStageVersions diff = Ok m ->
  Run.issues_listComments (Run.github_getOctokit rt (tokenOf rt)) r (Run.number pr)
  = Run.Resolved comments ->
  match find Run.isOwnComment comments with
  | Some c =>
      Run.issues_updateComment (Run.github_getOctokit rt (tokenOf rt)) r (Run.id c)
        (commentBody (commandWorld rt) m)
  | None =>
      Run.issues_createComment (Run.github_getOctokit rt (tokenOf rt)) r
        (Run.context_issue_number rt) (commentBody (commandWorld rt) m)
  end = Run.Resolved tt ->
  Run.run rt
  = (Run.Exec (gitDiffCommand (commandWorld rt))
     :: map (fun s => Run.Exec (versionsCommand s))
          (filter (stageChanged diff) STAGES)
     ++ [ Run.ListComments (tokenOf rt) r (Run.number pr);
          match find Run.isOwnComment comments with
          | Some c =>
              Run.UpdateComment (tokenOf rt) r (Run.id c)
                (commentBody (commandWorld rt) m)
          | None =>
              Run.CreateComment (tokenOf rt) r (Run.context_issue_number rt)
                (commentBody (commandWorld rt) m)
          end ])%list.
Proof.
  intros Ht Hm Hr Hp Hd Hx Hl Hw. rewrite run_eq.
  apply isEmpty_false in Ht, Hm. rewrite Ht, Hm, Hr, Hp.
  unfold eventsFor, writeEvents. rewrite Hd, Hx, Hl.
  destruct (find Run.isOwnComment comments) as [c|]; rewrite Hw; reflexivity.
Qed.

(** The run of an event that finds its comment updates it; the run of
    an event that finds none creates one on the pull request. *)
Lemma successful_run_trace_event :
  Run.run event_update_run
  = [ Run.Exec "git diff origin/dev -- .env.vault";
      Run.Exec "npx dotenv-vault versions STAGING";
      Run.ListComments "ghp_x" farmers (Fin 13);
      Run.UpdateComment "ghp_x" farmers (Fin 901) body_3_6 ] /\
  Run.run event_run
  = [ Run.Exec "git diff origin/dev -- .env.vault";
      Run.Exec "npx dotenv-vault versions STAGING";
      Run.ListComments "ghp_x" farmers (Fin 13);
      Run.CreateComment "ghp_x" farmers (Some (Fin 13)) body_3_6 ].
Proof.
  split.
  - apply (successful_run_trace event_update_run farmers pr_13 diff_3_6 mapping_3_6
             [someone_else; own_comment]);
      (discriminate || reflexivity).
  - apply (successful_run_trace event_run farmers pr_13 diff_3_6 mapping_3_6 []);
      (discriminate || reflexivity).
Defined.

(** X20.  A run outside of a pull request event, with the credentials
    and [PR_NUMBER] there, whose calls succeed, whose extractor returns
    a mapping and which finds no comment of the action, first asks for
    the pull request, then runs the commands, lists the comments of the
    pull request it was given, and creates its comment on the issue
    number of the event context, not on the number of that pull
    request. *)
Theorem local_run_trace (rt : Run.Runtime) (r : Run.Repo) (n : string)
  (pr : Run.PullRequest) (diff : string) (m : list StageVersions)
  (comments : list Run.Comment) :
  tokenOf rt <> EmptyString -> dotenvMeOf rt <> EmptyString ->
  Run.context_repo rt = Run.Resolved r ->
  Run.context_payload_pull_request rt = None ->
  Run.process_env rt "PR_NUMBER" = Some n ->
  Run.pulls_get (Run.github_getOctokit rt (tokenOf rt)) r (parseInt n (Some 10%Z))
  = Run.Resolved pr ->
  execAsync (commandWorld rt) (gitDiffCommand (commandWorld rt)) = Ok diff ->
  changedStageVersions diff = Ok m ->
  Run.issues_listComments (Run.github_getOctokit rt (tokenOf rt)) r (Run.number pr)
  = Run.Resolved comments ->
  find Run.isOwnComment comments = None ->
  Run.issues_createComment (Run.github_getOctokit rt (tokenOf rt)) r
    (Run.context_issue_number rt)
    (commentBody (commandWorld rt) m)
  = Run.Resolved tt ->
  Run.run rt
  = (Run.PullsGet (tokenOf rt) r (parseInt n (Some 10%Z))
     :: Run.Exec (gitDiffCommand (commandWorld rt))
     :: map (fun s => Run.Exec (versionsCommand s))
          (filter (stageChanged diff) STAGES)
     ++ [ Run.ListComments (tokenOf rt) r (Run.number pr);
          Run.CreateComment (tokenOf rt) r (Run.context_issue_number rt)
            (commentBody (commandWorld rt) m) ])%list.
Proof.
  intros Ht Hm Hr Hp Hn Hg Hd Hx Hl Hf Hc. rewrite run_eq.
  apply isEmpty_false in Ht, Hm. rewrite Ht, Hm, Hr, Hp, Hn, Hg.
  unfold eventsFor, writeEvents. rewrite Hd, Hx, Hl, Hf, Hc. reflexivity.
Qed.

Lemma local_run_trace_first_run :
  Run.run first_run
  = [ Run.PullsGet "ghp_x" farmers (Fin 13);
      Run.Exec "git diff origin/dev -- .env.vault";
      Run.Exec "npx dotenv-vault versions STAGING";
      Run.ListComments "ghp_x" farmers (Fin 13);
      Run.CreateComment "ghp_x" farmers None body_3_6 ].
Proof.
  apply (local_run_trace first_run farmers "13" pr_13 diff_3_6 mapping_3_6
           [someone_else]);
    (discriminate || reflexivity).
Defined.

(** X21.  When [git diff] succeeds and the extractor throws, as it
    does when the range of a flagged stage would be longer than an array
    can be, no run runs a listing command, lists comments or writes a
    comment; and a run that has its credentials and the pull request of
    the event makes the one call [git diff] and reports
    [Invalid array length]. *)
Theorem extractor_failure_aborts (rt : Run.Runtime) (diff e : string) :
  execAsync (commandWorld rt) (gitDiffCommand (commandWorld rt)) = Ok diff ->
  changedStageVersions diff = Err e ->
  e = "Invalid array length" /\
  (forall ev, In ev (Run.run rt) ->
     isWrite ev = false /\ isListComments ev = false /\
     forall s, ev <> Run.Exec (versionsCommand s)) /\
  (forall r pr,
      tokenOf rt <> EmptyString -> dotenvMeOf rt <> EmptyString ->
      Run.context_repo rt = Run.Resolved r ->
      Run.context_payload_pull_request rt = Some pr ->
      Run.run rt = [ Run.Exec (gitDiffCommand (commandWorld rt));
                     Run.SetFailed "Invalid array length" ]).
Proof.
  intros Hd He. destruct (changedStageVersions_Err _ _ He) as [E _]. subst e.
  split; [reflexivity|]. rewrite run_eq. split.
  - assert (Hgit : forall s, Run.Exec (gitDiffCommand (commandWorld rt))
                             <> Run.Exec (versionsCommand s)).
    { intros s H. injection H as H. unfold gitDiffCommand, versionsCommand in H.
      discriminate H. }
    assert (Hfor : forall r pr ev, In ev (eventsFor rt r pr) ->
                     isWrite ev = false /\ isListComments ev = false /\
                     forall s, ev <> Run.Exec (versionsCommand s)).
    { intros r pr ev. unfold eventsFor. rewrite Hd, He.
      intros [<-|[<-|[]]]; (split; [reflexivity|]); (split; [reflexivity|]);
        [exact Hgit | discriminate]. }
    assert (Hfail : forall m ev, In ev [Run.SetFailed m] ->
                      isWrite ev = false /\ isListComments ev = false /\
                      forall s, ev <> Run.Exec (versionsCommand s)).
    { intros m ev [<-|[]]. repeat split. discriminate. }
    destruct (isEmpty (tokenOf rt)); [apply Hfail|].
    destruct (isEmpty (dotenvMeOf rt)); [apply Hfail|].
    destruct (Run.context_repo rt) as [r|e']; [|apply Hfail].
    destruct (Run.context_payload_pull_request rt) as [pr|]; [apply Hfor|].
    destruct (Run.process_env rt "PR_NUMBER") as [n|]; [|apply Hfail].
    intros ev [<-|H]; [repeat split; discriminate|].
    destruct (Run.pulls_get _ r _) as [pr|e'];
      [now apply (Hfor r pr) | now apply (Hfail _ _ H)].
  - intros r pr Ht Hm Hr Hp. apply isEmpty_false in Ht, Hm.
    rewrite Ht, Hm, Hr, Hp. unfold eventsFor. now rewrite Hd, He.
Qed.

Lemma extractor_failure_aborts_huge_range :
  Run.run huge_range_run
  = [ Run.Exec "git diff origin/dev -- .env.vault";
      Run.SetFailed "Invalid array length" ].
Proof.
  refine (proj2 (proj2 (extractor_failure_aborts huge_range_run diff_0_4294967296
                          "Invalid array length" _ _)) farmers pr_13 _ _ _ _);
    (discriminate || reflexivity).
Defined.

(** X15.  When [git diff] fails, no run lists comments or writes one;
    and a run that has its credentials and the pull request of the
    event then makes the one call [git diff] and reports its error. *)
Theorem git_diff_failure_aborts (rt : Run.Runtime) (e : string) :
  execAsync (commandWorld rt) (gitDiffCommand (commandWorld rt)) = Err e ->
  (forall ev, In ev (Run.run rt) -> isWrite ev = false /\ isListComments ev = false) /\
  (forall r pr,
      tokenOf rt <> EmptyString -> dotenvMeOf rt <> EmptyString ->
      Run.context_repo rt = Run.Resolved r ->
      Run.context_payload_pull_request rt = Some pr ->
      Run.run rt = [Run.Exec (gitDiffCommand (commandWorld rt)); Run.SetFailed e]).
Proof.
  intros Hd. rewrite run_eq. split.
  - assert (Hfor : forall r pr ev, In ev (eventsFor rt r pr) ->
                                   isWrite ev = false /\ isListComments ev = false).
    { intros r pr ev. unfold eventsFor. rewrite Hd.
      intros [<-|[<-|[]]]; split; reflexivity. }
    assert (Hfail : forall m ev, In ev [Run.SetFailed m] ->
                                 isWrite ev = false /\ isListComments ev = false).
    { intros m ev [<-|[]]. split; reflexivity. }
    destruct (isEmpty (tokenOf rt)); [apply Hfail|].
    destruct (isEmpty (dotenvMeOf rt)); [apply Hfail|].
    destruct (Run.context_repo rt) as [r|e']; [|apply Hfail].
    destruct (Run.context_payload_pull_request rt) as [pr|]; [apply Hfor|].
    destruct (Run.process_env rt "PR_NUMBER") as [n|]; [|apply Hfail].
    intros ev [<-|H]; [split; reflexivity|].
    destruct (Run.pulls_get _ r _) as [pr|e']; [now apply (Hfor r pr) | now apply (Hfail _ _ H)].
  - intros r pr Ht Hm Hr Hp. apply isEmpty_false in Ht, Hm.
    rewrite Ht, Hm, Hr, Hp. unfold eventsFor. now rewrite Hd.
Qed.

Lemma git_diff_failure_aborts_no_diff :
  (forall ev, In ev (Run.run no_diff_run) ->
              isWrite ev = false /\ isListComments ev = false) /\
  (forall r pr,
      tokenOf no_diff_run <> EmptyString -> dotenvMeOf no_diff_run <> EmptyString ->
      Run.context_repo no_diff_run = Run.Resolved r ->
      Run.context_payload_pull_request no_diff_run = Some pr ->
      Run.run no_diff_run
      = [ Run.Exec (gitDiffCommand (commandWorld no_diff_run));
          Run.SetFailed "fatal: bad revision" ]).
Proof.
  apply (git_diff_failure_aborts no_diff_run "fatal: bad revision"). reflexivity.
Defined.

End RunProperties.

(** ** The comment body of [src/main.ts] *)

Section MoreMainTs.

Lemma filter_Subsequence_impl {A : Type} (p q : A -> bool) (l : list A) :
  (forall x, p x = true -> q x = true) ->
  Subsequence (filter p l) (filter q l).
Proof.
  intros H. induction l as [|x l IH]; simpl; [constructor|].
  destruct (p x) eqn:Ep.
  - rewrite (H x Ep). now apply sub_keep.
  - destruct (q x); [apply sub_skip|]; assumption.
Qed.

(** X16.  The stages [src/main.ts] reports are among the stages the
    richer entry point flags, and so among the stages of every mapping
    its extractor returns, in the same order: it flags by the added
    marker alone, the richer one by the added or the removed marker. *)
Theorem main_ts_flags_fewer (diff : string) :
  Subsequence (MainTs.changedStages diff) (changedStages diff) /\
  (forall s, In s (MainTs.changedStages diff) -> In s (changedStages diff)) /\
  (forall m, changedStageVersions diff = Ok m ->
     Subsequence (MainTs.changedStages diff) (map Action.stage m) /\
     forall s, In s (MainTs.changedStages diff) -> inMapping m s).
Proof.
  assert (H : Subsequence (MainTs.changedStages diff) (changedStages diff)).
  { apply (filter_Subsequence_impl _ _ STAGES).
    intros s Hs. unfold stageChanged. now rewrite Hs. }
  assert (Hin : forall s, In s (MainTs.changedStages diff) -> In s (changedStages diff)).
  { intros s. revert H.
    generalize (MainTs.changedStages diff) (changedStages diff).
    induction 1 as [|x l1 l2 Hsub IH|x l1 l2 Hsub IH]; simpl; intuition. }
  split; [exact H|]. split; [exact Hin|].
  intros m Hm. unfold inMapping. rewrite (mapping_stages _ _ Hm). now split.
Qed.

Lemma filter_none {A : Type} (p : A -> bool) (l : list A) :
  (forall x, In x l -> p x = false) -> filter p l = [].
Proof.
  induction l as [|x l IH]; intros H; [reflexivity|]. simpl.
  rewrite (H x) by now left. apply IH. intros y Hy. apply H. now right.
Qed.

(** X17.  When no stage has its added marker in the diff, removals or
    not, the body [src/main.ts] makes is the fixed text [No changes
    detected in .env.vault file.] under the header, whatever the tool
    would print. *)
Theorem main_ts_no_added_marker (w : World) (diff : string) :
  (forall s, In s MainTs.stages -> includes ("+DOTENV_VAULT_" ++ s) diff = false) ->
  MainTs.commentBodyOf w diff
  = "Dotenv-vault Diff" ++ nl ++ nl ++ "No changes detected in .env.vault file.".
Proof.
  intros H. unfold MainTs.commentBodyOf, MainTs.changedStages.
  rewrite filter_none by exact H. reflexivity.
Qed.

Lemma main_ts_no_added_marker_remove_only :
  MainTs.commentBodyOf world_3_6 diff_remove_only
  = "Dotenv-vault Diff" ++ nl ++ nl ++ "No changes detected in .env.vault file.".
Proof.
  apply main_ts_no_added_marker.
  intros s Hs. simpl in Hs. decompose [or] Hs; subst; reflexivity || contradiction.
Defined.

(** The richer entry point flags CI on that diff. *)
Example remove_only_is_flagged :
  changedStageVersions diff_remove_only = Ok [mkStageVersions "CI" []].
Proof. reflexivity. Qed.

Lemma trimEnd_spaces (s : string) : allb isSpace s = true -> trimEnd s = EmptyString.
Proof.
  induction s as [|c s IH]; [reflexivity|]. cbn [allb trimEnd]. intros H.
  apply andb_true_iff in H as [Hc Hs]. now rewrite (IH Hs), Hc.
Qed.

Lemma trimEnd_app_spaces (a ws : string) :
  allb isSpace ws = true -> trimEnd (a ++ ws) = trimEnd a.
Proof.
  intros H. induction a as [|c a IH]; [now apply trimEnd_spaces|].
  cbn [append trimEnd]. now rewrite IH.
Qed.

Lemma trim_spaces (s : string) : allb isSpace s = true -> trim s = EmptyString.
Proof.
  intros H. unfold trim, trimStart. apply trimEnd_spaces.
  now apply allb_dropWhile.
Qed.

Lemma join_empties_spaces {A : Type} (l : list A) :
  allb isSpace (join nl (map (fun _ => EmptyString) l)) = true.
Proof.
  induction l as [|x l IH]; [reflexivity|].
  destruct l as [|y l]; [reflexivity|].
  change (join nl (map (fun _ : A => EmptyString) (x :: y :: l)))
    with (EmptyString ++ nl ++ join nl (map (fun _ : A => EmptyString) (y :: l))).
  cbn [append nl allb]. rewrite IH. reflexivity.
Qed.

(** X18.  When stages are flagged and for each of them the tool fails
    or prints white space only, the body [src/main.ts] makes is the
    header [Dotenv-vault Diff] alone: the changed stages are not
    named. *)
Theorem main_ts_header_only (w : World) (diff : string) :
  MainTs.changedStages diff <> [] ->
  (forall s, In s (MainTs.changedStages diff) ->
     match execAsync w (MainTs.latestVersionCommand (toLowerCase s)) with
     | Ok stdout => allb isSpace stdout = true
     | Err _ => True
     end) ->
  MainTs.commentBodyOf w diff = "Dotenv-vault Diff".
Proof.
  intros Hne H. unfold MainTs.commentBodyOf.
  destruct (MainTs.changedStages diff) as [|s0 l] eqn:E; [congruence|].
  cbn [List.length Nat.eqb].
  rewrite (map_ext_in _ (fun _ => EmptyString)).
  - change ("Dotenv-vault Diff" ++ nl ++ join nl (map (fun _ => EmptyString) (s0 :: l)))
      with ("Dotenv-vault Diff"
            ++ (nl ++ join nl (map (fun _ : string => EmptyString) (s0 :: l)))).
    unfold trim. rewrite trimStart_id by reflexivity.
    rewrite trimEnd_app_spaces; [reflexivity|].
    cbn [append nl allb]. now rewrite join_empties_spaces.
  - intros s Hs. specialize (H s Hs). unfold MainTs.versionOutput, MainTs.getLatestVersion.
    destruct (execAsync w _) as [stdout|e]; [|reflexivity].
    now rewrite (trim_spaces stdout H).
Qed.

Lemma main_ts_header_only_blank :
  MainTs.commentBodyOf world_blank_latest diff_3_6 = "Dotenv-vault Diff".
Proof.
  apply main_ts_header_only.
  - discriminate.
  - intros s Hs. vm_compute in Hs. destruct Hs as [<-|[]]. reflexivity.
Defined.

Lemma trimEnd_last (s : string) :
  trimEnd s = EmptyString \/ lastNonSpace (trimEnd s) = true.
Proof.
  induction s as [|c s IH]; [now left|]. cbn [trimEnd].
  destruct (trimEnd s) as [|d t].
  - destruct (isSpace c) eqn:Ec; [now left | right; simpl; now rewrite Ec].
  - right. destruct IH as [IH|IH]; [discriminate | exact IH].
Qed.

Lemma trimEnd_head (s : string) :
  startsWithSpace s = false -> startsWithSpace (trimEnd s) = false.
Proof.
  destruct s as [|c s]; [reflexivity|]. cbn [startsWithSpace trimEnd]. intros Hc.
  destruct (trimEnd s); [rewrite Hc; exact Hc | exact Hc].
Qed.

Lemma dropWhile_space_head (s : string) :
  startsWithSpace (dropWhile isSpace s) = false.
Proof.
  induction s as [|c s IH]; [reflexivity|]. cbn [dropWhile].
  destruct (isSpace c) eqn:E; [exact IH | simpl; exact E].
Qed.

(** Trimming twice is trimming once. *)
Lemma trim_idempotent (s : string) : trim (trim s) = trim s.
Proof.
  unfold trim at 1. rewrite trimStart_id.
  - unfold trim. destruct (trimEnd_last (trimStart s)) as [E|E].
    + now rewrite E.
    + now apply trimEnd_id.
  - unfold trim, trimStart. apply trimEnd_head, dropWhile_space_head.
Qed.

Lemma trimEnd_keeps_prefix (p rest : string) :
  lastNonSpace p = true -> exists x, trimEnd (p ++ rest) = p ++ x.
Proof.
  induction p as [|c p IH]; [discriminate|]. intros H.
  destruct p as [|d p].
  - cbn [lastNonSpace] in H. apply negb_true_iff in H.
    cbn [append trimEnd]. destruct (trimEnd rest) as [|y t].
    + rewrite H. now exists EmptyString.
    + now exists (String y t).
  - destruct (IH H) as [x Hx].
    change (trimEnd (String c (String d p) ++ rest))
      with (match trimEnd (String d p ++ rest) with
            | EmptyString => if isSpace c then EmptyString else String c EmptyString
            | t => String c t
            end).
    rewrite Hx. now exists x.
Qed.

(** X19.  Whatever the diff and the tool, the body [src/main.ts] makes
    opens with [Dotenv-vault Diff], the text by which a comment of the
    action is found again, and has no white space around it. *)
Theorem main_ts_body_prefix (w : World) (diff : string) :
  startsWith "Dotenv-vault Diff" (MainTs.commentBodyOf w diff) = true /\
  trim (MainTs.commentBodyOf w diff) = MainTs.commentBodyOf w diff /\
  Run.isOwnComment
    (Run.mkComment (Fin 1) (Some "github-actions[bot]")
       (Some (MainTs.commentBodyOf w diff))) = true.
Proof.
  assert (H : startsWith "Dotenv-vault Diff" (MainTs.commentBodyOf w diff) = true).
  { unfold MainTs.commentBodyOf.
    destruct (List.length _ =? 0)%nat; [reflexivity|].
    unfold trim. rewrite trimStart_id by reflexivity.
    destruct (trimEnd_keeps_prefix "Dotenv-vault Diff"
                (nl ++ join nl (map (MainTs.versionOutput w) (MainTs.changedStages diff)))
                eq_refl) as [x Hx].
    rewrite Hx. apply startsWith_append_l. }
  split; [exact H|]. split.
  - unfold MainTs.commentBodyOf.
    destruct (List.length _ =? 0)%nat; [reflexivity | apply trim_idempotent].
  - unfold Run.isOwnComment. cbn [Run.user_login Run.body]. now rewrite H.
Qed.

End MoreMainTs.
